(** * LinkedIn CTO Finder: query construction, pagination and profile extraction

    A shallow embedding of the search pipeline of the repository:

    - the query builder shared by every [searchCtoProfiles*] method,
    - the two page fetchers ([LinkedInProfileSearchService] on the Google
      Custom Search backend, [SerpApiSearchService] on SerpAPI),
    - the two versions of [ProfileExtractor]: the one of the monolithic
      [index.ts] (module [Primary]) and the one of [search-services.ts]
      (module [Alternate]),
    - the HTTP endpoints of [index.ts] (module [Api]) and the Telegram bot
      of [telegram-bot.ts] (module [TelegramCTOBot]).

    Conventions of the embedding.
    - A JavaScript string is a [string] of ASCII characters; case mapping,
      [\w] and [\s] are the ASCII ones.
    - A JavaScript number is a rational [Q]; every arithmetic operation the
      code performs on scores is exact on such values.
    - [undefined] is [None].
    - An [async] function is modelled by its completion: [Returned v] for a
      fulfilled promise, [Thrown e] for a rejected one.
    - The network is a backend function queried through a call counter.
    - Logging and the inter-request delays are not represented. *)

From Stdlib Require Import String Ascii List Bool Arith ZArith QArith Lia.
Import ListNotations.

Open Scope list_scope.
Open Scope string_scope.

(** ** JavaScript strings *)

Module Js.

Definition code (c : ascii) : nat := nat_of_ascii c.

Definition in_range (lo hi c : ascii) : bool :=
  (code lo <=? code c)%nat && (code c <=? code hi)%nat.

Definition is_upper (c : ascii) : bool := in_range "A" "Z" c.
Definition is_lower (c : ascii) : bool := in_range "a" "z" c.
Definition is_digit (c : ascii) : bool := in_range "0" "9" c.

(** [\w] *)
Definition is_word (c : ascii) : bool :=
  is_upper c || is_lower c || is_digit c || Ascii.eqb c "_".

(** [\s]: space, tab, line feed, vertical tab, form feed, carriage return *)
Definition is_space (c : ascii) : bool :=
  Ascii.eqb c " " || ((9 <=? code c)%nat && (code c <=? 13)%nat).

Definition lower_char (c : ascii) : ascii :=
  if is_upper c then ascii_of_nat (code c + 32) else c.

Definition upper_char (c : ascii) : ascii :=
  if is_lower c then ascii_of_nat (code c - 32) else c.

Fixpoint map_chars (f : ascii -> ascii) (s : string) : string :=
  match s with
  | EmptyString => EmptyString
  | String c s' => String (f c) (map_chars f s')
  end.

Definition toLowerCase (s : string) : string := map_chars lower_char s.
Definition toUpperCase (s : string) : string := map_chars upper_char s.

(** Truthiness of a string: only the empty string is falsy. *)
Definition truthy (s : string) : bool := negb (String.eqb s "").

(** Truthiness of an optional string parameter ([undefined] is falsy). *)
Definition truthy_opt (o : option string) : bool :=
  match o with
  | None => false
  | Some s => truthy s
  end.

(** [s || ""] on a value that may be [undefined]. *)
Definition or_empty (s : string) : string := if truthy s then s else "".

(** [s.includes(sub)] *)
Fixpoint includes (s sub : string) : bool :=
  String.prefix sub s ||
  match s with
  | EmptyString => false
  | String _ s' => includes s' sub
  end.

(** [s.split(sep)] for a one-character separator. *)
Fixpoint split (sep : ascii) (s : string) : list string :=
  match s with
  | EmptyString => [""]
  | String c s' =>
      if Ascii.eqb c sep then "" :: split sep s'
      else match split sep s' with
           | [] => [String c ""]
           | w :: ws => String c w :: ws
           end
  end.

(** [parts.join(sep)] *)
Definition join (sep : string) (parts : list string) : string :=
  String.concat sep parts.

Fixpoint trimStart (s : string) : string :=
  match s with
  | EmptyString => EmptyString
  | String c s' => if is_space c then trimStart s' else s
  end.

Fixpoint trimEnd (s : string) : string :=
  match s with
  | EmptyString => EmptyString
  | String c s' =>
      match trimEnd s' with
      | EmptyString => if is_space c then EmptyString else String c EmptyString
      | t => String c t
      end
  end.

(** [s.trim()] *)
Definition trim (s : string) : string := trimEnd (trimStart s).

(** [s.charAt(0)] and [s.substr(1)] *)
Definition charAt0 (s : string) : string :=
  match s with
  | EmptyString => ""
  | String c _ => String c ""
  end.

Definition substr1 (s : string) : string :=
  match s with
  | EmptyString => ""
  | String _ s' => s'
  end.

End Js.

(** ** Regular expressions

    A backtracking matcher with the priorities of the JavaScript engine:
    alternatives are tried left to right, [Star] is greedy, an iteration of
    [Star] that consumes nothing is rejected, and a search tries the start
    positions from left to right.  Every pattern of the program has at most
    one capturing group, so a match carries one capture slot. *)

Module Regex.

Inductive regex : Type :=
| Eps                                  (* the empty pattern *)
| Class (p : ascii -> bool)            (* one character satisfying [p] *)
| Cat (r1 r2 : regex)                  (* r1 r2 *)
| Or (r1 r2 : regex)                   (* r1 | r2 *)
| Star (r : regex)                     (* r* *)
| Group (r : regex)                    (* ( r ) *)
| Bol.                                 (* ^ *)

Definition Plus (r : regex) : regex := Cat r (Star r).
Definition Opt (r : regex) : regex := Or r Eps.
Definition Chr (c : ascii) : regex := Class (Ascii.eqb c).
(** a literal character under the [i] flag *)
Definition ChrI (c : ascii) : regex :=
  Class (fun x => Ascii.eqb (Js.lower_char x) (Js.lower_char c)).
Definition NoneOf (cs : list ascii) : regex :=
  Class (fun x => negb (existsb (Ascii.eqb x) cs)).

Fixpoint Lit (s : string) : regex :=
  match s with
  | EmptyString => Eps
  | String c EmptyString => Chr c
  | String c s' => Cat (Chr c) (Lit s')
  end.

Fixpoint LitI (s : string) : regex :=
  match s with
  | EmptyString => Eps
  | String c EmptyString => ChrI c
  | String c s' => Cat (ChrI c) (LitI s')
  end.

Fixpoint Seq (rs : list regex) : regex :=
  match rs with
  | [] => Eps
  | [r] => r
  | r :: rs' => Cat r (Seq rs')
  end.

Fixpoint AnyOf (rs : list regex) : regex :=
  match rs with
  | [] => Class (fun _ => false)
  | [r] => r
  | r :: rs' => Or r (AnyOf rs')
  end.

(** The state of a match attempt: the position reached, the input that is
    left, and the capture. *)
Definition outcome : Type := (nat * option string)%type.
Definition cont : Type := nat -> string -> option string -> option outcome.

Fixpoint take (n : nat) (s : string) : string :=
  match n, s with
  | S n', String c s' => String c (take n' s')
  | _, _ => EmptyString
  end.

Fixpoint run (fuel : nat) : regex -> nat -> string -> option string -> cont -> option outcome :=
  fix go (r : regex) (pos : nat) (s : string) (cap : option string) (k : cont)
    {struct r} : option outcome :=
    match r with
    | Eps => k pos s cap
    | Class p =>
        match s with
        | String c s' => if p c then k (S pos) s' cap else None
        | EmptyString => None
        end
    | Cat r1 r2 => go r1 pos s cap (fun pos' s' cap' => go r2 pos' s' cap' k)
    | Or r1 r2 =>
        match go r1 pos s cap k with
        | Some o => Some o
        | None => go r2 pos s cap k
        end
    | Star r1 =>
        match fuel with
        | O => k pos s cap
        | S fuel' =>
            match go r1 pos s cap
                    (fun pos' s' cap' =>
                       if (pos' =? pos)%nat then None
                       else run fuel' (Star r1) pos' s' cap' k) with
            | Some o => Some o
            | None => k pos s cap
            end
        end
    | Group r1 =>
        go r1 pos s cap (fun pos' s' _ => k pos' s' (Some (take (pos' - pos) s)))
    | Bol => if (pos =? 0)%nat then k pos s cap else None
    end.

(** One attempt at position [pos], where [s] is the input from [pos] on. *)
Definition attempt (r : regex) (pos : nat) (s : string) : option outcome :=
  run (S (String.length s)) r pos s None (fun pos' _ cap => Some (pos', cap)).

(** A match: the matched text and the text of the capturing group. *)
Record result : Type := { whole : string; group1 : option string }.

Fixpoint search_from (r : regex) (pos : nat) (s : string) : option result :=
  match attempt r pos s with
  | Some (pos', cap) => Some {| whole := take (pos' - pos) s; group1 := cap |}
  | None =>
      match s with
      | EmptyString => None
      | String _ s' => search_from r (S pos) s'
      end
  end.

(** [s.match(r)] for a pattern without the [g] flag; with the [g] flag the
    first element of the returned array is [whole] of the same match. *)
Definition exec (r : regex) (s : string) : option result := search_from r 0 s.

(** [r.test(s)] *)
Definition test (r : regex) (s : string) : bool :=
  match exec r s with Some _ => true | None => false end.

(** [s.replace(r, f)] for a pattern with the [g] flag whose matches are
    never empty. *)
Fixpoint replace_from (fuel : nat) (r : regex) (f : string -> string)
         (pos : nat) (s : string) : string :=
  match fuel with
  | O => s
  | S fuel' =>
      match s with
      | EmptyString => EmptyString
      | String c s' =>
          match attempt r pos s with
          | Some (pos', _) =>
              let n := (pos' - pos)%nat in
              if (n =? 0)%nat then String c (replace_from fuel' r f (S pos) s')
              else f (take n s) ++ replace_from fuel' r f pos' (String.substring n (String.length s - n) s)
          | None => String c (replace_from fuel' r f (S pos) s')
          end
      end
  end.

Definition replace_all (r : regex) (f : string -> string) (s : string) : string :=
  replace_from (S (String.length s)) r f 0 s.

End Regex.

Import Regex.

(** ** JavaScript numbers and completions *)

Module Math.

Definition min (a b : Q) : Q := if Qle_bool a b then a else b.
Definition max (a b : Q) : Q := if Qle_bool a b then b else a.

End Math.

(** [a >= b] and [a > b] on numbers *)
Definition num_ge (a b : Q) : bool := Qle_bool b a.
Definition num_gt (a b : Q) : bool := negb (Qle_bool a b).

(** An error object: its [name] and its [message]. *)
Record JsError : Type := { err_name : string; err_message : string }.

Definition new_Error (msg : string) : JsError :=
  {| err_name := "Error"; err_message := msg |}.
Definition new_TypeError (msg : string) : JsError :=
  {| err_name := "TypeError"; err_message := msg |}.

(** The text an error object has inside a template literal. *)
Definition error_toString (e : JsError) : string :=
  err_name e ++ ": " ++ err_message e.

Inductive Completion (A : Type) : Type :=
| Returned (v : A)
| Thrown (e : JsError).
Arguments Returned {A} v.
Arguments Thrown {A} e.

Definition bind {A B : Type} (c : Completion A) (f : A -> Completion B) : Completion B :=
  match c with
  | Returned v => f v
  | Thrown e => Thrown e
  end.

Notation "x <- c ;; k" := (bind c (fun x => k))
  (at level 61, c at next level, right associativity).

(** ** Data model *)

Record GoogleSearchItem : Type :=
  { title : string; link : string; snippet : string }.

Record GoogleSearchResponse : Type :=
  { items : option (list GoogleSearchItem) }.

Record SerpApiSearchItem : Type :=
  { serp_title : string; serp_link : string; serp_snippet : string }.

Record SerpApiResponse : Type :=
  { organic_results : option (list SerpApiSearchItem) }.

Record LinkedInProfile : Type :=
  { name : string;
    profile_title : string;
    company : string;
    linkedin_url : string;
    profile_snippet : string;
    confidence_score : Q;
    location : option string;
    sources : list string }.

(** ** ProfileExtractor: what both versions share *)

Module ProfileExtractor.

Definition word : regex := Class Js.is_word.
Definition space : regex := Class Js.is_space.
Definition upper : regex := Class Js.is_upper.
Definition lower : regex := Class Js.is_lower.
Definition newline : ascii := "010"%char.

(** [/https?:\/\/(?:www\.)?linkedin\.com\/in\/[\w\-]+/] *)
Definition linkedinUrlPattern : regex :=
  Seq [ Lit "http"; Opt (Chr "s"); Lit "://"; Opt (Lit "www.");
        Lit "linkedin.com/in/";
        Plus (Class (fun c => Js.is_word c || Ascii.eqb c "-")) ].

Definition executiveTitles : list string :=
  [ "cto";
    "chief technology officer";
    "vp technology";
    "head of technology";
    "technology director";
    "vp engineering";
    "chief technical officer";
    "head of engineering";
    "tech lead";
    "engineering director";
    "technology vp" ].

(** [/^([^-|:]+)/] *)
Definition namePattern : regex :=
  Seq [ Bol; Group (Plus (NoneOf ["-"; "|"; ":"]%char)) ].

(** [nameMatch ? nameMatch[1].trim() : ""] *)
Definition extractName (title : string) : string :=
  match Regex.exec namePattern title with
  | Some m => match group1 m with Some g => Js.trim g | None => "" end
  | None => ""
  end.

(** [/at ([^|,\-\n]+)/], [/@ ([^|,\-\n]+)/] and [/(\w+(?:\s+\w+){0,}) \-/]
    (the source writes the quantifier [{0,}] of the third one as a star) *)
Definition companyPatterns : list regex :=
  [ Seq [ Lit "at "; Group (Plus (NoneOf ["|"; ","; "-"; newline]%char)) ];
    Seq [ Lit "@ "; Group (Plus (NoneOf ["|"; ","; "-"; newline]%char)) ];
    Seq [ Group (Cat (Plus word) (Star (Cat (Plus space) (Plus word)))); Lit " -" ] ].

(** [/\w\S*/g] with the capitalising callback *)
Definition toTitleCase (str : string) : string :=
  Regex.replace_all (Cat word (Star (Class (fun c => negb (Js.is_space c)))))
    (fun txt => Js.toUpperCase (Js.charAt0 txt) ++ Js.toLowerCase (Js.substr1 txt))
    str.

(** The first executive title the text contains, or [""]. *)
Fixpoint firstTitle (titles : list string) (text : string) : string :=
  match titles with
  | [] => ""
  | execTitle :: rest =>
      if Js.includes text execTitle then execTitle else firstTitle rest text
  end.

(** The trimmed capture of the first company pattern that matches. *)
Fixpoint firstCompany (patterns : list regex) (text : string) : option string :=
  match patterns with
  | [] => None
  | pattern :: rest =>
      match Regex.exec pattern text with
      | Some m => Some (Js.trim (match group1 m with Some g => g | None => "" end))
      | None => firstCompany rest text
      end
  end.

End ProfileExtractor.

Import ProfileExtractor.

(** ** ProfileExtractor of the monolithic [index.ts]: the primary strategy *)

Module Primary.

Definition extractTitleAndCompany (title snippet : string) : string * string :=
  let text := Js.toLowerCase (title ++ " " ++ snippet) in
  let jobTitle := firstTitle executiveTitles text in
  let company :=
    match firstCompany companyPatterns text with
    | Some c => c
    | None => ""
    end in
  (toTitleCase jobTitle, toTitleCase company).

(** [/(?:based|located|from|in)\s+(?:in\s+)?([A-Z][a-z]+(?:,\s*[A-Z][a-z]+){0,})/],
    [/([A-Z][a-z]+,\s*[A-Z]{2,3})/] and [/([A-Z][a-z]+\s+Area)/] *)
Definition locationPatterns : list regex :=
  [ Seq [ AnyOf [Lit "based"; Lit "located"; Lit "from"; Lit "in"];
          Plus space;
          Opt (Cat (Lit "in") (Plus space));
          Group (Seq [ upper; Plus lower;
                       Star (Seq [Chr ","; Star space; upper; Plus lower]) ]) ];
    Group (Seq [ upper; Plus lower; Chr ","; Star space; upper; upper; Opt upper ]);
    Group (Seq [ upper; Plus lower; Plus space; Lit "Area" ]) ].

(** The first pattern that matches gives [match[1].trim()]. *)
Fixpoint firstLocation (patterns : list regex) (snippet : string) : option string :=
  match patterns with
  | [] => None
  | pattern :: rest =>
      match Regex.exec pattern snippet with
      | Some m => Some (Js.trim (match group1 m with Some g => g | None => "" end))
      | None => firstLocation rest snippet
      end
  end.

Definition extractLocation (snippet : string) : option string :=
  firstLocation locationPatterns snippet.

Definition calculateConfidence (jobTitle company searchContext snippet : string) : Q :=
  let score := 0 in
  (* Title relevance *)
  let score :=
    if existsb (fun execTitle => Js.includes (Js.toLowerCase jobTitle) execTitle)
               executiveTitles
    then score + 40 else score in
  (* Context match *)
  let score :=
    if Js.truthy searchContext &&
       Js.includes (Js.toLowerCase company) (Js.toLowerCase searchContext)
    then score + 30
    else if Js.truthy searchContext &&
            Js.includes (Js.toLowerCase snippet) (Js.toLowerCase searchContext)
    then score + 20 else score in
  (* Profile completeness *)
  let score := if Js.truthy jobTitle && Js.truthy company then score + 20 else score in
  let score := if (100 <? String.length snippet)%nat then score + 10 else score in
  Math.min score 100.

Definition validateProfile (profile : LinkedInProfile) : bool :=
  num_ge (confidence_score profile) 20.0 &&
  Js.truthy (name profile) &&
  Js.truthy (linkedin_url profile) &&
  (2 <=? String.length (name profile))%nat.

Definition parseSearchItem (item : GoogleSearchItem) (searchContext : string)
  : option LinkedInProfile :=
  let url := Js.or_empty (link item) in
  if negb (Regex.test linkedinUrlPattern url) then None
  else
    let title := Js.or_empty (title item) in
    let snippet := Js.or_empty (snippet item) in
    let name := extractName title in
    let '(jobTitle, company) := extractTitleAndCompany title snippet in
    let location := extractLocation snippet in
    let confidence := calculateConfidence jobTitle company searchContext snippet in
    Some {| name := name;
            profile_title := jobTitle;
            company := company;
            linkedin_url := url;
            profile_snippet := snippet;
            confidence_score := confidence;
            location := location;
            sources := ["Google Custom Search"] |}.

(** One iteration of the loop of the two extraction entry points. *)
Definition push_if_valid (profiles : list LinkedInProfile)
           (profile : option LinkedInProfile) : list LinkedInProfile :=
  match profile with
  | Some p => if validateProfile p then (profiles ++ [p])%list else profiles
  | None => profiles
  end.

Definition extractProfiles (searchResponse : GoogleSearchResponse)
           (searchContext : string) : list LinkedInProfile :=
  match items searchResponse with
  | None => []
  | Some its =>
      fold_left (fun profiles item =>
                   push_if_valid profiles (parseSearchItem item searchContext))
                its []
  end.

Definition extractProfilesFromSerpApi (searchResponse : SerpApiResponse)
           (searchContext : string) : list LinkedInProfile :=
  match organic_results searchResponse with
  | None => []
  | Some results =>
      fold_left (fun profiles item =>
                   let googleItem := {| title := serp_title item;
                                        link := serp_link item;
                                        snippet := serp_snippet item |} in
                   push_if_valid profiles (parseSearchItem googleItem searchContext))
                results []
  end.

End Primary.

(** ** ProfileExtractor of [search-services.ts]: the alternate strategy *)

Module Alternate.

Definition extractTitleAndCompany (title snippet : string) : string * string :=
  let text := Js.toLowerCase (title ++ " " ++ snippet) in
  let jobTitle := firstTitle executiveTitles text in
  let company :=
    match firstCompany companyPatterns text with
    | Some c => toTitleCase c
    | None => ""
    end in
  (toTitleCase jobTitle, company).

Definition cities : list string :=
  [ "San Francisco"; "New York"; "Los Angeles"; "Seattle"; "Boston"; "Austin";
    "Chicago"; "London"; "Berlin"; "Paris"; "Tokyo"; "Singapore"; "Toronto";
    "Vancouver" ].

(** [/([A-Z][a-z]+,\s*[A-Z]{2,})/g], [/([A-Z][a-z]+\s+[A-Z][a-z]+,\s*[A-Z]{2,})/g]
    and the alternation of the city names under [/gi] *)
Definition locationPatterns : list regex :=
  [ Group (Seq [ upper; Plus lower; Chr ","; Star space; upper; upper; Star upper ]);
    Group (Seq [ upper; Plus lower; Plus space; upper; Plus lower; Chr ",";
                 Star space; upper; upper; Star upper ]);
    Group (AnyOf (map LitI cities)) ].

(** The first pattern that matches gives [matches[0]]. *)
Fixpoint firstLocation (patterns : list regex) (snippet : string) : option string :=
  match patterns with
  | [] => None
  | pattern :: rest =>
      match Regex.exec pattern snippet with
      | Some m => Some (whole m)
      | None => firstLocation rest snippet
      end
  end.

Definition extractLocation (snippet : string) : option string :=
  firstLocation locationPatterns snippet.

Definition falsePositives : list string :=
  [ "student"; "intern"; "former"; "ex-"; "previous" ].

Definition calculateConfidence (jobTitle company searchContext snippet : string) : Q :=
  let score := 0 in
  (* Base score for having a job title *)
  let score := if Js.truthy jobTitle then score + 30 else score in
  (* Higher score for exact CTO matches *)
  let score :=
    if Js.includes (Js.toLowerCase jobTitle) "cto" ||
       Js.includes (Js.toLowerCase jobTitle) "chief technology officer"
    then score + 40 else score in
  (* Score for having company information *)
  let score := if Js.truthy company then score + 20 else score in
  (* Score for context relevance *)
  let score :=
    if Js.truthy searchContext then
      let contextWords := Js.split " " (Js.toLowerCase searchContext) in
      let snippetLower := Js.toLowerCase snippet in
      fold_left (fun score word =>
                   if (3 <? String.length word)%nat && Js.includes snippetLower word
                   then score + 2 else score)
                contextWords score
    else score in
  (* Penalty for common false positives *)
  let score :=
    fold_left (fun score fp =>
                 if Js.includes (Js.toLowerCase snippet) fp then score - 20 else score)
              falsePositives score in
  Math.max 0 (Math.min 100 score).

Definition validateProfile (profile : LinkedInProfile) : bool :=
  (0 <? String.length (name profile))%nat &&
  (0 <? String.length (linkedin_url profile))%nat &&
  num_gt (confidence_score profile) 10.

Definition parseSearchItem (item : GoogleSearchItem) (searchContext : string)
  : option LinkedInProfile :=
  let url := Js.or_empty (link item) in
  if negb (Regex.test linkedinUrlPattern url) then None
  else
    let title := Js.or_empty (title item) in
    let snippet := Js.or_empty (snippet item) in
    let name := extractName title in
    let '(jobTitle, company) := extractTitleAndCompany title snippet in
    let location := extractLocation snippet in
    let confidence := calculateConfidence jobTitle company searchContext snippet in
    Some {| name := name;
            profile_title := jobTitle;
            company := company;
            linkedin_url := url;
            profile_snippet := snippet;
            confidence_score := confidence;
            location := location;
            sources := ["Google Custom Search"] |}.

Definition push_if_valid (profiles : list LinkedInProfile)
           (profile : option LinkedInProfile) : list LinkedInProfile :=
  match profile with
  | Some p => if validateProfile p then (profiles ++ [p])%list else profiles
  | None => profiles
  end.

Definition extractProfiles (searchResponse : GoogleSearchResponse)
           (searchContext : string) : list LinkedInProfile :=
  match items searchResponse with
  | None => []
  | Some its =>
      fold_left (fun profiles item =>
                   push_if_valid profiles (parseSearchItem item searchContext))
                its []
  end.

Definition extractProfilesFromSerpApi (searchResponse : SerpApiResponse)
           (searchContext : string) : list LinkedInProfile :=
  match organic_results searchResponse with
  | None => []
  | Some results =>
      fold_left (fun profiles item =>
                   let googleItem := {| title := serp_title item;
                                        link := serp_link item;
                                        snippet := serp_snippet item |} in
                   push_if_valid profiles (parseSearchItem googleItem searchContext))
                results []
  end.

End Alternate.

(** ** Object literals used as lookup tables

    [table[key]] on an object literal first looks for an own property and then
    follows the prototype chain, so the property names of [Object.prototype]
    are found in every table.  What is found there is a function (or, for
    [__proto__], the prototype object): a truthy value without a [map]
    method. *)

Module JsObject.

Definition prototype_keys : list string :=
  [ "constructor"; "__defineGetter__"; "__defineSetter__"; "hasOwnProperty";
    "__lookupGetter__"; "__lookupSetter__"; "isPrototypeOf";
    "propertyIsEnumerable"; "toString"; "valueOf"; "__proto__";
    "toLocaleString" ].

Inductive value (A : Type) : Type :=
| Own (v : A)          (* an own property of the literal *)
| Inherited            (* a property of Object.prototype *)
| Undefined.
Arguments Own {A} v.
Arguments Inherited {A}.
Arguments Undefined {A}.

Fixpoint own {A : Type} (table : list (string * A)) (key : string) : option A :=
  match table with
  | [] => None
  | (k, v) :: rest => if String.eqb k key then Some v else own rest key
  end.

Definition get {A : Type} (table : list (string * A)) (key : string) : value A :=
  match own table key with
  | Some v => Own v
  | None => if existsb (String.eqb key) prototype_keys then Inherited else Undefined
  end.

End JsObject.

(** ** Query construction

    The statements that build the query are the same in
    [searchCtoProfiles] and [searchCtoProfilesLimited] of
    [LinkedInProfileSearchService] and in [searchCtoProfiles] of
    [SerpApiSearchService]. *)

Module QueryBuilder.

Definition dquote : string := String "034"%char "".

(** The template literal that wraps [term] in double quotes *)
Definition quoted (term : string) : string := dquote ++ term ++ dquote.

Definition executiveTitles : list string :=
  [ "CTO";
    "Chief Technology Officer";
    "VP Technology";
    "Head of Technology";
    "Technology Director";
    "VP Engineering";
    "Chief Technical Officer";
    "Head of Engineering";
    "Tech Lead";
    "Engineering Director";
    "Technology VP";
    "Chief Technology";
    "VP of Technology";
    "VP of Engineering";
    "Head of Tech" ].

Definition sectorKeywords : list (string * list string) :=
  [ ("software", ["software"; "SaaS"; "tech"; "technology"]);
    ("fintech", ["fintech"; "financial technology"; "finance"; "banking"]);
    ("healthcare", ["healthcare"; "medical"; "health tech"; "biotech"]);
    ("e-commerce", ["e-commerce"; "ecommerce"; "retail"; "online"]);
    ("AI/ML", ["AI"; "ML"; "artificial intelligence"; "machine learning"]);
    ("cybersecurity", ["cybersecurity"; "security"; "infosec"]);
    ("blockchain", ["blockchain"; "crypto"; "web3"]);
    ("IoT", ["IoT"; "Internet of Things"; "connected devices"]);
    ("gaming", ["gaming"; "game"; "entertainment"]) ].

Definition typeKeywords : list (string * list string) :=
  [ ("startup", ["startup"; "early stage"; "seed"]);
    ("SME", ["SME"; "medium business"; "scale-up"]);
    ("enterprise", ["enterprise"; "Fortune"; "large company"]);
    ("unicorn", ["unicorn"; "billion"; "$1B"]);
    ("public", ["public company"; "NYSE"; "NASDAQ"; "publicly traded"]) ].

Definition excludes : list string :=
  [ "Intern"; "Student"; "Former"; "Ex-"; "Previous"; "Consultant" ].

(** The error of calling [map] on a value that has none (the wording of the
    message is the engine's). *)
Definition not_a_function : JsError := new_TypeError "terms.map is not a function".

(** [table[value.toLowerCase()] || [value]], as the receiver of [.map]:
    an inherited property is truthy, so it is kept, and it has no [map]. *)
Definition keywordTerms (table : list (string * list string)) (value : string)
  : Completion (list string) :=
  match JsObject.get table (Js.toLowerCase value) with
  | JsObject.Own terms => Returned terms
  | JsObject.Inherited => Thrown not_a_function
  | JsObject.Undefined => Returned [value]
  end.

(** "(" + terms.map(quote).join(" OR ") + ")" *)
Definition disjunction (terms : list string) : string :=
  "(" ++ Js.join " OR " (map quoted terms) ++ ")".

(** The clause a present sector or type pushes. *)
Definition keywordClause (table : list (string * list string)) (value : string)
  : Completion string :=
  terms <- keywordTerms table value ;;
  Returned (disjunction terms).

Definition pushKeywordClause (table : list (string * list string))
           (filter : option string) (queryParts : list string)
  : Completion (list string) :=
  match filter with
  | Some value =>
      if Js.truthy value then
        clause <- keywordClause table value ;;
        Returned (queryParts ++ [clause])%list
      else Returned queryParts
  | None => Returned queryParts
  end.

Definition buildQuery (region companySector companyType : option string)
           (additionalTitles : option (list string)) : Completion string :=
  let executiveTitles :=
    match additionalTitles with
    | Some more => (executiveTitles ++ more)%list
    | None => executiveTitles
    end in
  let titleQuery := Js.join " OR " (map quoted executiveTitles) in
  let queryParts := ["site:linkedin.com/in/"; "(" ++ titleQuery ++ ")"] in
  let queryParts :=
    match region with
    | Some r => if Js.truthy r then (queryParts ++ [quoted r])%list else queryParts
    | None => queryParts
    end in
  queryParts <- pushKeywordClause sectorKeywords companySector queryParts ;;
  queryParts <- pushKeywordClause typeKeywords companyType queryParts ;;
  let queryParts :=
    fold_left (fun parts exclude => (parts ++ [("-" ++ quoted exclude)%string])%list)
              excludes queryParts in
  Returned (Js.join " " queryParts).

End QueryBuilder.

(** ** The search backends

    One page request either fails in transport ([fetch] rejects), comes back
    with a status that is not a success ([response.ok] is false), carries a
    body that is not JSON ([response.json()] rejects), or carries a parsed
    body.  A backend answers the [n]-th request of a search. *)

Inductive HttpResult (A : Type) : Type :=
| TransportError (e : JsError)
| HttpError (status : Z) (statusText : string)
| BadJson (e : JsError)
| Body (data : A).
Arguments TransportError {A} e.
Arguments HttpError {A} status statusText.
Arguments BadJson {A} e.
Arguments Body {A} data.

Record Request : Type :=
  { req_q : string; req_num : Z; req_start : option Z }.

Definition Backend (A : Type) : Type := nat -> Request -> HttpResult A.

Definition is_failure {A : Type} (r : HttpResult A) : bool :=
  match r with
  | Body _ => false
  | _ => true
  end.

(** Control flow of one loop iteration. *)
Inductive Flow (S : Type) : Type :=
| Next (st : S)
| Break (st : S).
Arguments Next {S} st.
Arguments Break {S} st.

(** *** LinkedInProfileSearchService (Google Custom Search) *)

Module LinkedInProfileSearchService.

Section Service.

Variable backend : Backend GoogleSearchResponse.

(** The result comes with the number of requests made so far. *)
Definition executeSearch (query : string) (numResults : Z) (calls : nat)
  : Completion GoogleSearchResponse * nat :=
  let request :=
    {| req_q := query; req_num := Z.min numResults 10; req_start := None |} in
  let failed (what : string) : Completion GoogleSearchResponse :=
    Thrown (new_Error ("Search API request failed: " ++ what)) in
  match backend calls request with
  | TransportError e => (failed (error_toString e), S calls)
  | HttpError _ statusText =>
      (failed (error_toString (new_Error ("Search API request failed: " ++ statusText))),
       S calls)
  | BadJson e => (failed (error_toString e), S calls)
  | Body data => (Returned data, S calls)
  end.

Record PageState : Type :=
  { allItems : list GoogleSearchItem;
    startIndex : Z;
    hasMoreResults : bool;
    calls : nat }.

Definition maxResults : Z := 10.

(** The body of [while (hasMoreResults)]. *)
Definition page (query : string) (st : PageState) : Flow PageState :=
  let request :=
    {| req_q := query; req_num := maxResults; req_start := Some (startIndex st) |} in
  let fetched := S (calls st) in
  match backend (calls st) request with
  | HttpError _ _ =>
      Break {| allItems := allItems st; startIndex := startIndex st;
               hasMoreResults := hasMoreResults st; calls := fetched |}
  | TransportError _ | BadJson _ =>
      Next {| allItems := allItems st; startIndex := startIndex st;
              hasMoreResults := false; calls := fetched |}
  | Body data =>
      match items data with
      | Some ((_ :: _) as its) =>
          let all := (allItems st ++ its)%list in
          if (Z.of_nat (List.length its) <? maxResults)%Z then
            Next {| allItems := all; startIndex := startIndex st;
                    hasMoreResults := false; calls := fetched |}
          else
            let start := (startIndex st + maxResults)%Z in
            Next {| allItems := all; startIndex := start;
                    hasMoreResults := negb (100 <? start)%Z; calls := fetched |}
      | _ =>
          Next {| allItems := allItems st; startIndex := startIndex st;
                  hasMoreResults := false; calls := fetched |}
      end
  end.

Fixpoint while (fuel : nat) (query : string) (st : PageState) : option PageState :=
  if hasMoreResults st then
    match fuel with
    | O => None
    | S fuel' =>
        match page query st with
        | Next st' => while fuel' query st'
        | Break st' => Some st'
        end
    end
  else Some st.

(** [None] only when [fuel] iterations were not enough. *)
Definition executeSearchAllPages (fuel : nat) (query : string)
  : option (Completion GoogleSearchResponse * nat) :=
  match while fuel query {| allItems := []; startIndex := 1;
                            hasMoreResults := true; calls := 0 |} with
  | Some st => Some (Returned {| items := Some (allItems st) |}, calls st)
  | None => None
  end.

(** The parameter [getAllPages] is not read by this method. *)
Definition searchCtoProfiles (fuel : nat)
           (region companySector companyType : option string)
           (additionalTitles : option (list string)) (getAllPages : bool)
  : option (Completion GoogleSearchResponse * nat) :=
  match QueryBuilder.buildQuery region companySector companyType additionalTitles with
  | Returned query => executeSearchAllPages fuel query
  | Thrown e => Some (Thrown e, 0%nat)
  end.

Definition searchCtoProfilesLimited
           (region companySector companyType : option string)
           (additionalTitles : option (list string)) (numResults : Z)
  : Completion GoogleSearchResponse * nat :=
  match QueryBuilder.buildQuery region companySector companyType additionalTitles with
  | Returned query => executeSearch query numResults 0
  | Thrown e => (Thrown e, 0%nat)
  end.

End Service.

End LinkedInProfileSearchService.

(** *** SerpApiSearchService *)

Module SerpApiSearchService.

Section Service.

Variable backend : Backend SerpApiResponse.

Definition executeSearch (query : string) (numResults : Z) (calls : nat)
  : Completion SerpApiResponse * nat :=
  let request := {| req_q := query; req_num := numResults; req_start := None |} in
  match backend calls request with
  | Body data => (Returned data, S calls)
  | _ => (Returned {| organic_results := Some [] |}, S calls)
  end.

Record PageState : Type :=
  { allResults : list SerpApiSearchItem; calls : nat }.

(** The body of [for (let page = 0; page < 10; page++)]. *)
Definition fetchPage (query : string) (page : Z) (st : PageState) : Flow PageState :=
  let start := (page * 10)%Z in
  let request := {| req_q := query; req_num := 10; req_start := Some start |} in
  let fetched := S (calls st) in
  match backend (calls st) request with
  | Body data =>
      match organic_results data with
      | Some ((_ :: _) as results) =>
          Next {| allResults := (allResults st ++ results)%list; calls := fetched |}
      | _ => Break {| allResults := allResults st; calls := fetched |}
      end
  | _ => Break {| allResults := allResults st; calls := fetched |}
  end.

Fixpoint for_pages (fuel : nat) (query : string) (page : Z) (st : PageState)
  : option PageState :=
  if (page <? 10)%Z then
    match fuel with
    | O => None
    | S fuel' =>
        match fetchPage query page st with
        | Next st' => for_pages fuel' query (page + 1)%Z st'
        | Break st' => Some st'
        end
    end
  else Some st.

Definition executeSearchAllPages (fuel : nat) (query : string)
  : option (Completion SerpApiResponse * nat) :=
  match for_pages fuel query 0 {| allResults := []; calls := 0 |} with
  | Some st => Some (Returned {| organic_results := Some (allResults st) |}, calls st)
  | None => None
  end.

Definition searchCtoProfiles (fuel : nat)
           (region companySector companyType : option string)
           (additionalTitles : option (list string)) (getAllPages : bool)
  : option (Completion SerpApiResponse * nat) :=
  match QueryBuilder.buildQuery region companySector companyType additionalTitles with
  | Returned query =>
      if getAllPages then executeSearchAllPages fuel query
      else Some (executeSearch query 10 0)
  | Thrown e => Some (Thrown e, 0%nat)
  end.

End Service.

End SerpApiSearchService.

(** ** Raw result items

    A raw result is a (title, link, snippet) triple; each backend wraps it
    in its own item type. *)

Definition RawResultItem : Type := (string * string * string)%type.

Definition google_item (raw : RawResultItem) : GoogleSearchItem :=
  let '(t, l, s) := raw in {| title := t; link := l; snippet := s |}.

Definition serp_item (raw : RawResultItem) : SerpApiSearchItem :=
  let '(t, l, s) := raw in {| serp_title := t; serp_link := l; serp_snippet := s |}.

(** * Vocabulary of the statements *)

Module Google := LinkedInProfileSearchService.
Module Serp := SerpApiSearchService.

(** ** Profiles *)

(** A profile with the given name, URL and score. *)
Definition candidate (n url : string) (score : Q) : LinkedInProfile :=
  {| name := n;
     profile_title := "Cto";
     company := "Acme";
     linkedin_url := url;
     profile_snippet := "";
     confidence_score := score;
     location := None;
     sources := ["Google Custom Search"] |}.

(** The URL of the profile matches the profile pattern. *)
Definition matches_profile_pattern (profile : LinkedInProfile) : Prop :=
  Regex.test linkedinUrlPattern (linkedin_url profile) = true.

Definition google_sourced (profile : LinkedInProfile) : Prop :=
  sources profile = ["Google Custom Search"].

(** ** Clauses of the query *)

(** The clause a sector or type filter contributes: none when the filter is
    absent or empty. *)
Definition optionalClause (table : list (string * list string)) (filter : option string)
  : Completion (list string) :=
  match filter with
  | Some value =>
      if Js.truthy value then clause <- QueryBuilder.keywordClause table value ;; Returned [clause]
      else Returned []
  | None => Returned []
  end.

Definition regionClause (region : option string) : list string :=
  match region with
  | Some r => if Js.truthy r then [QueryBuilder.quoted r] else []
  | None => []
  end.

Definition titleClause (additionalTitles : option (list string)) : string :=
  QueryBuilder.disjunction (QueryBuilder.executiveTitles ++
               match additionalTitles with Some more => more | None => [] end)%list.

Definition exclusionClauses : list string :=
  map (fun exclude => "-" ++ QueryBuilder.quoted exclude) QueryBuilder.excludes.

(** ** Requests and answers of the exhaustive fetchers *)

(** The [i]-th request of the Google loop (counting from 0) and the items
    its answer contributes. *)
Definition google_request (query : string) (i : nat) : Request :=
  {| req_q := query; req_num := 10; req_start := Some (1 + 10 * Z.of_nat i)%Z |}.

Definition google_page (r : HttpResult GoogleSearchResponse) : list GoogleSearchItem :=
  match r with
  | Body {| items := Some its |} => its
  | _ => []
  end.

Definition serp_request (query : string) (i : nat) : Request :=
  {| req_q := query; req_num := 10; req_start := Some (Z.of_nat i * 10)%Z |}.

Definition serp_page (r : HttpResult SerpApiResponse) : list SerpApiSearchItem :=
  match r with
  | Body {| organic_results := Some results |} => results
  | _ => []
  end.

(** The items of the answers to the requests [from .. from + count - 1]. *)
Definition google_answers (backend : Backend GoogleSearchResponse) (query : string)
           (from count : nat) : list GoogleSearchItem :=
  flat_map (fun i => google_page (backend i (google_request query i))) (seq from count).

Definition serp_answers (backend : Backend SerpApiResponse) (query : string)
           (from count : nat) : list SerpApiSearchItem :=
  flat_map (fun i => serp_page (backend i (serp_request query i))) (seq from count).

(** The state of each loop before its [i]-th request. *)
Definition google_state (acc : list GoogleSearchItem) (i : nat) : Google.PageState :=
  {| Google.allItems := acc;
     Google.startIndex := (1 + 10 * Z.of_nat i)%Z;
     Google.hasMoreResults := true;
     Google.calls := i |}.

Definition serp_state (acc : list SerpApiSearchItem) (i : nat) : Serp.PageState :=
  {| Serp.allResults := acc; Serp.calls := i |}.

(** No answer carries more than the 10 items asked for. *)
Definition google_capped (backend : Backend GoogleSearchResponse) : Prop :=
  forall (i : nat) (req : Request), (Datatypes.length (google_page (backend i req)) <= 10)%nat.

Definition serp_capped (backend : Backend SerpApiResponse) : Prop :=
  forall (i : nat) (req : Request), (Datatypes.length (serp_page (backend i req)) <= 10)%nat.

(** The one request of the bounded fetchers. *)
Definition google_bounded_request (query : string) (numResults : Z) : Request :=
  {| req_q := query; req_num := Z.min numResults 10; req_start := None |}.

Definition serp_bounded_request (query : string) (numResults : Z) : Request :=
  {| req_q := query; req_num := numResults; req_start := None |}.

(** ** Mock backends *)

Definition mock_raw (page k : nat) : RawResultItem :=
  ("Person " ++ String (ascii_of_nat (48 + page)) (String (ascii_of_nat (97 + k)) "")
     ++ " - CTO at Acme",
   "https://www.linkedin.com/in/person-"
     ++ String (ascii_of_nat (48 + page)) (String (ascii_of_nat (97 + k)) ""),
   "CTO at Acme").

Definition mock_page (page size : nat) : list RawResultItem :=
  map (mock_raw page) (seq 0 size).

Definition google_mock_page (n size : nat) : list GoogleSearchItem :=
  map google_item (mock_page n size).

Definition serp_mock_page (n size : nat) : list SerpApiSearchItem :=
  map serp_item (mock_page n size).

(** The [n]-th answer is a page of the [n]-th size; afterwards the backend
    answers as [rest] says. *)
Definition google_mock (sizes : list nat) (rest : HttpResult GoogleSearchResponse)
  : Backend GoogleSearchResponse :=
  fun n _ =>
    match nth_error sizes n with
    | Some size => Body {| items := Some (google_mock_page n size) |}
    | None => rest
    end.

Definition serp_mock (sizes : list nat) (rest : HttpResult SerpApiResponse)
  : Backend SerpApiResponse :=
  fun n _ =>
    match nth_error sizes n with
    | Some size => Body {| organic_results := Some (serp_mock_page n size) |}
    | None => rest
    end.

Definition no_more_items : HttpResult GoogleSearchResponse := Body {| items := None |}.

Definition no_more_results : HttpResult SerpApiResponse :=
  Body {| organic_results := Some [] |}.

Definition service_unavailable {A : Type} : HttpResult A :=
  HttpError 503 "Service Unavailable".

Definition connection_reset {A : Type} : HttpResult A :=
  TransportError (new_TypeError "fetch failed").

(** A backend that gives the same answer to every request. *)
Definition always {A : Type} (r : HttpResult A) : Backend A := fun _ _ => r.

Definition four_pages_google : Backend GoogleSearchResponse :=
  google_mock [10; 10; 10; 7]%nat no_more_items.

Definition four_pages_serp : Backend SerpApiResponse :=
  serp_mock [10; 10; 10; 7]%nat no_more_results.

Definition full_pages_google : Backend GoogleSearchResponse :=
  fun n _ => Body {| items := Some (google_mock_page n 10) |}.

Definition full_pages_serp : Backend SerpApiResponse :=
  fun n _ => Body {| organic_results := Some (serp_mock_page n 10) |}.

Definition two_pages_then_503 : Backend GoogleSearchResponse :=
  google_mock [10; 10]%nat service_unavailable.

Definition two_pages_then_reset : Backend SerpApiResponse :=
  serp_mock [10; 4]%nat connection_reset.

(** The item of the end-to-end scenario. *)
Definition jane : GoogleSearchItem :=
  {| title := "Jane Doe - CTO at Acme";
     link := "https://linkedin.com/in/janedoe";
     snippet := "Jane Doe is the CTO at Acme Software, San Francisco area, over 100 characters of additional padding text here to cross the completeness threshold for scoring purposes now." |}.

(** What a run reports: the number of requests and the number of items. *)
Definition google_summary (r : option (Completion GoogleSearchResponse * nat))
  : option (nat * option nat) :=
  match r with
  | Some (Returned {| items := Some its |}, n) => Some (n, Some (Datatypes.length its))
  | Some (_, n) => Some (n, None)
  | None => None
  end.

Definition serp_summary (r : option (Completion SerpApiResponse * nat))
  : option (nat * option nat) :=
  match r with
  | Some (Returned {| organic_results := Some its |}, n) =>
      Some (n, Some (Datatypes.length its))
  | Some (_, n) => Some (n, None)
  | None => None
  end.

(** * What a pattern matches

    The texts a pattern matches, independently of the order in which the
    matcher tries them: [matches r pos text cap cap'] says that [r] matches
    [text] at position [pos], turning the capture [cap] into [cap']. *)

Inductive matches : regex -> nat -> string -> option string -> option string -> Prop :=
| matches_eps pos cap : matches Eps pos "" cap cap
| matches_class (p : ascii -> bool) pos c cap :
    p c = true -> matches (Class p) pos (String c "") cap cap
| matches_cat r1 r2 pos s1 s2 cap cap1 cap2 :
    matches r1 pos s1 cap cap1 ->
    matches r2 (pos + String.length s1) s2 cap1 cap2 ->
    matches (Cat r1 r2) pos (s1 ++ s2) cap cap2
| matches_or_left r1 r2 pos s cap cap' :
    matches r1 pos s cap cap' -> matches (Or r1 r2) pos s cap cap'
| matches_or_right r1 r2 pos s cap cap' :
    matches r2 pos s cap cap' -> matches (Or r1 r2) pos s cap cap'
| matches_star_done r pos cap : matches (Star r) pos "" cap cap
| matches_star_more r pos s1 s2 cap cap1 cap2 :
    s1 <> "" ->
    matches r pos s1 cap cap1 ->
    matches (Star r) (pos + String.length s1) s2 cap1 cap2 ->
    matches (Star r) pos (s1 ++ s2) cap cap2
| matches_group r pos s cap cap' :
    matches r pos s cap cap' -> matches (Group r) pos s cap (Some s)
| matches_bol cap : matches Bol 0 "" cap cap.

(** The longest prefix whose characters satisfy [p], and the rest. *)
Fixpoint takeWhile (p : ascii -> bool) (s : string) : string :=
  match s with
  | EmptyString => EmptyString
  | String c s' => if p c then String c (takeWhile p s') else EmptyString
  end.

Fixpoint dropWhile (p : ascii -> bool) (s : string) : string :=
  match s with
  | EmptyString => EmptyString
  | String c s' => if p c then dropWhile p s' else s
  end.

(** Every character of the string satisfies [p]. *)
Fixpoint all_chars (p : ascii -> bool) (s : string) : bool :=
  match s with
  | EmptyString => true
  | String c s' => p c && all_chars p s'
  end.

(** A character of a profile handle: [[\w\-]]. *)
Definition handle_char (c : ascii) : bool := Js.is_word c || Ascii.eqb c "-".

(** The text of a profile link with one handle character: [secure] for the
    [s] of the scheme, [www] for the host prefix. *)
Definition profile_link (secure www : bool) (c : ascii) : string :=
  "http" ++ (if secure then "s" else "") ++ "://" ++ (if www then "www." else "") ++
  "linkedin.com/in/" ++ String c "".

(** A character that may stand in a name: [[^-|:]]. *)
Definition name_char (c : ascii) : bool :=
  negb (existsb (Ascii.eqb c) ["-"; "|"; ":"]%char).

(** ** Title case, character by character

    A word starts at a word character that is not inside a word and runs up
    to the next white space; its first character is put in upper case and
    the others in lower case. *)
Definition non_space (c : ascii) : bool := negb (Js.is_space c).

Fixpoint titleCase (inWord : bool) (s : string) : string :=
  match s with
  | EmptyString => EmptyString
  | String c s' =>
      if inWord then
        if Js.is_space c then String c (titleCase false s')
        else String (Js.lower_char c) (titleCase true s')
      else
        if Js.is_word c then String (Js.upper_char c) (titleCase true s')
        else String c (titleCase false s')
  end.

(** ** Fields of a profile *)

(** The job titles a profile can carry. *)
Definition jobTitleValues : list string :=
  [ ""; "Cto"; "Chief Technology Officer"; "Vp Technology"; "Head Of Technology";
    "Vp Engineering"; "Chief Technical Officer"; "Head Of Engineering"; "Tech Lead";
    "Technology Vp" ].

(** A character that may stand in a company name. *)
Definition company_char (c : ascii) : bool :=
  negb (existsb (Ascii.eqb c) ["|"; ","; "-"]%char).

(** Every character class of the pattern lies within [p]. *)
Fixpoint within (p : ascii -> bool) (r : regex) : Prop :=
  match r with
  | Eps | Bol => True
  | Class q => forall c, q c = true -> p c = true
  | Cat r1 r2 | Or r1 r2 => within p r1 /\ within p r2
  | Star r1 | Group r1 => within p r1
  end.

(** Every capturing group of the pattern lies within [p]. *)
Fixpoint captures_within (p : ascii -> bool) (r : regex) : Prop :=
  match r with
  | Eps | Bol | Class _ => True
  | Cat r1 r2 | Or r1 r2 => captures_within p r1 /\ captures_within p r2
  | Star r1 => captures_within p r1
  | Group r1 => within p r1
  end.

Definition capture_ok (p : ascii -> bool) (cap : option string) : Prop :=
  match cap with
  | Some g => all_chars p g = true
  | None => True
  end.

(** [piece] occurs in [text]. *)
Definition piece_of (piece text : string) : Prop :=
  exists pre post : string, text = pre ++ piece ++ post.

(** The pattern can match the empty text. *)
Fixpoint nullable (r : regex) : bool :=
  match r with
  | Eps | Bol | Star _ => true
  | Class _ => false
  | Cat r1 r2 => nullable r1 && nullable r2
  | Or r1 r2 => nullable r1 || nullable r2
  | Group r1 => nullable r1
  end.

(** The search context occurs in the company or in the snippet of the
    profile, whatever the case of letters. *)
Definition context_matches (searchContext : string) (profile : LinkedInProfile) : bool :=
  Js.truthy searchContext &&
  (Js.includes (Js.toLowerCase (company profile)) (Js.toLowerCase searchContext) ||
   Js.includes (Js.toLowerCase (profile_snippet profile)) (Js.toLowerCase searchContext)).

(** ** What an item contributes to the result *)

Definition primary_kept (searchContext : string) (item : GoogleSearchItem)
  : list LinkedInProfile :=
  match Primary.parseSearchItem item searchContext with
  | Some p => if Primary.validateProfile p then [p] else []
  | None => []
  end.

Definition alternate_kept (searchContext : string) (item : GoogleSearchItem)
  : list LinkedInProfile :=
  match Alternate.parseSearchItem item searchContext with
  | Some p => if Alternate.validateProfile p then [p] else []
  | None => []
  end.

(** The item [extractProfilesFromSerpApi] builds from a SerpAPI item. *)
Definition as_google_item (item : SerpApiSearchItem) : GoogleSearchItem :=
  {| title := serp_title item; link := serp_link item; snippet := serp_snippet item |}.

(** ** Backends that differ outside the requests of a search *)

(** Answers request [n] as [backend] does when it is one of the first ten
    and asks for 10 results, and with an error otherwise. *)
Definition only_pages {A : Type} (backend : Backend A) : Backend A :=
  fun n request =>
    if (n <? 10)%nat && (req_num request =? 10)%Z then backend n request
    else service_unavailable.

(** While there is a next request, at most 9 were made and the start index
    is [1 + 10 * calls]. *)
Definition google_loop_inv (st : Google.PageState) : Prop :=
  Google.hasMoreResults st = true ->
  Google.startIndex st = (1 + 10 * Z.of_nat (Google.calls st))%Z /\
  (Google.calls st <= 9)%nat.


(** No false-positive term occurs in the snippet. *)
Definition unpenalised (snippet : string) : bool :=
  forallb (fun fp => negb (Js.includes (Js.toLowerCase snippet) fp)) Alternate.falsePositives.

(** * The HTTP endpoints of [index.ts]

    The two search endpoints and the history endpoint, with the search
    history they share passed from call to call.  What a handler reads from
    outside is an argument: the outcome of parsing the request body, the
    answers of the search backend, and the values of the clock.  The
    monolithic [index.ts] has the same handlers over its own
    [ProfileExtractor]; the extraction entry points are parameters. *)

(** ** Numbers and arrays of the handlers *)

Module JsNumber.

(** The value of a digit or letter as a numeral. *)
Definition digit_value (c : ascii) : option Z :=
  if Js.is_digit c then Some (Z.of_nat (Js.code c) - 48)%Z
  else if Js.is_lower c then Some (Z.of_nat (Js.code c) - 87)%Z
  else if Js.is_upper c then Some (Z.of_nat (Js.code c) - 55)%Z
  else None.

(** The value of the longest prefix of digits of the radix; [acc] is [None]
    until a digit was read. *)
Fixpoint digits (radix : Z) (s : string) (acc : option Z) : option Z :=
  match s with
  | EmptyString => acc
  | String c s' =>
      match digit_value c with
      | Some d =>
          if (d <? radix)%Z
          then digits radix s' (Some (match acc with
                                      | Some a => a * radix + d
                                      | None => d
                                      end)%Z)
          else acc
      | None => acc
      end
  end.

(** [parseInt(s)]: leading white space, a sign, [0x] or [0X] for radix 16,
    then the longest prefix of digits; [None] is [NaN]. *)
Definition parseInt (s : string) : option Z :=
  let s := Js.trimStart s in
  let '(sign, s) :=
    match s with
    | String "-" s' => ((-1)%Z, s')
    | String "+" s' => (1%Z, s')
    | _ => (1%Z, s)
    end in
  let '(radix, s) :=
    match s with
    | String "0" (String "x" s') => (16%Z, s')
    | String "0" (String "X" s') => (16%Z, s')
    | _ => (10%Z, s)
    end in
  match digits radix s None with
  | Some n => Some (sign * n)%Z
  | None => None
  end.

(** [Math.min(a, b)] where [a] may be [NaN]. *)
Definition min (a : option Z) (b : Z) : option Z :=
  match a with
  | Some n => Some (Z.min n b)
  | None => None
  end.

(** Truthiness of a number that may be [undefined]: 0 is falsy. *)
Definition truthy (n : option Z) : bool :=
  match n with
  | Some n => negb (n =? 0)%Z
  | None => false
  end.

End JsNumber.

Module JsArray.

(** [parts.filter(Boolean)] on strings that may be [undefined]. *)
Definition filterBoolean (parts : list (option string)) : list string :=
  flat_map (fun part => match part with
                        | Some s => if Js.truthy s then [s] else []
                        | None => []
                        end) parts.

(** [array.slice(0, end)]: a [NaN] end counts as 0 and a negative end counts
    from the end of the array. *)
Definition slice0 {A : Type} (finish : option Z) (array : list A) : list A :=
  let len := Z.of_nat (Datatypes.length array) in
  let relativeEnd := match finish with Some e => e | None => 0%Z end in
  let final := if (relativeEnd <? 0)%Z then Z.max (len + relativeEnd) 0
               else Z.min relativeEnd len in
  firstn (Z.to_nat final) array.

End JsArray.

(** ** The handlers *)

Module Api.

Record SearchRequest : Type :=
  { region : option string;
    company_sector : option string;
    company_type : option string;
    company_size : option string;
    num_results : option Z;
    get_all_pages : option bool }.

Record SearchResponse : Type :=
  { query : string;
    total_results : nat;
    search_time : Q;
    linkedin_urls : list string;
    timestamp : string }.

(** An entry of [searchHistory]; [record_company] is always [null]. *)
Record SearchRecord : Type :=
  { record_query : string;
    record_company : option string;
    record_region : option string;
    record_company_sector : option string;
    record_company_type : option string;
    record_company_size : option string;
    results_count : nat;
    record_search_time : Q;
    record_timestamp : string }.

(** What a handler answers: [c.json(body)] with status 200, or
    [c.json({ error }, status)]. *)
Inductive Reply : Type :=
| SearchResult (response : SearchResponse)
| Searches (searches : list SearchRecord)
| Failure (status : Z) (error : string).

(** The two readings of [Date.now()] and the two of
    [new Date().toISOString()] of a search handler. *)
Record Clock : Type :=
  { startTime : Z; endTime : Z; recordTime : string; responseTime : string }.

(** [request.get_all_pages !== undefined ? request.get_all_pages : !request.num_results] *)
Definition getAllPages (request : SearchRequest) : bool :=
  match get_all_pages request with
  | Some b => b
  | None => negb (JsNumber.truthy (num_results request))
  end.

(** [request.num_results || 10] *)
Definition numResults (request : SearchRequest) : Z :=
  match num_results request with
  | Some n => if JsNumber.truthy (Some n) then n else 10%Z
  | None => 10%Z
  end.

Definition searchContext (request : SearchRequest) : string :=
  Js.join " " (JsArray.filterBoolean
                 [region request; company_sector request; company_type request]).

(** The query string for logging. *)
Definition queryText (request : SearchRequest) : string :=
  let queryParts :=
    JsArray.filterBoolean [region request; company_sector request;
                           company_type request; company_size request] in
  if (0 <? Datatypes.length queryParts)%nat then Js.join " " queryParts else "All CTOs".

(** [searchHistory.unshift(searchRecord)], then
    [if (searchHistory.length > 100) searchHistory.splice(100)]. *)
Definition remember (searchRecord : SearchRecord) (searchHistory : list SearchRecord)
  : list SearchRecord :=
  let searchHistory := searchRecord :: searchHistory in
  if (100 <? Datatypes.length searchHistory)%nat then firstn 100 searchHistory
  else searchHistory.

Section Endpoints.

Variable extractProfiles : GoogleSearchResponse -> string -> list LinkedInProfile.
Variable extractProfilesFromSerpApi : SerpApiResponse -> string -> list LinkedInProfile.
Variable SERPAPI_KEY : string.

(** [POST /api/search/profiles].  [None] only when [fuel] iterations of the
    pagination loop were not enough. *)
Definition search_profiles (google : Backend GoogleSearchResponse) (fuel : nat)
           (clock : Clock) (body : Completion SearchRequest)
           (searchHistory : list SearchRecord)
  : option (Reply * list SearchRecord) :=
  let failed (error : JsError) :=
    Some (Failure 500 ("Search failed: " ++ error_toString error), searchHistory) in
  match body with
  | Thrown error => failed error
  | Returned request =>
      let search :=
        if getAllPages request then
          Google.searchCtoProfiles google fuel (region request) (company_sector request)
            (company_type request) None true
        else
          Some (Google.searchCtoProfilesLimited google (region request)
                  (company_sector request) (company_type request) None
                  (numResults request)) in
      match search with
      | None => None
      | Some (Thrown error, _) => failed error
      | Some (Returned searchResults, _) =>
          let profiles := extractProfiles searchResults (searchContext request) in
          let searchTime := (inject_Z (endTime clock - startTime clock) / 1000)%Q in
          let totalResults := Datatypes.length profiles in
          let query := queryText request in
          let searchRecord :=
            {| record_query := query;
               record_company := None;
               record_region := region request;
               record_company_sector := company_sector request;
               record_company_type := company_type request;
               record_company_size := company_size request;
               results_count := totalResults;
               record_search_time := searchTime;
               record_timestamp := recordTime clock |} in
          let searchHistory := remember searchRecord searchHistory in
          let linkedinUrls := map linkedin_url profiles in
          Some (SearchResult {| query := query;
                                total_results := totalResults;
                                search_time := searchTime;
                                linkedin_urls := linkedinUrls;
                                timestamp := responseTime clock |},
                searchHistory)
      end
  end.

(** [POST /api/search/profiles-serpapi] *)
Definition search_profiles_serpapi (serp : Backend SerpApiResponse) (fuel : nat)
           (clock : Clock) (body : Completion SearchRequest)
           (searchHistory : list SearchRecord)
  : option (Reply * list SearchRecord) :=
  let failed (error : JsError) :=
    Some (Failure 500 ("SerpAPI search failed: " ++ error_toString error), searchHistory) in
  match body with
  | Thrown error => failed error
  | Returned request =>
      if negb (Js.truthy SERPAPI_KEY) then
        Some (Failure 400 "SerpAPI key not configured", searchHistory)
      else
        match Serp.searchCtoProfiles serp fuel (region request) (company_sector request)
                (company_type request) None (getAllPages request) with
        | None => None
        | Some (Thrown error, _) => failed error
        | Some (Returned searchResults, _) =>
            let profiles := extractProfilesFromSerpApi searchResults (searchContext request) in
            let searchTime := (inject_Z (endTime clock - startTime clock) / 1000)%Q in
            let totalResults := Datatypes.length profiles in
            let query := queryText request in
            let searchRecord :=
              {| record_query := query ++ " (SerpAPI)";
                 record_company := None;
                 record_region := region request;
                 record_company_sector := company_sector request;
                 record_company_type := company_type request;
                 record_company_size := company_size request;
                 results_count := totalResults;
                 record_search_time := searchTime;
                 record_timestamp := recordTime clock |} in
            let searchHistory := remember searchRecord searchHistory in
            let linkedinUrls := map linkedin_url profiles in
            Some (SearchResult {| query := query ++ " (SerpAPI)";
                                  total_results := totalResults;
                                  search_time := searchTime;
                                  linkedin_urls := linkedinUrls;
                                  timestamp := responseTime clock |},
                  searchHistory)
        end
  end.

(** [GET /api/search/history]; [limit] is [c.req.query("limit")]. *)
Definition search_history (limit : option string) (searchHistory : list SearchRecord)
  : Reply :=
  let limit :=
    JsNumber.min (JsNumber.parseInt (match limit with
                                     | Some s => if Js.truthy s then s else "10"
                                     | None => "10"
                                     end)) 50 in
  Searches (JsArray.slice0 limit searchHistory).

(** The search history after any number of calls of the two search
    endpoints, starting from the empty history of a fresh server. *)
Inductive reachable : list SearchRecord -> Prop :=
| reachable_start : reachable []
| reachable_google google fuel clock body searchHistory reply searchHistory' :
    reachable searchHistory ->
    search_profiles google fuel clock body searchHistory = Some (reply, searchHistory') ->
    reachable searchHistory'
| reachable_serpapi serp fuel clock body searchHistory reply searchHistory' :
    reachable searchHistory ->
    search_profiles_serpapi serp fuel clock body searchHistory = Some (reply, searchHistory') ->
    reachable searchHistory'.

End Endpoints.

End Api.

(** ** Vocabulary of the endpoint statements *)

(** The URLs a reply carries. *)
Definition reply_urls (reply : Api.Reply) : option (list string) :=
  match reply with
  | Api.SearchResult response => Some (Api.linkedin_urls response)
  | _ => None
  end.

(** A request with no field set, and a clock. *)
Definition empty_request : Api.SearchRequest :=
  {| Api.region := None; Api.company_sector := None; Api.company_type := None;
     Api.company_size := None; Api.num_results := None; Api.get_all_pages := None |}.

Definition noon : Api.Clock :=
  {| Api.startTime := 1000; Api.endTime := 3500;
     Api.recordTime := "2025-01-01T12:00:03.500Z";
     Api.responseTime := "2025-01-01T12:00:03.501Z" |}.

(** What a search handler does to the history: a result is recorded in
    front, with the count and the query text of the reply, and nothing
    beyond 100 entries is kept; a failure leaves the history as it was. *)
Definition bookkeeping (reply : Api.Reply) (before after : list Api.SearchRecord) : Prop :=
  match reply with
  | Api.SearchResult response =>
      Api.total_results response = Datatypes.length (Api.linkedin_urls response) /\
      exists searchRecord : Api.SearchRecord,
        after = firstn 100 (searchRecord :: before) /\
        Api.record_query searchRecord = Api.query response /\
        Api.results_count searchRecord = Api.total_results response /\
        Api.record_company searchRecord = None
  | Api.Failure status _ => (status = 500 \/ status = 400)%Z /\ after = before
  | Api.Searches _ => False
  end.

Definition with_company_size (size : option string) (request : Api.SearchRequest)
  : Api.SearchRequest :=
  {| Api.region := Api.region request;
     Api.company_sector := Api.company_sector request;
     Api.company_type := Api.company_type request;
     Api.company_size := size;
     Api.num_results := Api.num_results request;
     Api.get_all_pages := Api.get_all_pages request |}.

Definition with_num_results (n : option Z) (request : Api.SearchRequest)
  : Api.SearchRequest :=
  {| Api.region := Api.region request;
     Api.company_sector := Api.company_sector request;
     Api.company_type := Api.company_type request;
     Api.company_size := Api.company_size request;
     Api.num_results := n;
     Api.get_all_pages := Api.get_all_pages request |}.

(** The URLs of the reply of a handler. *)
Definition answered_urls (outcome : option (Api.Reply * list Api.SearchRecord))
  : option (option (list string)) :=
  match outcome with
  | Some (reply, _) => Some (reply_urls reply)
  | None => None
  end.

(** The reply lists profile links only, and at most [ceiling] of them. *)
Definition lists_profile_links (ceiling : nat) (reply : Api.Reply) : Prop :=
  match reply with
  | Api.SearchResult response =>
      Forall (fun url => Regex.test linkedinUrlPattern url = true)
             (Api.linkedin_urls response) /\
      (Api.total_results response <= ceiling)%nat
  | _ => True
  end.

(** A history of [n] entries. *)
Definition sample_record (n : nat) : Api.SearchRecord :=
  {| Api.record_query := "All CTOs";
     Api.record_company := None;
     Api.record_region := None;
     Api.record_company_sector := None;
     Api.record_company_type := None;
     Api.record_company_size := None;
     Api.results_count := n;
     Api.record_search_time := 0;
     Api.record_timestamp := "" |}.

Definition sample_history (n : nat) : list Api.SearchRecord :=
  map sample_record (seq 0 n).

(** An extractor that returns profile links only, at most one per item. *)
Definition google_extractor_ok
           (extract : GoogleSearchResponse -> string -> list LinkedInProfile) : Prop :=
  forall response searchContext,
    Forall matches_profile_pattern (extract response searchContext) /\
    (Datatypes.length (extract response searchContext)
     <= Datatypes.length (match items response with Some its => its | None => [] end))%nat.

Definition serp_extractor_ok
           (extract : SerpApiResponse -> string -> list LinkedInProfile) : Prop :=
  forall response searchContext,
    Forall matches_profile_pattern (extract response searchContext) /\
    (Datatypes.length (extract response searchContext)
     <= Datatypes.length (match organic_results response with
                          | Some its => its
                          | None => []
                          end))%nat.

(** * The Telegram bot of [telegram-bot.ts]

    One handler call runs to its end before the next one starts; a handler
    takes the sessions and returns them with the Bot API calls it made, in
    order.  A message is given by its kind and the values interpolated in
    its text, a keyboard by the [callback_data] of its buttons.  Calls of
    the Bot API succeed.  The CSV file is outside the model:
    [generateAndSendCSV] is one call. *)

Module JsString.

(** [s.replace(pattern, replacement)] for a string pattern: the first
    occurrence only. *)
Fixpoint replace (pattern replacement s : string) : string :=
  if String.prefix pattern s then
    replacement ++ String.substring (String.length pattern)
                                    (String.length s - String.length pattern) s
  else
    match s with
    | EmptyString => EmptyString
    | String c s' => String c (replace pattern replacement s')
    end.

(** A value that may be [undefined] inside a template literal. *)
Definition template (value : option string) : string :=
  match value with
  | Some s => s
  | None => "undefined"
  end.

(** [value || fallback] *)
Definition or_else (value : option string) (fallback : string) : string :=
  match value with
  | Some s => if Js.truthy s then s else fallback
  | None => fallback
  end.

End JsString.

Module TelegramCTOBot.

Inductive Step : Type :=
| step_start | step_region | step_sector | step_company_type | step_company_size
| step_search_method | step_searching | step_results.

Record SearchParams : Type :=
  { region : option string;
    company_sector : option string;
    company_type : option string;
    company_size : option string;
    search_method : option string }.

Record UserSession : Type :=
  { chatId : Z;
    step : Step;
    searchParams : SearchParams;
    results : option (list LinkedInProfile) }.

(** [userSessions], a [Map] from chat ids to sessions. *)
Definition Sessions : Type := Z -> option UserSession.

Definition set (chat : Z) (session : UserSession) (sessions : Sessions) : Sessions :=
  fun id => if (id =? chat)%Z then Some session else sessions id.

Definition delete (chat : Z) (sessions : Sessions) : Sessions :=
  fun id => if (id =? chat)%Z then None else sessions id.

Inductive Message : Type :=
| Welcome
| Help
| SessionReset
| RegionSelected (shown : string)
| SectorSelected (shown : string)
| CompanyTypeSelected (shown : string)
| CompanySizeSelected (shown : string)
| SearchStarting (summary : list string)
| NoResults
| SearchCompleted (found : nat) (top : list LinkedInProfile)
| SearchError
| Greeting
| UseTheButtons.

Inductive Call : Type :=
| answerCallbackQuery (text : option string)
| sendMessage (chat : Z) (message : Message) (keyboard : list string)
| generateAndSendCSV (chat : Z) (profiles : list LinkedInProfile) (params : SearchParams).

Definition regionKeyboard : list string :=
  [ "region_global"; "region_united_states"; "region_europe"; "region_asia";
    "region_canada"; "region_australia"; "region_skip" ].

Definition sectorKeyboard : list string :=
  [ "sector_software"; "sector_fintech"; "sector_healthcare"; "sector_e-commerce";
    "sector_AI/ML"; "sector_cybersecurity"; "sector_blockchain"; "sector_IoT";
    "sector_gaming"; "sector_skip" ].

Definition typeKeyboard : list string :=
  [ "type_startup"; "type_SME"; "type_enterprise"; "type_unicorn"; "type_public";
    "type_skip" ].

Definition sizeKeyboard : list string :=
  [ "size_1-10"; "size_11-50"; "size_51-200"; "size_201-1000"; "size_1000+";
    "size_skip" ].

Definition methodKeyboard : list string := [ "method_google"; "method_serpapi" ].

Definition resultsKeyboard : list string := [ "download_csv"; "new_search" ].

Definition handleStart (chat : Z) (sessions : Sessions) : Sessions * list Call :=
  let session :=
    {| chatId := chat;
       step := step_start;
       searchParams := {| region := None; company_sector := None; company_type := None;
                          company_size := None; search_method := None |};
       results := None |} in
  (set chat session sessions, [sendMessage chat Welcome regionKeyboard]).

Definition handleHelp (chat : Z) (sessions : Sessions) : Sessions * list Call :=
  (sessions, [sendMessage chat Help []]).

Definition handleReset (chat : Z) (sessions : Sessions) : Sessions * list Call :=
  (delete chat sessions, [sendMessage chat SessionReset []]).

Definition handleRegionSelection (chat : Z) (data : string) (session : UserSession)
  : UserSession * list Call :=
  let selected := JsString.replace "region_" "" data in
  let params := searchParams session in
  let params :=
    if negb (String.eqb selected "skip") then
      {| region := Some (JsString.replace "_" " " selected);
         company_sector := company_sector params;
         company_type := company_type params;
         company_size := company_size params;
         search_method := search_method params |}
    else params in
  ({| chatId := chatId session; step := step_sector; searchParams := params;
      results := results session |},
   [sendMessage chat (RegionSelected (JsString.or_else (region params) "Not specified"))
      sectorKeyboard]).

Definition handleSectorSelection (chat : Z) (data : string) (session : UserSession)
  : UserSession * list Call :=
  let sector := JsString.replace "sector_" "" data in
  let params := searchParams session in
  let params :=
    if negb (String.eqb sector "skip") then
      {| region := region params;
         company_sector := Some sector;
         company_type := company_type params;
         company_size := company_size params;
         search_method := search_method params |}
    else params in
  ({| chatId := chatId session; step := step_company_type; searchParams := params;
      results := results session |},
   [sendMessage chat (SectorSelected (JsString.or_else (company_sector params) "Not specified"))
      typeKeyboard]).

Definition handleCompanyTypeSelection (chat : Z) (data : string) (session : UserSession)
  : UserSession * list Call :=
  let type := JsString.replace "type_" "" data in
  let params := searchParams session in
  let params :=
    if negb (String.eqb type "skip") then
      {| region := region params;
         company_sector := company_sector params;
         company_type := Some type;
         company_size := company_size params;
         search_method := search_method params |}
    else params in
  ({| chatId := chatId session; step := step_company_size; searchParams := params;
      results := results session |},
   [sendMessage chat
      (CompanyTypeSelected (JsString.or_else (company_type params) "Not specified"))
      sizeKeyboard]).

Definition handleCompanySizeSelection (chat : Z) (data : string) (session : UserSession)
  : UserSession * list Call :=
  let size := JsString.replace "size_" "" data in
  let params := searchParams session in
  let params :=
    if negb (String.eqb size "skip") then
      {| region := region params;
         company_sector := company_sector params;
         company_type := company_type params;
         company_size := Some size;
         search_method := search_method params |}
    else params in
  ({| chatId := chatId session; step := step_search_method; searchParams := params;
      results := results session |},
   [sendMessage chat
      (CompanySizeSelected (JsString.or_else (company_size params) "Not specified"))
      methodKeyboard]).

(** The five lines of the summary after their labels. *)
Definition generateSearchSummary (params : SearchParams) : list string :=
  [ JsString.or_else (region params) "Not specified";
    JsString.or_else (company_sector params) "Not specified";
    JsString.or_else (company_type params) "Not specified";
    JsString.or_else (company_size params) "Not specified";
    match search_method params with
    | Some "google" => "Google Search"
    | _ => "SerpAPI"
    end ].

(** The search context of [performSearch]: a template literal over the
    three filters. *)
Definition searchContext (params : SearchParams) : string :=
  JsString.template (region params) ++ " " ++
  JsString.template (company_sector params) ++ " " ++
  JsString.template (company_type params).

Section Search.

Variable google : Backend GoogleSearchResponse.
Variable serp : Backend SerpApiResponse.

(** The profiles found, or the error caught, with [None] when [fuel]
    iterations of a pagination loop were not enough. *)
Definition search (fuel : nat) (params : SearchParams)
  : option (Completion (list LinkedInProfile)) :=
  match search_method params with
  | Some "google" =>
      match Google.searchCtoProfiles google fuel (region params) (company_sector params)
              (company_type params) None true with
      | Some (Returned searchResponse, _) =>
          Some (Returned (Alternate.extractProfiles searchResponse (searchContext params)))
      | Some (Thrown error, _) => Some (Thrown error)
      | None => None
      end
  | _ =>
      match Serp.searchCtoProfiles serp fuel (region params) (company_sector params)
              (company_type params) None true with
      | Some (Returned searchResponse, _) =>
          Some (Returned (Alternate.extractProfilesFromSerpApi searchResponse
                            (searchContext params)))
      | Some (Thrown error, _) => Some (Thrown error)
      | None => None
      end
  end.

Definition performSearch (fuel : nat) (chat : Z) (session : UserSession)
  : option (UserSession * list Call) :=
  match search fuel (searchParams session) with
  | None => None
  | Some (Thrown _) => Some (session, [sendMessage chat SearchError []])
  | Some (Returned profiles) =>
      let session :=
        {| chatId := chatId session; step := step_results;
           searchParams := searchParams session; results := Some profiles |} in
      if (Datatypes.length profiles =? 0)%nat then
        Some (session, [sendMessage chat NoResults []])
      else
        Some (session,
              [ sendMessage chat
                  (SearchCompleted (Datatypes.length profiles) (firstn 3 profiles))
                  resultsKeyboard;
                generateAndSendCSV chat profiles (searchParams session) ])
  end.

Definition handleSearchMethodSelection (fuel : nat) (chat : Z) (data : string)
           (session : UserSession) : option (UserSession * list Call) :=
  let method := JsString.replace "method_" "" data in
  let params := searchParams session in
  let params :=
    {| region := region params;
       company_sector := company_sector params;
       company_type := company_type params;
       company_size := company_size params;
       search_method := Some method |} in
  let session :=
    {| chatId := chatId session; step := step_searching; searchParams := params;
       results := results session |} in
  match performSearch fuel chat session with
  | Some (session, calls) =>
      Some (session,
            sendMessage chat (SearchStarting (generateSearchSummary params)) [] :: calls)
  | None => None
  end.

Definition handleCallbackQuery (fuel : nat) (chat : Z) (data : string)
           (sessions : Sessions) : option (Sessions * list Call) :=
  match sessions chat with
  | None =>
      Some (sessions, [answerCallbackQuery (Some "Session expired. Please use /start")])
  | Some session =>
      let handled (outcome : UserSession * list Call) :=
        Some (set chat (fst outcome) sessions, answerCallbackQuery None :: snd outcome) in
      if String.prefix "region_" data then handled (handleRegionSelection chat data session)
      else if String.prefix "sector_" data then
        handled (handleSectorSelection chat data session)
      else if String.prefix "type_" data then
        handled (handleCompanyTypeSelection chat data session)
      else if String.prefix "size_" data then
        handled (handleCompanySizeSelection chat data session)
      else if String.prefix "method_" data then
        match handleSearchMethodSelection fuel chat data session with
        | Some outcome => handled outcome
        | None => None
        end
      else Some (sessions, [answerCallbackQuery None])
  end.

End Search.

Definition handleTextMessage (chat : Z) (sessions : Sessions) : Sessions * list Call :=
  match sessions chat with
  | None => (sessions, [sendMessage chat Greeting []])
  | Some _ => (sessions, [sendMessage chat UseTheButtons []])
  end.

End TelegramCTOBot.

(** ** Vocabulary of the bot statements *)

(** The filters of a session as a request of the HTTP API. *)
Definition api_request (params : TelegramCTOBot.SearchParams) : Api.SearchRequest :=
  {| Api.region := TelegramCTOBot.region params;
     Api.company_sector := TelegramCTOBot.company_sector params;
     Api.company_type := TelegramCTOBot.company_type params;
     Api.company_size := TelegramCTOBot.company_size params;
     Api.num_results := None;
     Api.get_all_pages := None |}.

(** The filter is given and not empty. *)
Definition given (filter : option string) : Prop :=
  exists s, filter = Some s /\ s <> "".

(** The callback data is none of those the bot dispatches on. *)
Definition unhandled (data : string) : bool :=
  negb (String.prefix "region_" data || String.prefix "sector_" data ||
        String.prefix "type_" data || String.prefix "size_" data ||
        String.prefix "method_" data).

(** A session in the middle of the dialogue. *)
Definition sample_session : TelegramCTOBot.UserSession :=
  {| TelegramCTOBot.chatId := 7;
     TelegramCTOBot.step := TelegramCTOBot.step_results;
     TelegramCTOBot.searchParams :=
       {| TelegramCTOBot.region := Some "europe";
          TelegramCTOBot.company_sector := None;
          TelegramCTOBot.company_type := None;
          TelegramCTOBot.company_size := None;
          TelegramCTOBot.search_method := Some "google" |};
     TelegramCTOBot.results := Some [] |}.

Definition sample_sessions : TelegramCTOBot.Sessions :=
  TelegramCTOBot.set 7 sample_session (fun _ => None).

(** The answer to a callback the bot does not dispatch on. *)
Definition acknowledged (sessions : TelegramCTOBot.Sessions) (chat : Z)
  : option (TelegramCTOBot.Sessions * list TelegramCTOBot.Call) :=
  Some (sessions,
        [TelegramCTOBot.answerCallbackQuery
           match sessions chat with
           | Some _ => None
           | None => Some "Session expired. Please use /start"
           end]).

(** The session after a search that found [profiles]. *)
Definition searched (session : TelegramCTOBot.UserSession) (method : string)
           (profiles : list LinkedInProfile) : TelegramCTOBot.UserSession :=
  {| TelegramCTOBot.chatId := TelegramCTOBot.chatId session;
     TelegramCTOBot.step := TelegramCTOBot.step_results;
     TelegramCTOBot.searchParams :=
       {| TelegramCTOBot.region := TelegramCTOBot.region (TelegramCTOBot.searchParams session);
          TelegramCTOBot.company_sector :=
            TelegramCTOBot.company_sector (TelegramCTOBot.searchParams session);
          TelegramCTOBot.company_type :=
            TelegramCTOBot.company_type (TelegramCTOBot.searchParams session);
          TelegramCTOBot.company_size :=
            TelegramCTOBot.company_size (TelegramCTOBot.searchParams session);
          TelegramCTOBot.search_method := Some method |};
     TelegramCTOBot.results := Some profiles |}.

(** What the bot says after a search. *)
Definition says_found (calls : list TelegramCTOBot.Call) (chat : Z)
           (params : TelegramCTOBot.SearchParams) (profiles : list LinkedInProfile) : Prop :=
  calls =
  TelegramCTOBot.sendMessage chat
    (TelegramCTOBot.SearchStarting (TelegramCTOBot.generateSearchSummary params)) [] ::
  match profiles with
  | [] => [TelegramCTOBot.sendMessage chat TelegramCTOBot.NoResults []]
  | _ :: _ =>
      [ TelegramCTOBot.sendMessage chat
          (TelegramCTOBot.SearchCompleted (Datatypes.length profiles) (firstn 3 profiles))
          TelegramCTOBot.resultsKeyboard;
        TelegramCTOBot.generateAndSendCSV chat profiles params ]
  end.

Definition says_error (calls : list TelegramCTOBot.Call) (chat : Z)
           (params : TelegramCTOBot.SearchParams) : Prop :=
  calls =
  [ TelegramCTOBot.sendMessage chat
      (TelegramCTOBot.SearchStarting (TelegramCTOBot.generateSearchSummary params)) [];
    TelegramCTOBot.sendMessage chat TelegramCTOBot.SearchError [] ].

(** The callbacks of one chat, one after the other. *)
Fixpoint callbacks (google : Backend GoogleSearchResponse) (serp : Backend SerpApiResponse)
         (fuel : nat) (chat : Z) (datas : list string) (sessions : TelegramCTOBot.Sessions)
  : option TelegramCTOBot.Sessions :=
  match datas with
  | [] => Some sessions
  | data :: rest =>
      match TelegramCTOBot.handleCallbackQuery google serp fuel chat data sessions with
      | Some (sessions', _) => callbacks google serp fuel chat rest sessions'
      | None => None
      end
  end.

(** The filter makes query construction throw. *)
Definition throws_on (table : list (string * list string)) (filter : option string) : bool :=
  match filter with
  | Some value =>
      Js.truthy value &&
      match QueryBuilder.keywordTerms table value with
      | Thrown _ => true
      | Returned _ => false
      end
  | None => false
  end.

(** The filters of a session do not make query construction throw. *)
Definition buildable (session : TelegramCTOBot.UserSession) : Prop :=
  throws_on QueryBuilder.sectorKeywords
    (TelegramCTOBot.company_sector (TelegramCTOBot.searchParams session)) = false /\
  throws_on QueryBuilder.typeKeywords
    (TelegramCTOBot.company_type (TelegramCTOBot.searchParams session)) = false.


(** ** Proof steps *)

(** Finds a computed value in a list of values. *)
Ltac find_in_list :=
  vm_compute; repeat (first [ left; reflexivity | right ]).

(** * Properties *)

Import QueryBuilder.

(** ** The embedding at work *)

Example pattern_accepts_profile_links :
  map (Regex.test linkedinUrlPattern)
      [ "https://www.linkedin.com/in/jane-doe"; "http://linkedin.com/in/jane_doe1";
        "see https://linkedin.com/in/x for more"; "https://example.com/not-a-profile";
        "https://www.linkedin.com/company/acme"; "https://www.linkedin.com/in/" ]
  = [ true; true; true; false; false; false ].
Proof. reflexivity. Qed.

Example name_is_the_leading_segment :
  map extractName [ "Jane Doe - CTO at Acme"; "  John Roe | VP Engineering"; "- CTO"; "" ]
  = [ "Jane Doe"; "John Roe"; ""; "" ].
Proof. reflexivity. Qed.

Example title_case :
  map toTitleCase [ "chief technology officer"; "acme  SOFTWARE"; "" ]
  = [ "Chief Technology Officer"; "Acme  Software"; "" ].
Proof. reflexivity. Qed.

Example company_patterns_in_order :
  map (firstCompany companyPatterns)
      [ "jane doe - cto at acme software, san francisco";
        "cto @ initech | london";
        "foo, bar baz - qux";
        "nothing to see" ]
  = [ Some "acme software"; Some "initech"; Some "bar baz"; None ].
Proof. reflexivity. Qed.

Example split_and_includes :
  Js.split " " "san  francisco" = [ "san"; ""; "francisco" ] /\
  Js.includes "the cto of acme" "cto" = true /\
  Js.includes "abc" "" = true /\
  Js.includes "abc" "abcd" = false.
Proof. repeat split. Qed.

Example jane_with_the_primary_extractor :
  Primary.extractProfiles {| items := Some [jane] |} "San Francisco software" =
  [ {| name := "Jane Doe";
       profile_title := "Cto";
       company := "Acme Jane Doe Is The Cto At Acme Software";
       linkedin_url := "https://linkedin.com/in/janedoe";
       profile_snippet := snippet jane;
       confidence_score := 70;
       location := None;
       sources := ["Google Custom Search"] |} ].
Proof. vm_compute. reflexivity. Qed.

Example jane_with_the_alternate_extractor :
  Alternate.extractProfiles {| items := Some [jane] |} "San Francisco software" =
  [ {| name := "Jane Doe";
       profile_title := "Cto";
       company := "Acme Jane Doe Is The Cto At Acme Software";
       linkedin_url := "https://linkedin.com/in/janedoe";
       profile_snippet := snippet jane;
       confidence_score := 94;
       location := Some "San Francisco";
       sources := ["Google Custom Search"] |} ].
Proof. vm_compute. reflexivity. Qed.

Example query_for_a_region_and_a_sector :
  QueryBuilder.buildQuery (Some "San Francisco") (Some "Software") None None =
  Returned
    (Js.join " "
       [ "site:linkedin.com/in/";
         QueryBuilder.disjunction QueryBuilder.executiveTitles;
         QueryBuilder.quoted "San Francisco";
         QueryBuilder.disjunction ["software"; "SaaS"; "tech"; "technology"];
         "-" ++ QueryBuilder.quoted "Intern"; "-" ++ QueryBuilder.quoted "Student";
         "-" ++ QueryBuilder.quoted "Former"; "-" ++ QueryBuilder.quoted "Ex-";
         "-" ++ QueryBuilder.quoted "Previous"; "-" ++ QueryBuilder.quoted "Consultant" ]).
Proof. reflexivity. Qed.

(** ** Numbers *)

Lemma Qle_bool_false (a b : Q) : Qle_bool a b = false -> b <= a.
Proof.
  intros H. apply Qlt_le_weak, Qnot_le_lt. intros Hle.
  rewrite <- Qle_bool_iff, H in Hle. discriminate.
Qed.

Lemma min_le_r (a b : Q) : Math.min a b <= b.
Proof.
  unfold Math.min. destruct (Qle_bool a b) eqn:E.
  - now apply Qle_bool_iff.
  - apply Qle_refl.
Qed.

Lemma min_le_l (a b : Q) : Math.min a b <= a.
Proof.
  unfold Math.min. destruct (Qle_bool a b) eqn:E.
  - apply Qle_refl.
  - now apply Qle_bool_false.
Qed.

Lemma min_glb (a b c : Q) : c <= a -> c <= b -> c <= Math.min a b.
Proof. intros Ha Hb. unfold Math.min. now destruct (Qle_bool a b). Qed.

Lemma max_le_l (a b : Q) : a <= Math.max a b.
Proof.
  unfold Math.max. destruct (Qle_bool a b) eqn:E.
  - now apply Qle_bool_iff.
  - apply Qle_refl.
Qed.

Lemma max_lub (a b c : Q) : a <= c -> b <= c -> Math.max a b <= c.
Proof. intros Ha Hb. unfold Math.max. now destruct (Qle_bool a b). Qed.

Lemma clamp_bounds (score : Q) :
  0 <= Math.max 0 (Math.min 100 score) <= 100.
Proof.
  split.
  - apply max_le_l.
  - apply max_lub; [ now apply Qle_bool_iff | apply min_le_l ].
Qed.

(** ** Strings *)

Lemma or_empty_id (s : string) : Js.or_empty s = s.
Proof.
  unfold Js.or_empty, Js.truthy.
  destruct (String.eqb s "") eqn:E; simpl; [ | reflexivity ].
  apply String.eqb_eq in E. now subst.
Qed.

Lemma truthy_length (s : string) : Js.truthy s = (0 <? String.length s)%nat.
Proof. now destruct s. Qed.

Lemma truthy_nonempty (s : string) : Js.truthy s = true <-> s <> "".
Proof. destruct s; cbn; split; intros H; try reflexivity; try discriminate; now elim H. Qed.

(** ** Score bounds *)

Lemma primary_score_bounds (jobTitle company searchContext snippet : string) :
  0 <= Primary.calculateConfidence jobTitle company searchContext snippet <= 100.
Proof.
  unfold Primary.calculateConfidence. cbv zeta.
  repeat match goal with
         | |- context [if ?b then _ else _] => destruct b
         end;
    split; apply Qle_bool_iff; reflexivity.
Qed.

Lemma alternate_score_bounds (jobTitle company searchContext snippet : string) :
  0 <= Alternate.calculateConfidence jobTitle company searchContext snippet <= 100.
Proof. unfold Alternate.calculateConfidence. apply clamp_bounds. Qed.

(** C1.  Whatever the extracted job title, company, search context and
    snippet, the confidence score of the primary formula and the one of the
    alternate formula lie between 0 and 100 inclusive; so does the score of
    the profile parsed from any raw result item under any search context,
    with either version of the extractor. *)
Theorem confidence_score_in_range :
  (forall jobTitle company searchContext snippet : string,
      0 <= Primary.calculateConfidence jobTitle company searchContext snippet <= 100) /\
  (forall jobTitle company searchContext snippet : string,
      0 <= Alternate.calculateConfidence jobTitle company searchContext snippet <= 100) /\
  (forall (raw : RawResultItem) (searchContext : string),
      match Primary.parseSearchItem (google_item raw) searchContext with
      | Some profile => 0 <= confidence_score profile <= 100
      | None => True
      end) /\
  (forall (raw : RawResultItem) (searchContext : string),
      match Alternate.parseSearchItem (google_item raw) searchContext with
      | Some profile => 0 <= confidence_score profile <= 100
      | None => True
      end).
Proof.
  split; [ exact primary_score_bounds | ].
  split; [ exact alternate_score_bounds | ].
  split; intros raw searchContext.
  - unfold Primary.parseSearchItem.
    destruct (negb (Regex.test linkedinUrlPattern _)); [ exact I | ].
    destruct (Primary.extractTitleAndCompany _ _) as [jobTitle company]; simpl.
    apply primary_score_bounds.
  - unfold Alternate.parseSearchItem.
    destruct (negb (Regex.test linkedinUrlPattern _)); [ exact I | ].
    destruct (Alternate.extractTitleAndCompany _ _) as [jobTitle company]; simpl.
    apply alternate_score_bounds.
Qed.

(** ** URL gating *)

Lemma primary_parse_checks_link (item : GoogleSearchItem) (searchContext : string) :
  match Primary.parseSearchItem item searchContext with
  | Some profile =>
      Regex.test linkedinUrlPattern (link item) = true /\
      linkedin_url profile = link item /\
      sources profile = ["Google Custom Search"]
  | None => Regex.test linkedinUrlPattern (link item) = false
  end.
Proof.
  unfold Primary.parseSearchItem. rewrite or_empty_id.
  destruct (Regex.test linkedinUrlPattern (link item)); cbn [negb]; [ | reflexivity ].
  destruct (Primary.extractTitleAndCompany _ _); cbn. auto.
Qed.

Lemma alternate_parse_checks_link (item : GoogleSearchItem) (searchContext : string) :
  match Alternate.parseSearchItem item searchContext with
  | Some profile =>
      Regex.test linkedinUrlPattern (link item) = true /\
      linkedin_url profile = link item /\
      sources profile = ["Google Custom Search"]
  | None => Regex.test linkedinUrlPattern (link item) = false
  end.
Proof.
  unfold Alternate.parseSearchItem. rewrite or_empty_id.
  destruct (Regex.test linkedinUrlPattern (link item)); cbn [negb]; [ | reflexivity ].
  destruct (Alternate.extractTitleAndCompany _ _); cbn. auto.
Qed.

(** What every extracted profile satisfies: the loops only append parsed
    profiles. *)
Section ExtractionInvariant.

Variable P : LinkedInProfile -> Prop.
Variable Item : Type.
Variable convert : Item -> GoogleSearchItem.

Lemma primary_fold_invariant (searchContext : string) (its : list Item) :
  (forall item p, Primary.parseSearchItem item searchContext = Some p -> P p) ->
  forall acc, Forall P acc ->
  Forall P (fold_left (fun profiles item =>
                         Primary.push_if_valid profiles
                           (Primary.parseSearchItem (convert item) searchContext)) its acc).
Proof.
  intros Hparse. induction its as [ | item its IH ]; intros acc Hacc; simpl; [ assumption | ].
  apply IH. unfold Primary.push_if_valid.
  destruct (Primary.parseSearchItem (convert item) searchContext) as [ p | ] eqn:E;
    [ | assumption ].
  destruct (Primary.validateProfile p); [ | assumption ].
  apply Forall_app. split; [ assumption | ]. constructor; [ | constructor ].
  now apply (Hparse (convert item)).
Qed.

Lemma alternate_fold_invariant (searchContext : string) (its : list Item) :
  (forall item p, Alternate.parseSearchItem item searchContext = Some p -> P p) ->
  forall acc, Forall P acc ->
  Forall P (fold_left (fun profiles item =>
                         Alternate.push_if_valid profiles
                           (Alternate.parseSearchItem (convert item) searchContext)) its acc).
Proof.
  intros Hparse. induction its as [ | item its IH ]; intros acc Hacc; simpl; [ assumption | ].
  apply IH. unfold Alternate.push_if_valid.
  destruct (Alternate.parseSearchItem (convert item) searchContext) as [ p | ] eqn:E;
    [ | assumption ].
  destruct (Alternate.validateProfile p); [ | assumption ].
  apply Forall_app. split; [ assumption | ]. constructor; [ | constructor ].
  now apply (Hparse (convert item)).
Qed.

End ExtractionInvariant.

Lemma primary_extracted (P : LinkedInProfile -> Prop) (searchContext : string) :
  (forall item p, Primary.parseSearchItem item searchContext = Some p -> P p) ->
  (forall response, Forall P (Primary.extractProfiles response searchContext)) /\
  (forall response, Forall P (Primary.extractProfilesFromSerpApi response searchContext)).
Proof.
  intros Hparse. split; intros [ [ its | ] ];
    unfold Primary.extractProfiles, Primary.extractProfilesFromSerpApi; simpl;
    try constructor.
  - apply (primary_fold_invariant P _ (fun item => item)); [ assumption | constructor ].
  - apply (primary_fold_invariant P _
             (fun item => {| title := serp_title item; link := serp_link item;
                             snippet := serp_snippet item |}));
      [ assumption | constructor ].
Qed.

Lemma alternate_extracted (P : LinkedInProfile -> Prop) (searchContext : string) :
  (forall item p, Alternate.parseSearchItem item searchContext = Some p -> P p) ->
  (forall response, Forall P (Alternate.extractProfiles response searchContext)) /\
  (forall response, Forall P (Alternate.extractProfilesFromSerpApi response searchContext)).
Proof.
  intros Hparse. split; intros [ [ its | ] ];
    unfold Alternate.extractProfiles, Alternate.extractProfilesFromSerpApi; simpl;
    try constructor.
  - apply (alternate_fold_invariant P _ (fun item => item)); [ assumption | constructor ].
  - apply (alternate_fold_invariant P _
             (fun item => {| title := serp_title item; link := serp_link item;
                             snippet := serp_snippet item |}));
      [ assumption | constructor ].
Qed.

Lemma primary_parsed_matches (searchContext : string) (item : GoogleSearchItem)
      (p : LinkedInProfile) :
  Primary.parseSearchItem item searchContext = Some p -> matches_profile_pattern p.
Proof.
  intros E. generalize (primary_parse_checks_link item searchContext). rewrite E.
  unfold matches_profile_pattern. intros (Ht & -> & _). exact Ht.
Qed.

Lemma alternate_parsed_matches (searchContext : string) (item : GoogleSearchItem)
      (p : LinkedInProfile) :
  Alternate.parseSearchItem item searchContext = Some p -> matches_profile_pattern p.
Proof.
  intros E. generalize (alternate_parse_checks_link item searchContext). rewrite E.
  unfold matches_profile_pattern. intros (Ht & -> & _). exact Ht.
Qed.

(** C7, as the code has it.  With either version of the extractor: an item
    yields a profile exactly when its link matches the (case-sensitive)
    profile pattern, and the profile carries that link; every profile
    returned by extraction has a matching [linkedin_url]; an item whose link
    is [https://example.com/not-a-profile] yields none, and an item whose
    link is [https://www.linkedin.com/in/jane-doe], written in lower case,
    yields exactly one from the parser whatever its title, snippet and
    search context. *)
Theorem url_gating :
  (forall (item : GoogleSearchItem) (searchContext : string),
      match Primary.parseSearchItem item searchContext with
      | Some profile =>
          Regex.test linkedinUrlPattern (link item) = true /\
          linkedin_url profile = link item
      | None => Regex.test linkedinUrlPattern (link item) = false
      end) /\
  (forall (item : GoogleSearchItem) (searchContext : string),
      match Alternate.parseSearchItem item searchContext with
      | Some profile =>
          Regex.test linkedinUrlPattern (link item) = true /\
          linkedin_url profile = link item
      | None => Regex.test linkedinUrlPattern (link item) = false
      end) /\
  (forall (google : GoogleSearchResponse) (serp : SerpApiResponse) (searchContext : string),
      Forall matches_profile_pattern (Primary.extractProfiles google searchContext) /\
      Forall matches_profile_pattern (Primary.extractProfilesFromSerpApi serp searchContext) /\
      Forall matches_profile_pattern (Alternate.extractProfiles google searchContext) /\
      Forall matches_profile_pattern (Alternate.extractProfilesFromSerpApi serp searchContext)) /\
  (forall t s searchContext : string,
      Primary.parseSearchItem
        {| title := t; link := "https://example.com/not-a-profile"; snippet := s |}
        searchContext = None /\
      Alternate.parseSearchItem
        {| title := t; link := "https://example.com/not-a-profile"; snippet := s |}
        searchContext = None) /\
  (forall t s searchContext : string,
      (exists profile,
          Primary.parseSearchItem
            {| title := t; link := "https://www.linkedin.com/in/jane-doe"; snippet := s |}
            searchContext = Some profile /\
          linkedin_url profile = "https://www.linkedin.com/in/jane-doe") /\
      (exists profile,
          Alternate.parseSearchItem
            {| title := t; link := "https://www.linkedin.com/in/jane-doe"; snippet := s |}
            searchContext = Some profile /\
          linkedin_url profile = "https://www.linkedin.com/in/jane-doe")).
Proof.
  split; [ | split; [ | split; [ | split ] ] ].
  - intros item searchContext. generalize (primary_parse_checks_link item searchContext).
    destruct (Primary.parseSearchItem item searchContext); tauto.
  - intros item searchContext. generalize (alternate_parse_checks_link item searchContext).
    destruct (Alternate.parseSearchItem item searchContext); tauto.
  - intros google serp searchContext.
    destruct (primary_extracted matches_profile_pattern searchContext
                (primary_parsed_matches searchContext)) as [ HG HS ].
    destruct (alternate_extracted matches_profile_pattern searchContext
                (alternate_parsed_matches searchContext)) as [ HG' HS' ].
    auto.
  - intros t s searchContext. split; reflexivity.
  - intros t s searchContext. split.
    + generalize (primary_parse_checks_link
                    {| title := t; link := "https://www.linkedin.com/in/jane-doe"; snippet := s |}
                    searchContext).
      destruct (Primary.parseSearchItem _ searchContext) as [ p | ]; cbn [link].
      * intros (_ & Hu & _). now exists p.
      * intros Ht. vm_compute in Ht. discriminate.
    + generalize (alternate_parse_checks_link
                    {| title := t; link := "https://www.linkedin.com/in/jane-doe"; snippet := s |}
                    searchContext).
      destruct (Alternate.parseSearchItem _ searchContext) as [ p | ]; cbn [link].
      * intros (_ & Hu & _). now exists p.
      * intros Ht. vm_compute in Ht. discriminate.
Qed.

(** C7, as stated, fails: the pattern has no [i] flag, so the same profile
    link with its scheme and host in upper case, or in mixed case, yields no
    profile. *)
Lemma url_gating_is_case_sensitive :
  Primary.parseSearchItem
    {| title := "Jane Doe - CTO at Acme";
       link := "HTTPS://WWW.LINKEDIN.COM/in/jane-doe";
       snippet := "Jane Doe is the CTO at Acme" |} "" = None /\
  Alternate.parseSearchItem
    {| title := "Jane Doe - CTO at Acme";
       link := "HTTPS://WWW.LINKEDIN.COM/in/jane-doe";
       snippet := "Jane Doe is the CTO at Acme" |} "" = None /\
  Alternate.extractProfiles
    {| items := Some [ {| title := "Jane Doe - CTO at Acme";
                          link := "https://www.LinkedIn.com/in/jane-doe";
                          snippet := "Jane Doe is the CTO at Acme" |} ] |} "" = [] /\
  Alternate.extractProfiles
    {| items := Some [ {| title := "Jane Doe - CTO at Acme";
                          link := "https://www.linkedin.com/in/jane-doe";
                          snippet := "Jane Doe is the CTO at Acme" |} ] |} "" <> [].
Proof. repeat split; try (vm_compute; reflexivity). vm_compute. discriminate. Qed.

(** ** Validity filter *)

Lemma num_ge_spec (a b : Q) : num_ge a b = true <-> b <= a.
Proof. unfold num_ge. apply Qle_bool_iff. Qed.

Lemma num_gt_spec (a b : Q) : num_gt a b = true <-> b < a.
Proof.
  unfold num_gt. split.
  - intros H. apply Qnot_le_lt. intros Hle. rewrite <- Qle_bool_iff in Hle.
    rewrite Hle in H. discriminate.
  - intros H. destruct (Qle_bool a b) eqn:E; [ | reflexivity ].
    apply Qle_bool_iff in E. exfalso. now apply (Qlt_not_le b a).
Qed.

(** C8, as the code has it.  The primary filter retains a profile exactly
    when its score is at least 20, its name has at least 2 characters and its
    URL is not empty; the alternate filter retains a profile exactly when its
    name has at least 1 character, its URL is not empty and its score is
    strictly greater than 10.  Under the primary filter a profile with a name
    and a URL is retained at score 20.0 and dropped at score 19.99; under
    the alternate filter it is dropped at score 10 and retained above. *)
Theorem validity_filter :
  (forall profile : LinkedInProfile,
      Primary.validateProfile profile = true <->
      20 <= confidence_score profile /\
      (2 <= String.length (name profile))%nat /\
      linkedin_url profile <> "") /\
  (forall profile : LinkedInProfile,
      Alternate.validateProfile profile = true <->
      (1 <= String.length (name profile))%nat /\
      linkedin_url profile <> "" /\
      10 < confidence_score profile) /\
  Primary.validateProfile
    (candidate "Jane Doe" "https://www.linkedin.com/in/jane-doe" 20.0) = true /\
  Primary.validateProfile
    (candidate "Jane Doe" "https://www.linkedin.com/in/jane-doe" 19.99) = false /\
  Alternate.validateProfile
    (candidate "Jane Doe" "https://www.linkedin.com/in/jane-doe" 10) = false /\
  Alternate.validateProfile
    (candidate "Jane Doe" "https://www.linkedin.com/in/jane-doe" 10.01) = true.
Proof.
  split; [ | split; [ | repeat split ] ].
  - intros profile. unfold Primary.validateProfile.
    rewrite !andb_true_iff, Nat.leb_le, !truthy_nonempty.
    rewrite num_ge_spec.
    assert (H20 : 20.0 == 20) by reflexivity.
    split.
    + intros (((Hs & Hn) & Hu) & Hl). rewrite H20 in Hs. tauto.
    + intros (Hs & Hl & Hu). rewrite <- H20 in Hs.
      repeat split; try assumption.
      intros E. rewrite E in Hl. simpl in Hl. lia.
  - intros profile. unfold Alternate.validateProfile.
    rewrite !andb_true_iff, <- !truthy_length, !truthy_nonempty, num_gt_spec.
    destruct (name profile) eqn:E; simpl; split.
    + intros ((Hn & _) & _). now elim Hn.
    + intros (Hl & _). lia.
    + intros ((_ & Hu) & Hs). repeat split; [ lia | assumption | assumption ].
    + intros (_ & Hu & Hs). repeat split; [ discriminate | assumption | assumption ].
Qed.

(** C8, as stated, fails on the alternate filter: a profile whose name has
    a single character is retained. *)
Lemma alternate_filter_keeps_short_name :
  Alternate.validateProfile
    (candidate "J" "https://www.linkedin.com/in/j" 50) = true /\
  (String.length (name (candidate "J" "https://www.linkedin.com/in/j" 50)) < 2)%nat /\
  Primary.validateProfile
    (candidate "J" "https://www.linkedin.com/in/j" 50) = false.
Proof. repeat split. simpl. lia. Qed.

(** ** The two extraction entry points *)

Lemma google_of_serp (raw : RawResultItem) :
  {| title := serp_title (serp_item raw);
     link := serp_link (serp_item raw);
     snippet := serp_snippet (serp_item raw) |} = google_item raw.
Proof. now destruct raw as [ [ t l ] s ]. Qed.

Lemma primary_paths_agree (searchContext : string) (raw : list RawResultItem) :
  forall acc,
    fold_left (fun profiles item =>
                 Primary.push_if_valid profiles (Primary.parseSearchItem item searchContext))
              (map google_item raw) acc =
    fold_left (fun profiles item =>
                 let googleItem := {| title := serp_title item;
                                      link := serp_link item;
                                      snippet := serp_snippet item |} in
                 Primary.push_if_valid profiles
                   (Primary.parseSearchItem googleItem searchContext))
              (map serp_item raw) acc.
Proof.
  induction raw as [ | r raw IH ]; intros acc; [ reflexivity | ].
  cbn [map fold_left]. cbv zeta. rewrite google_of_serp. apply IH.
Qed.

Lemma alternate_paths_agree (searchContext : string) (raw : list RawResultItem) :
  forall acc,
    fold_left (fun profiles item =>
                 Alternate.push_if_valid profiles (Alternate.parseSearchItem item searchContext))
              (map google_item raw) acc =
    fold_left (fun profiles item =>
                 let googleItem := {| title := serp_title item;
                                      link := serp_link item;
                                      snippet := serp_snippet item |} in
                 Alternate.push_if_valid profiles
                   (Alternate.parseSearchItem googleItem searchContext))
              (map serp_item raw) acc.
Proof.
  induction raw as [ | r raw IH ]; intros acc; [ reflexivity | ].
  cbn [map fold_left]. cbv zeta. rewrite google_of_serp. apply IH.
Qed.

(** C10.  For every list of raw items and every search context,
    [extractProfiles] on a response carrying the list in [items] and
    [extractProfilesFromSerpApi] on a response carrying it in
    [organic_results] return the same list of profiles; every profile of
    that list carries the sources label "Google Custom Search"; and a
    response without [items], respectively without [organic_results],
    yields the empty list.  This holds in both versions of the extractor. *)
Theorem extraction_paths_agree :
  forall (raw : list RawResultItem) (searchContext : string),
    (Primary.extractProfiles {| items := Some (map google_item raw) |} searchContext =
     Primary.extractProfilesFromSerpApi
       {| organic_results := Some (map serp_item raw) |} searchContext /\
     Forall google_sourced
       (Primary.extractProfiles {| items := Some (map google_item raw) |} searchContext) /\
     Primary.extractProfiles {| items := None |} searchContext = [] /\
     Primary.extractProfilesFromSerpApi {| organic_results := None |} searchContext = []) /\
    (Alternate.extractProfiles {| items := Some (map google_item raw) |} searchContext =
     Alternate.extractProfilesFromSerpApi
       {| organic_results := Some (map serp_item raw) |} searchContext /\
     Forall google_sourced
       (Alternate.extractProfiles {| items := Some (map google_item raw) |} searchContext) /\
     Alternate.extractProfiles {| items := None |} searchContext = [] /\
     Alternate.extractProfilesFromSerpApi {| organic_results := None |} searchContext = []).
Proof.
  intros raw searchContext. split; (split; [ | split; [ | split; reflexivity ] ]).
  - apply primary_paths_agree.
  - apply primary_extracted. intros item p E.
    generalize (primary_parse_checks_link item searchContext). rewrite E. now intros (_ & _ & Hs).
  - apply alternate_paths_agree.
  - apply alternate_extracted. intros item p E.
    generalize (alternate_parse_checks_link item searchContext). rewrite E. now intros (_ & _ & Hs).
Qed.

(** ** Query construction *)

Lemma lower_char_not_upper (c : ascii) : Js.is_upper (Js.lower_char c) = false.
Proof. destruct c as [ [ | ] [ | ] [ | ] [ | ] [ | ] [ | ] [ | ] [ | ] ]; reflexivity. Qed.

Lemma toLowerCase_head (v : string) (c : ascii) (rest : string) :
  Js.toLowerCase v = String c rest -> Js.is_upper c = false.
Proof.
  destruct v as [ | c' v ]; simpl; [ discriminate | ].
  intros E. injection E as <- _. apply lower_char_not_upper.
Qed.

(** A key that starts with an upper-case letter is never the key looked up. *)
Lemma capital_key_misses (k : string) (c : ascii) (rest v : string) :
  k = String c rest -> Js.is_upper c = true ->
  String.eqb k (Js.toLowerCase v) = false.
Proof.
  intros -> Hc. destruct (String.eqb _ _) eqn:E; [ | reflexivity ].
  apply String.eqb_eq in E. symmetry in E. apply toLowerCase_head in E. congruence.
Qed.

Lemma pushKeywordClause_optional table filter parts :
  pushKeywordClause table filter parts =
  (clauses <- optionalClause table filter ;; Returned (parts ++ clauses)%list).
Proof.
  unfold pushKeywordClause, optionalClause.
  destruct filter as [ value | ]; simpl; [ | now rewrite app_nil_r ].
  destruct (Js.truthy value); simpl; [ | now rewrite app_nil_r ].
  unfold keywordClause. now destruct (keywordTerms table value).
Qed.

(** Whenever neither keyword lookup throws, the query is the clauses joined
    with single spaces in the order: namespace, titles, region, sector, type,
    exclusions; an absent (or empty) filter contributes no clause. *)
Lemma buildQuery_clause_order region companySector companyType additionalTitles
      sectorClause typeClause :
  optionalClause sectorKeywords companySector = Returned sectorClause ->
  optionalClause typeKeywords companyType = Returned typeClause ->
  buildQuery region companySector companyType additionalTitles =
  Returned (Js.join " "
              ([ "site:linkedin.com/in/"; titleClause additionalTitles ] ++
               regionClause region ++ sectorClause ++ typeClause ++
               exclusionClauses)%list).
Proof.
  intros Hs Ht. unfold buildQuery.
  rewrite pushKeywordClause_optional, Hs. cbn [bind].
  rewrite pushKeywordClause_optional, Ht. cbn [bind].
  f_equal. f_equal.
  assert (Hex : forall parts,
             fold_left (fun parts exclude => (parts ++ [("-" ++ quoted exclude)%string])%list)
                       excludes parts = (parts ++ exclusionClauses)%list).
  { intros parts. unfold exclusionClauses. generalize excludes as l. intros l.
    revert parts. induction l as [ | e l IH ]; intros parts; simpl.
    - now rewrite app_nil_r.
    - rewrite IH, <- app_assoc. reflexivity. }
  rewrite Hex.
  assert (Hhead : forall more,
             match region with
             | Some r =>
                 if Js.truthy r then
                   ([ "site:linkedin.com/in/";
                      ("(" ++ Js.join " OR " (map quoted more) ++ ")")%string ] ++
                    [quoted r])%list
                 else [ "site:linkedin.com/in/";
                        ("(" ++ Js.join " OR " (map quoted more) ++ ")")%string ]
             | None => [ "site:linkedin.com/in/";
                         ("(" ++ Js.join " OR " (map quoted more) ++ ")")%string ]
             end =
             ([ "site:linkedin.com/in/"; disjunction more ] ++ regionClause region)%list).
  { intros more. unfold regionClause, disjunction.
    destruct region as [ r | ]; [ destruct (Js.truthy r) | ]; reflexivity. }
  rewrite Hhead, <- !app_assoc. unfold titleClause.
  destruct additionalTitles; [ reflexivity | ]. now rewrite app_nil_r.
Qed.


(** C2: the query construction does throw.  A sector (or type) whose
    lower-cased text names a property that every object inherits, such as
    [constructor], finds that property in the keyword table instead of
    [undefined]; the fallback to the literal term is skipped and the call
    of [map] on it raises a TypeError, in every method that builds the
    query. *)
Theorem query_construction_throws :
  buildQuery None (Some "constructor") None None =
    Thrown not_a_function /\
  buildQuery (Some "Berlin") (Some "Constructor") (Some "startup") None =
    Thrown not_a_function /\
  buildQuery None None (Some "__proto__") None =
    Thrown not_a_function /\
  (forall (google : Backend GoogleSearchResponse) (fuel : nat) (getAllPages : bool),
      LinkedInProfileSearchService.searchCtoProfiles google fuel
        None (Some "constructor") None None getAllPages =
      Some (Thrown not_a_function, 0%nat)) /\
  (forall (serp : Backend SerpApiResponse) (fuel : nat) (getAllPages : bool),
      SerpApiSearchService.searchCtoProfiles serp fuel
        None (Some "constructor") None None getAllPages =
      Some (Thrown not_a_function, 0%nat)).
Proof. repeat split; reflexivity. Qed.

(** C9: the lookup key is lower-cased but the keys [AI/ML], [IoT] and [SME]
    of the tables are not, so no casing of these three reaches its synonym
    set: each falls back to the literal term, and no input at all gets
    their synonym sets.  Every entry whose key is the lower-cased input is
    found, so the keys written in lower case are found under any casing. *)
Theorem mixed_case_keys_are_unreachable :
  JsObject.own sectorKeywords "AI/ML" =
    Some ["AI"; "ML"; "artificial intelligence"; "machine learning"] /\
  keywordTerms sectorKeywords "AI/ML" = Returned ["AI/ML"] /\
  keywordTerms sectorKeywords "ai/ml" = Returned ["ai/ml"] /\
  keywordTerms sectorKeywords "IoT" = Returned ["IoT"] /\
  keywordTerms typeKeywords "SME" = Returned ["SME"] /\
  keywordClause sectorKeywords "AI/ML" = Returned ("(" ++ quoted "AI/ML" ++ ")") /\
  (forall value : string,
      keywordTerms sectorKeywords value <>
        Returned ["AI"; "ML"; "artificial intelligence"; "machine learning"] /\
      keywordTerms sectorKeywords value <>
        Returned ["IoT"; "Internet of Things"; "connected devices"] /\
      keywordTerms typeKeywords value <>
        Returned ["SME"; "medium business"; "scale-up"]) /\
  (forall (value key : string) (terms : list string),
      In (key, terms) sectorKeywords ->
      Js.toLowerCase value = key ->
      keywordTerms sectorKeywords value = Returned terms) /\
  (forall (value key : string) (terms : list string),
      In (key, terms) typeKeywords ->
      Js.toLowerCase value = key ->
      keywordTerms typeKeywords value = Returned terms) /\
  keywordTerms sectorKeywords "FinTech" =
    Returned ["fintech"; "financial technology"; "finance"; "banking"] /\
  keywordTerms typeKeywords "UNICORN" = Returned ["unicorn"; "billion"; "$1B"] /\
  keywordTerms sectorKeywords "robotics" = Returned ["robotics"].
Proof.
  repeat match goal with |- _ /\ _ => split end; try reflexivity.
  - intros value;
      repeat match goal with |- _ /\ _ => split end;
      unfold keywordTerms, JsObject.get, sectorKeywords, typeKeywords;
      cbn [JsObject.own];
      try rewrite (capital_key_misses "AI/ML" "A" "I/ML" value eq_refl eq_refl);
      try rewrite (capital_key_misses "IoT" "I" "oT" value eq_refl eq_refl);
      try rewrite (capital_key_misses "SME" "S" "ME" value eq_refl eq_refl);
      repeat match goal with
             | |- context [if String.eqb ?k (Js.toLowerCase value) then _ else _] =>
                 destruct (String.eqb k (Js.toLowerCase value))
             end;
      try discriminate;
      destruct (existsb _ JsObject.prototype_keys); discriminate.
  - intros value key terms Hin Hkey.
    assert (Hlow : forall c rest, key = String c rest -> Js.is_upper c = false).
    { intros c rest ->. exact (toLowerCase_head value c rest Hkey). }
    unfold keywordTerms. rewrite Hkey. cbn in Hin.
    repeat match type of Hin with
           | _ \/ _ => destruct Hin as [ Hin | Hin ]
           end;
      try contradiction;
      injection Hin as <- <-;
      try reflexivity;
      exfalso; (specialize (Hlow _ _ eq_refl)); discriminate.
  - intros value key terms Hin Hkey.
    assert (Hlow : forall c rest, key = String c rest -> Js.is_upper c = false).
    { intros c rest ->. exact (toLowerCase_head value c rest Hkey). }
    unfold keywordTerms. rewrite Hkey. cbn in Hin.
    repeat match type of Hin with
           | _ \/ _ => destruct Hin as [ Hin | Hin ]
           end;
      try contradiction;
      injection Hin as <- <-;
      try reflexivity;
      exfalso; (specialize (Hlow _ _ eq_refl)); discriminate.
Qed.

(** ** Exhaustive pagination *)

Lemma seq_snoc_len (i n : nat) : seq i (S n) = (seq i n ++ [(i + n)%nat])%list.
Proof. apply seq_S. Qed.

Lemma flat_map_last {A B : Type} (f : A -> list B) (l : list A) (x : A) :
  flat_map f (l ++ [x]) = (flat_map f l ++ f x)%list.
Proof. rewrite flat_map_app. simpl. now rewrite app_nil_r. Qed.

Section GoogleLoop.

Variable backend : Backend GoogleSearchResponse.
Variable query : string.

(** The loop, started before request [i <= 9], ends after some request
    [n <= 10] with the items of the answers [i .. n-1] appended. *)
Lemma google_while_spec (fuel : nat) :
  forall (i : nat) (acc : list GoogleSearchItem),
    (i <= 9)%nat -> (10 - i <= fuel)%nat ->
    exists (n : nat) (st : Google.PageState),
      (i < n <= 10)%nat /\
      Google.while backend fuel query (google_state acc i) = Some st /\
      Google.calls st = n /\
      Google.allItems st = (acc ++ google_answers backend query i (n - i))%list.
Proof.
  induction fuel as [ | fuel IH ]; intros i acc Hi Hfuel; [ lia | ].
  assert (Hone : google_answers backend query i (S i - i) =
                 google_page (backend i (google_request query i))).
  { replace (S i - i)%nat with 1%nat by lia. unfold google_answers. simpl.
    now rewrite app_nil_r. }
  unfold google_state. cbn [Google.while Google.hasMoreResults].
  unfold Google.page, Google.maxResults.
  cbn [Google.calls Google.startIndex Google.allItems Google.hasMoreResults].
  change {| req_q := query; req_num := 10; req_start := Some (1 + 10 * Z.of_nat i)%Z |}
    with (google_request query i).
  destruct (backend i (google_request query i)) as [ e | status text | e | data ] eqn:E.
  - exists (S i). eexists. split; [ lia | ]. split; [ destruct fuel; reflexivity | ].
    split; [ reflexivity | ]. rewrite Hone. cbn. now rewrite app_nil_r.
  - exists (S i). eexists. split; [ lia | ]. split; [ reflexivity | ].
    split; [ reflexivity | ]. rewrite Hone. cbn. now rewrite app_nil_r.
  - exists (S i). eexists. split; [ lia | ]. split; [ destruct fuel; reflexivity | ].
    split; [ reflexivity | ]. rewrite Hone. cbn. now rewrite app_nil_r.
  - destruct data as [ [ [ | it its ] | ] ]; cbn [items].
    + exists (S i). eexists. split; [ lia | ]. split; [ destruct fuel; reflexivity | ].
      split; [ reflexivity | ]. rewrite Hone. cbn. now rewrite app_nil_r.
    + destruct (Z.of_nat (Datatypes.length (it :: its)) <? 10)%Z eqn:Hshort.
      * exists (S i). eexists. split; [ lia | ].
        split; [ destruct fuel; reflexivity | ].
        split; [ reflexivity | ]. now rewrite Hone.
      * destruct (100 <? 1 + 10 * Z.of_nat i + 10)%Z eqn:Hceil; cbn [negb].
        -- exists (S i). eexists. split; [ lia | ].
           split; [ destruct fuel; reflexivity | ].
           split; [ reflexivity | ]. now rewrite Hone.
        -- apply Z.ltb_ge in Hceil.
           assert (Hi' : (S i <= 9)%nat) by lia.
           destruct (IH (S i) (acc ++ it :: its)%list Hi' ltac:(lia))
             as (n & st & Hn & Hrun & Hcalls & Hitems).
           exists n, st. split; [ lia | ]. split; [ | split; [ assumption | ] ].
           ++ rewrite <- Hrun. f_equal. unfold google_state. f_equal. lia.
           ++ rewrite Hitems, <- app_assoc. f_equal.
              replace (n - i)%nat with (S (n - S i)) by lia.
              unfold google_answers. cbn [seq flat_map]. now rewrite E.
    + exists (S i). eexists. split; [ lia | ]. split; [ destruct fuel; reflexivity | ].
      split; [ reflexivity | ]. rewrite Hone. cbn. now rewrite app_nil_r.
Qed.

(** Termination and result of the exhaustive Google fetch. *)
Lemma google_all_pages (fuel : nat) :
  (10 <= fuel)%nat ->
  exists n : nat,
    (1 <= n <= 10)%nat /\
    Google.executeSearchAllPages backend fuel query =
    Some (Returned {| items := Some (google_answers backend query 0 n) |}, n).
Proof.
  intros Hfuel.
  destruct (google_while_spec fuel 0 [] ltac:(lia) ltac:(lia))
    as (n & st & Hn & Hrun & Hcalls & Hitems).
  exists n. split; [ lia | ].
  unfold Google.executeSearchAllPages.
  change {| Google.allItems := []; Google.startIndex := 1;
            Google.hasMoreResults := true; Google.calls := 0 |}
    with (google_state [] 0).
  rewrite Hrun, Hcalls, Hitems. now rewrite Nat.sub_0_r.
Qed.

End GoogleLoop.

Section SerpLoop.

Variable backend : Backend SerpApiResponse.
Variable query : string.

(** The loop, entered with [page = i <= 10] after [i] requests, ends after
    some request [n <= 10] with the items of the answers [i .. n-1]
    appended. *)
Lemma serp_for_spec (fuel : nat) :
  forall (i : nat) (acc : list SerpApiSearchItem),
    (i <= 10)%nat -> (10 - i <= fuel)%nat ->
    exists (n : nat) (st : Serp.PageState),
      (i <= n <= 10)%nat /\ (i < 10 -> i < n)%nat /\
      Serp.for_pages backend fuel query (Z.of_nat i) (serp_state acc i) = Some st /\
      Serp.calls st = n /\
      Serp.allResults st = (acc ++ serp_answers backend query i (n - i))%list.
Proof.
  induction fuel as [ | fuel IH ]; intros i acc Hi Hfuel.
  - assert (i = 10)%nat as -> by lia. exists 10%nat, (serp_state acc 10).
    repeat split; try lia. cbn. now rewrite app_nil_r.
  - destruct (Nat.eq_dec i 10) as [ -> | Hne ].
    { exists 10%nat, (serp_state acc 10).
      repeat split; try lia. cbn. now rewrite app_nil_r. }
    assert (Hlt : (Z.of_nat i <? 10)%Z = true) by (apply Z.ltb_lt; lia).
    assert (Hone : serp_answers backend query i (S i - i) =
                   serp_page (backend i (serp_request query i))).
    { replace (S i - i)%nat with 1%nat by lia. unfold serp_answers. simpl.
      now rewrite app_nil_r. }
    cbn [Serp.for_pages]. rewrite Hlt. unfold Serp.fetchPage, serp_state.
    cbn [Serp.calls Serp.allResults].
    change {| req_q := query; req_num := 10; req_start := Some (Z.of_nat i * 10)%Z |}
      with (serp_request query i).
    destruct (backend i (serp_request query i)) as [ e | status text | e | data ] eqn:E.
    1-3: exists (S i); eexists; split; [ lia | ]; split; [ lia | ];
         split; [ reflexivity | ]; split; [ reflexivity | ];
         rewrite Hone; cbn; now rewrite app_nil_r.
    destruct data as [ [ [ | it its ] | ] ]; cbn [organic_results].
    1,3: exists (S i); eexists; split; [ lia | ]; split; [ lia | ];
         split; [ reflexivity | ]; split; [ reflexivity | ];
         rewrite Hone; cbn; now rewrite app_nil_r.
    destruct (IH (S i) (acc ++ it :: its)%list ltac:(lia) ltac:(lia))
      as (n & st & Hn & _ & Hrun & Hcalls & Hitems).
    exists n, st. split; [ lia | ]. split; [ lia | ].
    split; [ | split; [ assumption | ] ].
    + rewrite <- Hrun. f_equal. lia.
    + rewrite Hitems, <- app_assoc. f_equal.
      replace (n - i)%nat with (S (n - S i)) by lia.
      unfold serp_answers. cbn [seq flat_map]. now rewrite E.
Qed.

(** Termination and result of the exhaustive SerpAPI fetch. *)
Lemma serp_all_pages (fuel : nat) :
  (10 <= fuel)%nat ->
  exists n : nat,
    (1 <= n <= 10)%nat /\
    Serp.executeSearchAllPages backend fuel query =
    Some (Returned {| organic_results := Some (serp_answers backend query 0 n) |}, n).
Proof.
  intros Hfuel.
  destruct (serp_for_spec fuel 0 [] ltac:(lia) ltac:(lia))
    as (n & st & Hn & Hpos & Hrun & Hcalls & Hitems).
  exists n. split; [ lia | ].
  unfold Serp.executeSearchAllPages.
  change {| Serp.allResults := []; Serp.calls := 0 |} with (serp_state [] 0).
  change 0%Z with (Z.of_nat 0).
  rewrite Hrun, Hcalls, Hitems. now rewrite Nat.sub_0_r.
Qed.

End SerpLoop.

(** The length of the accumulated items when no answer exceeds the cap. *)
Lemma flat_map_length_le {A B : Type} (f : A -> list B) (cap : nat) (l : list A) :
  (forall x, Datatypes.length (f x) <= cap)%nat ->
  (Datatypes.length (flat_map f l) <= cap * Datatypes.length l)%nat.
Proof.
  intros Hcap. induction l as [ | x l IH ]; simpl; [ lia | ].
  rewrite length_app. specialize (Hcap x). lia.
Qed.

(** One iteration of each loop, by the answer it receives. *)

Lemma google_page_full backend query st its :
  backend (Google.calls st)
          {| req_q := query; req_num := 10; req_start := Some (Google.startIndex st) |}
    = Body {| items := Some its |} ->
  (10 <= Datatypes.length its)%nat ->
  Google.page backend query st =
  Next {| Google.allItems := (Google.allItems st ++ its)%list;
          Google.startIndex := (Google.startIndex st + 10)%Z;
          Google.hasMoreResults := negb (100 <? Google.startIndex st + 10)%Z;
          Google.calls := S (Google.calls st) |}.
Proof.
  intros E Hlen. unfold Google.page, Google.maxResults. rewrite E. cbn [items].
  destruct its as [ | it its ]; [ simpl in Hlen; lia | ].
  assert (Hfull : (Z.of_nat (Datatypes.length (it :: its)) <? 10)%Z = false)
    by (apply Z.ltb_ge; lia).
  now rewrite Hfull.
Qed.

Lemma google_page_short backend query st its :
  backend (Google.calls st)
          {| req_q := query; req_num := 10; req_start := Some (Google.startIndex st) |}
    = Body {| items := Some its |} ->
  (0 < Datatypes.length its < 10)%nat ->
  Google.page backend query st =
  Next {| Google.allItems := (Google.allItems st ++ its)%list;
          Google.startIndex := Google.startIndex st;
          Google.hasMoreResults := false;
          Google.calls := S (Google.calls st) |}.
Proof.
  intros E Hlen. unfold Google.page, Google.maxResults. rewrite E. cbn [items].
  destruct its as [ | it its ]; [ simpl in Hlen; lia | ].
  assert (Hshort : (Z.of_nat (Datatypes.length (it :: its)) <? 10)%Z = true)
    by (apply Z.ltb_lt; lia).
  now rewrite Hshort.
Qed.

Lemma serp_fetch_more backend query page st results :
  backend (Serp.calls st)
          {| req_q := query; req_num := 10; req_start := Some (page * 10)%Z |}
    = Body {| organic_results := Some results |} ->
  (0 < Datatypes.length results)%nat ->
  Serp.fetchPage backend query page st =
  Next {| Serp.allResults := (Serp.allResults st ++ results)%list;
          Serp.calls := S (Serp.calls st) |}.
Proof.
  intros E Hlen. unfold Serp.fetchPage. rewrite E. cbn [organic_results].
  destruct results; [ simpl in Hlen; lia | reflexivity ].
Qed.

Lemma serp_fetch_stop backend query page st :
  serp_page (backend (Serp.calls st)
                     {| req_q := query; req_num := 10; req_start := Some (page * 10)%Z |})
    = [] ->
  Serp.fetchPage backend query page st =
  Break {| Serp.allResults := Serp.allResults st; Serp.calls := S (Serp.calls st) |}.
Proof.
  unfold Serp.fetchPage, serp_page.
  destruct (backend _ _) as [ e | status text | e | [ [ [ | it its ] | ] ] ];
    cbn [organic_results]; intros E; try reflexivity. discriminate.
Qed.

(** One turn of each loop on a full page, and the end on a short one. *)

Lemma google_while_full backend fuel query acc start i its :
  backend i {| req_q := query; req_num := 10; req_start := Some start |}
    = Body {| items := Some its |} ->
  (10 <= Datatypes.length its)%nat ->
  Google.while backend (S fuel) query
    {| Google.allItems := acc; Google.startIndex := start;
       Google.hasMoreResults := true; Google.calls := i |} =
  Google.while backend fuel query
    {| Google.allItems := (acc ++ its)%list; Google.startIndex := (start + 10)%Z;
       Google.hasMoreResults := negb (100 <? start + 10)%Z; Google.calls := S i |}.
Proof.
  intros E Hlen. cbn [Google.while Google.hasMoreResults].
  now rewrite (google_page_full backend query
                            {| Google.allItems := acc; Google.startIndex := start;
                               Google.hasMoreResults := true; Google.calls := i |} its E Hlen).
Qed.

Lemma google_while_short backend fuel query acc start i its :
  backend i {| req_q := query; req_num := 10; req_start := Some start |}
    = Body {| items := Some its |} ->
  (0 < Datatypes.length its < 10)%nat ->
  Google.while backend (S fuel) query
    {| Google.allItems := acc; Google.startIndex := start;
       Google.hasMoreResults := true; Google.calls := i |} =
  Some {| Google.allItems := (acc ++ its)%list; Google.startIndex := start;
          Google.hasMoreResults := false; Google.calls := S i |}.
Proof.
  intros E Hlen. cbn [Google.while Google.hasMoreResults].
  rewrite (google_page_short backend query
                        {| Google.allItems := acc; Google.startIndex := start;
                               Google.hasMoreResults := true; Google.calls := i |} its E Hlen).
  now destruct fuel.
Qed.

Lemma serp_for_more backend fuel query page acc i results :
  (page < 10)%Z ->
  backend i {| req_q := query; req_num := 10; req_start := Some (page * 10)%Z |}
    = Body {| organic_results := Some results |} ->
  (0 < Datatypes.length results)%nat ->
  Serp.for_pages backend (S fuel) query page {| Serp.allResults := acc; Serp.calls := i |} =
  Serp.for_pages backend fuel query (page + 1)%Z
    {| Serp.allResults := (acc ++ results)%list; Serp.calls := S i |}.
Proof.
  intros Hpage E Hlen. cbn [Serp.for_pages].
  apply Z.ltb_lt in Hpage. rewrite Hpage.
  now rewrite (serp_fetch_more backend query page {| Serp.allResults := acc; Serp.calls := i |} results E Hlen).
Qed.

Lemma serp_for_stop backend fuel query page acc i :
  (page < 10)%Z ->
  serp_page (backend i {| req_q := query; req_num := 10; req_start := Some (page * 10)%Z |})
    = [] ->
  Serp.for_pages backend (S fuel) query page {| Serp.allResults := acc; Serp.calls := i |} =
  Some {| Serp.allResults := acc; Serp.calls := S i |}.
Proof.
  intros Hpage E. cbn [Serp.for_pages].
  apply Z.ltb_lt in Hpage. rewrite Hpage.
  now rewrite (serp_fetch_stop backend query page {| Serp.allResults := acc; Serp.calls := i |} E).
Qed.

(** ** Exhaustive mode: a short page *)

(** C3, as the code has it.  Given a backend whose first four answers are
    pages of 10, 10, 10 and 7 items, the Google fetcher makes exactly 4
    requests and returns the 37 items in page order, because the short page
    ends its loop.  The SerpAPI fetcher has no such test: it makes a fifth
    request, at least, and returns the four pages followed by whatever the
    later answers carry; it makes exactly 5 requests and returns exactly the
    37 items when the fifth answer is a failure or carries no result. *)
Theorem short_page_ends_pagination :
  forall (google : Backend GoogleSearchResponse) (serp : Backend SerpApiResponse)
         (query : string) (fuel : nat)
         (g1 g2 g3 g4 : list GoogleSearchItem) (s1 s2 s3 s4 : list SerpApiSearchItem),
    (10 <= fuel)%nat ->
    map (@Datatypes.length _) [g1; g2; g3; g4] = [10; 10; 10; 7]%nat ->
    map (@Datatypes.length _) [s1; s2; s3; s4] = [10; 10; 10; 7]%nat ->
    (forall (i : nat) (its : list GoogleSearchItem) (req : Request),
        nth_error [g1; g2; g3; g4] i = Some its ->
        google i req = Body {| items := Some its |}) ->
    (forall (i : nat) (results : list SerpApiSearchItem) (req : Request),
        nth_error [s1; s2; s3; s4] i = Some results ->
        serp i req = Body {| organic_results := Some results |}) ->
    Google.executeSearchAllPages google fuel query =
      Some (Returned {| items := Some (g1 ++ g2 ++ g3 ++ g4)%list |}, 4%nat) /\
    Datatypes.length (g1 ++ g2 ++ g3 ++ g4)%list = 37%nat /\
    exists (n : nat) (later : list SerpApiSearchItem),
      Serp.executeSearchAllPages serp fuel query =
        Some (Returned {| organic_results := Some (s1 ++ s2 ++ s3 ++ s4 ++ later)%list |}, n) /\
      (5 <= n <= 10)%nat /\
      later = serp_answers serp query 4 (n - 4) /\
      (serp_page (serp 4%nat (serp_request query 4)) = [] -> n = 5%nat /\ later = []).
Proof.
  intros google serp query fuel g1 g2 g3 g4 s1 s2 s3 s4 Hfuel Hg Hs HG HS.
  injection Hg as Hg1 Hg2 Hg3 Hg4. injection Hs as Hs1 Hs2 Hs3 Hs4.
  assert (G1 := fun req => HG 0%nat g1 req eq_refl).
  assert (G2 := fun req => HG 1%nat g2 req eq_refl).
  assert (G3 := fun req => HG 2%nat g3 req eq_refl).
  assert (G4 := fun req => HG 3%nat g4 req eq_refl).
  assert (S1 := fun req => HS 0%nat s1 req eq_refl).
  assert (S2 := fun req => HS 1%nat s2 req eq_refl).
  assert (S3 := fun req => HS 2%nat s3 req eq_refl).
  assert (S4 := fun req => HS 3%nat s4 req eq_refl).
  destruct fuel as [ | [ | [ | [ | fuel ] ] ] ]; try lia.
  split; [ | split ].
  - unfold Google.executeSearchAllPages.
    rewrite (google_while_full google _ query _ _ _ g1 (G1 _)) by lia.
    rewrite (google_while_full google _ query _ _ _ g2 (G2 _)) by lia.
    rewrite (google_while_full google _ query _ _ _ g3 (G3 _)) by lia.
    rewrite (google_while_short google _ query _ _ _ g4 (G4 _)) by lia.
    cbn [Google.allItems Google.calls app]. now rewrite <- !app_assoc.
  - rewrite !length_app. lia.
  - unfold Serp.executeSearchAllPages.
    rewrite (serp_for_more serp _ query 0 _ _ s1 ltac:(lia) (S1 _)) by lia.
    rewrite (serp_for_more serp _ query (0 + 1) _ _ s2 ltac:(lia) (S2 _)) by lia.
    rewrite (serp_for_more serp _ query (0 + 1 + 1) _ _ s3 ltac:(lia) (S3 _)) by lia.
    rewrite (serp_for_more serp _ query (0 + 1 + 1 + 1) _ _ s4 ltac:(lia) (S4 _)) by lia.
    cbn [app].
    destruct (serp_for_spec serp query fuel 4 (((s1 ++ s2) ++ s3) ++ s4)%list
                ltac:(lia) ltac:(lia))
      as (n & st & Hn & Hpos & Hrun & Hcalls & Hitems).
    unfold serp_state in Hrun. change (Z.of_nat 4) with (0 + 1 + 1 + 1 + 1)%Z in Hrun.
    rewrite Hrun, Hcalls, Hitems.
    exists n, (serp_answers serp query 4 (n - 4)).
    split; [ now rewrite <- !app_assoc | ].
    split; [ lia | ]. split; [ reflexivity | ].
    intros Hstop.
    destruct fuel as [ | fuel ]; [ lia | ].
    rewrite (serp_for_stop serp fuel query (0 + 1 + 1 + 1 + 1) _ 4 ltac:(lia) Hstop) in Hrun.
    injection Hrun as <-. cbn [Serp.calls] in Hcalls. subst n.
    split; [ reflexivity | ]. unfold serp_answers.
    change (5 - 4)%nat with 1%nat. cbn [seq flat_map]. rewrite app_nil_r. exact Hstop.
Qed.

Lemma short_page_ends_pagination_witness :
  Google.executeSearchAllPages four_pages_google 10 "cto" =
    Some (Returned {| items := Some (google_mock_page 0 10 ++ google_mock_page 1 10 ++
                                     google_mock_page 2 10 ++ google_mock_page 3 7)%list |},
          4%nat) /\
  Serp.executeSearchAllPages four_pages_serp 10 "cto" =
    Some (Returned {| organic_results :=
                        Some (serp_mock_page 0 10 ++ serp_mock_page 1 10 ++
                              serp_mock_page 2 10 ++ serp_mock_page 3 7)%list |},
          5%nat).
Proof.
  destruct (short_page_ends_pagination four_pages_google four_pages_serp "cto" 10
              (google_mock_page 0 10) (google_mock_page 1 10)
              (google_mock_page 2 10) (google_mock_page 3 7)
              (serp_mock_page 0 10) (serp_mock_page 1 10)
              (serp_mock_page 2 10) (serp_mock_page 3 7))
    as (HG & _ & n & later & HS & _ & _ & Hstop).
  - lia.
  - reflexivity.
  - reflexivity.
  - intros i its req H.
    destruct i as [ | [ | [ | [ | i ] ] ] ]; cbn [nth_error] in H;
      [ injection H as <-; reflexivity .. | destruct i; discriminate ].
  - intros i its req H.
    destruct i as [ | [ | [ | [ | i ] ] ] ]; cbn [nth_error] in H;
      [ injection H as <-; reflexivity .. | destruct i; discriminate ].
  - split; [ exact HG | ].
    destruct (Hstop eq_refl) as [ -> -> ].
    rewrite HS. now rewrite app_nil_r.
Defined.

(** C3, as stated, fails on the SerpAPI variant: on the pages 10, 10, 10, 7
    it makes 5 requests, not 4. *)
Lemma serpapi_ignores_short_page :
  serp_summary (Serp.executeSearchAllPages four_pages_serp 10 "cto")
    = Some (5%nat, Some 37%nat) /\
  serp_summary (Serp.executeSearchAllPages four_pages_serp 10 "cto")
    <> Some (4%nat, Some 37%nat) /\
  google_summary (Google.executeSearchAllPages four_pages_google 10 "cto")
    = Some (4%nat, Some 37%nat).
Proof. split; [ | split ]; vm_compute; [ reflexivity | discriminate | reflexivity ]. Qed.

(** ** Exhaustive mode: the ceiling *)

(** C4, as the code has it.  Whatever the backend answers, each exhaustive
    fetcher terminates, without raising, after at least 1 and at most 10
    requests, and returns the items of the answers it received, in order.
    So it returns at most 100 items whenever no answer carries more than the
    10 items asked for; the fetchers do not truncate a longer answer. *)
Theorem exhaustive_fetch_ceiling :
  forall (google : Backend GoogleSearchResponse) (serp : Backend SerpApiResponse)
         (query : string) (fuel : nat),
    (10 <= fuel)%nat ->
    (exists n : nat,
        (1 <= n <= 10)%nat /\
        Google.executeSearchAllPages google fuel query =
          Some (Returned {| items := Some (google_answers google query 0 n) |}, n) /\
        (google_capped google ->
         (Datatypes.length (google_answers google query 0 n) <= 100)%nat)) /\
    (exists n : nat,
        (1 <= n <= 10)%nat /\
        Serp.executeSearchAllPages serp fuel query =
          Some (Returned {| organic_results := Some (serp_answers serp query 0 n) |}, n) /\
        (serp_capped serp ->
         (Datatypes.length (serp_answers serp query 0 n) <= 100)%nat)).
Proof.
  intros google serp query fuel Hfuel. split.
  - destruct (google_all_pages google query fuel Hfuel) as (n & Hn & Hrun).
    exists n. split; [ assumption | ]. split; [ assumption | ].
    intros Hcap. unfold google_answers.
    pose proof (flat_map_length_le
                  (fun i => google_page (google i (google_request query i))) 10 (seq 0 n)
                  (fun i => Hcap i _)) as Hlen.
    rewrite length_seq in Hlen. lia.
  - destruct (serp_all_pages serp query fuel Hfuel) as (n & Hn & Hrun).
    exists n. split; [ assumption | ]. split; [ assumption | ].
    intros Hcap. unfold serp_answers.
    pose proof (flat_map_length_le
                  (fun i => serp_page (serp i (serp_request query i))) 10 (seq 0 n)
                  (fun i => Hcap i _)) as Hlen.
    rewrite length_seq in Hlen. lia.
Qed.

Lemma exhaustive_fetch_ceiling_witness :
  (exists n : nat,
      (1 <= n <= 10)%nat /\
      Google.executeSearchAllPages full_pages_google 10 "cto" =
        Some (Returned {| items := Some (google_answers full_pages_google "cto" 0 n) |}, n) /\
      (Datatypes.length (google_answers full_pages_google "cto" 0 n) <= 100)%nat) /\
  (exists n : nat,
      (1 <= n <= 10)%nat /\
      Serp.executeSearchAllPages full_pages_serp 10 "cto" =
        Some (Returned {| organic_results := Some (serp_answers full_pages_serp "cto" 0 n) |}, n) /\
      (Datatypes.length (serp_answers full_pages_serp "cto" 0 n) <= 100)%nat).
Proof.
  destruct (exhaustive_fetch_ceiling full_pages_google full_pages_serp "cto" 10 (le_n 10))
    as [ (n & Hn & Hrun & Hcap) (m & Hm & Hrun' & Hcap') ].
  split.
  - exists n. repeat split; try assumption; try lia.
    apply Hcap. intros i req. cbn. lia.
  - exists m. repeat split; try assumption; try lia.
    apply Hcap'. intros i req. cbn. lia.
Defined.

(** On full pages of 10 both fetchers stop at the ceiling: 10 requests, 100
    items; the Google cursor would next be 101. *)
Example full_pages_stop_at_the_ceiling :
  google_summary (Google.executeSearchAllPages full_pages_google 10 "cto")
    = Some (10%nat, Some 100%nat) /\
  google_summary (Google.executeSearchAllPages full_pages_google 25 "cto")
    = Some (10%nat, Some 100%nat) /\
  serp_summary (Serp.executeSearchAllPages full_pages_serp 10 "cto")
    = Some (10%nat, Some 100%nat) /\
  Google.executeSearchAllPages full_pages_google 9 "cto" = None.
Proof. repeat split; vm_compute; reflexivity. Qed.

(** C4, as stated, fails for a backend that answers with more items than
    asked for: with pages of 11 items both fetchers return 110 items. *)
Lemma oversized_pages_exceed_ceiling :
  google_summary
    (Google.executeSearchAllPages (google_mock (repeat 11 10)%nat no_more_items) 10 "cto")
    = Some (10%nat, Some 110%nat) /\
  serp_summary
    (Serp.executeSearchAllPages (serp_mock (repeat 11 10)%nat no_more_results) 10 "cto")
    = Some (10%nat, Some 110%nat) /\
  ~ (110 <= 100)%nat.
Proof. split; [ | split ]; [ vm_compute; reflexivity .. | lia ]. Qed.

(** ** Exhaustive mode: a failing page *)

Lemma google_failed_page (r : HttpResult GoogleSearchResponse) :
  is_failure r = true -> google_page r = [].
Proof. now destruct r. Qed.

Lemma serp_failed_page (r : HttpResult SerpApiResponse) :
  is_failure r = true -> serp_page r = [].
Proof. now destruct r. Qed.

(** A failed answer ends each loop with what was accumulated. *)
Lemma google_while_failed backend fuel query acc start i :
  is_failure (backend i {| req_q := query; req_num := 10; req_start := Some start |}) = true ->
  option_map (fun st => (Google.allItems st, Google.calls st))
    (Google.while backend (S fuel) query
       {| Google.allItems := acc; Google.startIndex := start;
          Google.hasMoreResults := true; Google.calls := i |}) = Some (acc, S i).
Proof.
  intros Hfail. cbn [Google.while Google.hasMoreResults].
  unfold Google.page, Google.maxResults.
  cbn [Google.calls Google.startIndex Google.allItems Google.hasMoreResults].
  destruct (backend i _); try discriminate; try reflexivity; now destruct fuel.
Qed.

Lemma serp_for_failed backend fuel query page acc i :
  (page < 10)%Z ->
  is_failure (backend i {| req_q := query; req_num := 10; req_start := Some (page * 10)%Z |})
    = true ->
  Serp.for_pages backend (S fuel) query page {| Serp.allResults := acc; Serp.calls := i |} =
  Some {| Serp.allResults := acc; Serp.calls := S i |}.
Proof.
  intros Hpage Hfail. apply serp_for_stop; [ assumption | ].
  now apply serp_failed_page.
Qed.

(** While the pages are full, the Google loop goes on to the next one. *)
Lemma google_runs_full_pages backend query (k : nat) :
  forall (fuel i : nat) (acc : list GoogleSearchItem),
    (i + k <= 9)%nat ->
    (forall j, (i <= j < i + k)%nat ->
               exists its, backend j (google_request query j) = Body {| items := Some its |} /\
                           (10 <= Datatypes.length its)%nat) ->
    Google.while backend (k + fuel) query (google_state acc i) =
    Google.while backend fuel query
      (google_state (acc ++ google_answers backend query i k) (i + k)).
Proof.
  induction k as [ | k IH ]; intros fuel i acc Hk Hfull.
  - unfold google_answers. cbn [seq flat_map Nat.add]. now rewrite app_nil_r, Nat.add_0_r.
  - destruct (Hfull i ltac:(lia)) as (its & E & Hlen).
    cbn [Nat.add]. unfold google_state at 1.
    rewrite (google_while_full backend _ query acc _ i its E Hlen).
    replace (negb (100 <? 1 + 10 * Z.of_nat i + 10)%Z) with true
      by (symmetry; apply negb_true_iff, Z.ltb_ge; lia).
    replace (1 + 10 * Z.of_nat i + 10)%Z with (1 + 10 * Z.of_nat (S i))%Z by lia.
    fold (google_state (acc ++ its) (S i)).
    rewrite (IH fuel (S i) (acc ++ its)%list) by (try lia; intros j Hj; apply Hfull; lia).
    f_equal. unfold google_answers. cbn [seq flat_map]. rewrite E. cbn [google_page].
    rewrite <- app_assoc. f_equal. lia.
Qed.

(** While the pages are not empty, the SerpAPI loop goes on to the next one. *)
Lemma serp_runs_pages backend query (k : nat) :
  forall (fuel i : nat) (acc : list SerpApiSearchItem),
    (i + k <= 10)%nat ->
    (forall j, (i <= j < i + k)%nat ->
               exists results,
                 backend j (serp_request query j) = Body {| organic_results := Some results |} /\
                 (0 < Datatypes.length results)%nat) ->
    Serp.for_pages backend (k + fuel) query (Z.of_nat i) (serp_state acc i) =
    Serp.for_pages backend fuel query (Z.of_nat (i + k))
      (serp_state (acc ++ serp_answers backend query i k) (i + k)).
Proof.
  induction k as [ | k IH ]; intros fuel i acc Hk Hfull.
  - unfold serp_answers. cbn [seq flat_map Nat.add]. now rewrite app_nil_r, Nat.add_0_r.
  - destruct (Hfull i ltac:(lia)) as (results & E & Hlen).
    cbn [Nat.add]. unfold serp_state at 1.
    rewrite (serp_for_more backend _ query (Z.of_nat i) acc i results ltac:(lia) E Hlen).
    replace (Z.of_nat i + 1)%Z with (Z.of_nat (S i)) by lia.
    fold (serp_state (acc ++ results) (S i)).
    rewrite (IH fuel (S i) (acc ++ results)%list) by (try lia; intros j Hj; apply Hfull; lia).
    replace (S i + k)%nat with (i + S k)%nat by lia.
    f_equal. unfold serp_answers. cbn [seq flat_map]. rewrite E. cbn [serp_page].
    now rewrite <- app_assoc.
Qed.

(** The failing request [k+1] is reached, and ends the fetch, whenever the
    pages before it let pagination go on. *)
Lemma google_stops_at_failed_page backend query (fuel k : nat) :
  (10 <= fuel)%nat -> (k <= 9)%nat ->
  (forall j, (j < k)%nat ->
             exists its, backend j (google_request query j) = Body {| items := Some its |} /\
                         (10 <= Datatypes.length its)%nat) ->
  is_failure (backend k (google_request query k)) = true ->
  Google.executeSearchAllPages backend fuel query =
  Some (Returned {| items := Some (google_answers backend query 0 k) |}, S k).
Proof.
  intros Hfuel Hk Hfull Hfail. unfold Google.executeSearchAllPages.
  change {| Google.allItems := []; Google.startIndex := 1;
            Google.hasMoreResults := true; Google.calls := 0 |} with (google_state [] 0).
  replace fuel with (k + S (fuel - S k))%nat by lia.
  rewrite (google_runs_full_pages backend query k) by (try lia; intros j Hj; apply Hfull; lia).
  cbn [Nat.add app]. unfold google_state.
  pose proof (google_while_failed backend (fuel - S k) query
                (google_answers backend query 0 k) _ k Hfail) as H.
  destruct (Google.while _ _ _ _) as [ st | ]; [ | discriminate ].
  cbn [option_map] in H. injection H as -> ->. reflexivity.
Qed.

Lemma serp_stops_at_failed_page backend query (fuel k : nat) :
  (10 <= fuel)%nat -> (k <= 9)%nat ->
  (forall j, (j < k)%nat ->
             exists results,
               backend j (serp_request query j) = Body {| organic_results := Some results |} /\
               (0 < Datatypes.length results)%nat) ->
  is_failure (backend k (serp_request query k)) = true ->
  Serp.executeSearchAllPages backend fuel query =
  Some (Returned {| organic_results := Some (serp_answers backend query 0 k) |}, S k).
Proof.
  intros Hfuel Hk Hfull Hfail. unfold Serp.executeSearchAllPages.
  change {| Serp.allResults := []; Serp.calls := 0 |} with (serp_state [] 0).
  change 0%Z with (Z.of_nat 0).
  replace fuel with (k + S (fuel - S k))%nat by lia.
  rewrite (serp_runs_pages backend query k) by (try lia; intros j Hj; apply Hfull; lia).
  cbn [Nat.add app]. unfold serp_state.
  now rewrite (serp_for_failed backend _ query (Z.of_nat k) _ k ltac:(lia) Hfail).
Qed.

(** C5.  In exhaustive mode, if the requests for the pages 1 to k succeed
    and the request for page k+1 fails (by its status, in transport, or in
    parsing), the fetcher returns, without raising, exactly the items of the
    pages 1 to k in order; this holds for the Google fetcher and for the
    SerpAPI fetcher.  The first two parts state it for any run in which the
    failing request k+1 is made; the last two show that this request is made,
    for every k up to 9, when the pages before it let pagination go on (full
    pages for Google, pages that are not empty for SerpAPI). *)
Theorem partial_failure_returns_accumulated :
  forall (google : Backend GoogleSearchResponse) (serp : Backend SerpApiResponse)
         (query : string) (fuel k : nat),
    (10 <= fuel)%nat ->
    ((forall i, (i < k)%nat -> is_failure (google i (google_request query i)) = false) ->
     is_failure (google k (google_request query k)) = true ->
     option_map snd (Google.executeSearchAllPages google fuel query) = Some (S k) ->
     Google.executeSearchAllPages google fuel query =
       Some (Returned {| items := Some (google_answers google query 0 k) |}, S k)) /\
    ((forall i, (i < k)%nat -> is_failure (serp i (serp_request query i)) = false) ->
     is_failure (serp k (serp_request query k)) = true ->
     option_map snd (Serp.executeSearchAllPages serp fuel query) = Some (S k) ->
     Serp.executeSearchAllPages serp fuel query =
       Some (Returned {| organic_results := Some (serp_answers serp query 0 k) |}, S k)) /\
    ((k <= 9)%nat ->
     (forall i, (i < k)%nat ->
                exists its, google i (google_request query i) = Body {| items := Some its |} /\
                            (10 <= Datatypes.length its)%nat) ->
     is_failure (google k (google_request query k)) = true ->
     Google.executeSearchAllPages google fuel query =
       Some (Returned {| items := Some (google_answers google query 0 k) |}, S k)) /\
    ((k <= 9)%nat ->
     (forall i, (i < k)%nat ->
                exists results,
                  serp i (serp_request query i) = Body {| organic_results := Some results |} /\
                  (0 < Datatypes.length results)%nat) ->
     is_failure (serp k (serp_request query k)) = true ->
     Serp.executeSearchAllPages serp fuel query =
       Some (Returned {| organic_results := Some (serp_answers serp query 0 k) |}, S k)).
Proof.
  intros google serp query fuel k Hfuel.
  split; [ | split; [ | split ] ].
  - intros _ Hfail Hcount.
    destruct (google_all_pages google query fuel Hfuel) as (n & _ & Hrun).
    rewrite Hrun in Hcount |- *. injection Hcount as ->.
    unfold google_answers. rewrite seq_S, flat_map_last. cbn [Nat.add].
    now rewrite (google_failed_page _ Hfail), app_nil_r.
  - intros _ Hfail Hcount.
    destruct (serp_all_pages serp query fuel Hfuel) as (n & _ & Hrun).
    rewrite Hrun in Hcount |- *. injection Hcount as ->.
    unfold serp_answers. rewrite seq_S, flat_map_last. cbn [Nat.add].
    now rewrite (serp_failed_page _ Hfail), app_nil_r.
  - intros Hk Hfull Hfail. now apply google_stops_at_failed_page.
  - intros Hk Hfull Hfail. now apply serp_stops_at_failed_page.
Qed.

Lemma partial_failure_returns_accumulated_witness :
  Google.executeSearchAllPages two_pages_then_503 10 "cto" =
    Some (Returned {| items := Some (google_mock_page 0 10 ++ google_mock_page 1 10)%list |},
          3%nat) /\
  Serp.executeSearchAllPages two_pages_then_reset 10 "cto" =
    Some (Returned {| organic_results :=
                        Some (serp_mock_page 0 10 ++ serp_mock_page 1 4)%list |},
          3%nat) /\
  Google.executeSearchAllPages two_pages_then_503 10 "cto" =
    Some (Returned {| items := Some (google_answers two_pages_then_503 "cto" 0 2) |},
          3%nat) /\
  Serp.executeSearchAllPages two_pages_then_reset 10 "cto" =
    Some (Returned {| organic_results := Some (serp_answers two_pages_then_reset "cto" 0 2) |},
          3%nat).
Proof.
  destruct (partial_failure_returns_accumulated
              two_pages_then_503 two_pages_then_reset "cto" 10 2 (le_n 10))
    as (HG & HS & HG' & HS').
  split; [ | split; [ | split ] ].
  - rewrite HG.
    + reflexivity.
    + intros i Hi. destruct i as [ | [ | i ] ]; [ reflexivity | reflexivity | lia ].
    + reflexivity.
    + reflexivity.
  - rewrite HS.
    + reflexivity.
    + intros i Hi. destruct i as [ | [ | i ] ]; [ reflexivity | reflexivity | lia ].
    + reflexivity.
    + reflexivity.
  - apply HG'.
    + lia.
    + intros i Hi. exists (google_mock_page i 10).
      destruct i as [ | [ | i ] ]; [ split; [ reflexivity | cbn; lia ] .. | lia ].
    + reflexivity.
  - apply HS'.
    + lia.
    + intros i Hi. destruct i as [ | [ | i ] ]; [ | | lia ].
      * exists (serp_mock_page 0 10). split; [ reflexivity | cbn; lia ].
      * exists (serp_mock_page 1 4). split; [ reflexivity | cbn; lia ].
    + reflexivity.
Defined.

(** ** Bounded mode *)

(** C6, as the code has it.  In bounded mode the Google fetcher raises an
    error when its one request fails and returns the parsed body otherwise,
    so a failure is never mistaken for a page without results.  The SerpAPI
    fetcher catches the failure and returns an empty [organic_results]: the
    caller receives what a successful request with zero results gives. *)
Theorem bounded_fetch_failure :
  forall (google : Backend GoogleSearchResponse) (serp : Backend SerpApiResponse)
         (query : string) (numResults : Z) (calls : nat),
    (is_failure (google calls (google_bounded_request query numResults)) = true ->
     exists e : JsError,
       Google.executeSearch google query numResults calls = (Thrown e, S calls)) /\
    (forall data : GoogleSearchResponse,
        google calls (google_bounded_request query numResults) = Body data ->
        Google.executeSearch google query numResults calls = (Returned data, S calls)) /\
    (is_failure (serp calls (serp_bounded_request query numResults)) = true ->
     Serp.executeSearch serp query numResults calls =
       (Returned {| organic_results := Some [] |}, S calls)) /\
    (forall data : SerpApiResponse,
        serp calls (serp_bounded_request query numResults) = Body data ->
        Serp.executeSearch serp query numResults calls = (Returned data, S calls)).
Proof.
  intros google serp query numResults calls.
  unfold Google.executeSearch, Serp.executeSearch.
  fold (google_bounded_request query numResults).
  fold (serp_bounded_request query numResults).
  repeat split.
  - destruct (google calls _); intros H; try discriminate; eexists; reflexivity.
  - now intros data ->.
  - destruct (serp calls _); intros H; try discriminate; reflexivity.
  - now intros data ->.
Qed.

Lemma bounded_fetch_failure_witness :
  (exists e : JsError,
      Google.executeSearch (always service_unavailable) "cto" 10 0 = (Thrown e, 1%nat)) /\
  Google.executeSearch (always no_more_items) "cto" 10 0 =
    (Returned {| items := None |}, 1%nat) /\
  Serp.executeSearch (always connection_reset) "cto" 10 0 =
    (Returned {| organic_results := Some [] |}, 1%nat) /\
  Serp.executeSearch (always no_more_results) "cto" 10 0 =
    (Returned {| organic_results := Some [] |}, 1%nat).
Proof.
  destruct (bounded_fetch_failure (always service_unavailable) (always connection_reset)
              "cto" 10 0) as (HG & _ & HS & _).
  destruct (bounded_fetch_failure (always no_more_items) (always no_more_results)
              "cto" 10 0) as (_ & HG' & _ & HS').
  split; [ exact (HG eq_refl) | ].
  split; [ exact (HG' _ eq_refl) | ].
  split; [ exact (HS eq_refl) | exact (HS' _ eq_refl) ].
Defined.

(** C6, as stated, fails on the SerpAPI variant: a failed request and a
    successful request without results give the caller the same value, and
    the same empty list of profiles. *)
Lemma serpapi_bounded_failure_is_silent :
  is_failure (@service_unavailable SerpApiResponse) = true /\
  is_failure no_more_results = false /\
  Serp.searchCtoProfiles (always service_unavailable) 10 None None None None false =
  Serp.searchCtoProfiles (always no_more_results) 10 None None None None false /\
  Serp.executeSearch (always service_unavailable) "cto" 10 0 =
    (Returned {| organic_results := Some [] |}, 1%nat) /\
  Alternate.extractProfilesFromSerpApi {| organic_results := Some [] |} "" = [].
Proof. repeat split. Qed.

(** * Further properties *)

(** ** The matcher and what a pattern matches *)

Lemma run_eps fuel pos s cap k : run fuel Eps pos s cap k = k pos s cap.
Proof. now destruct fuel. Qed.

Lemma run_class fuel p pos s cap k :
  run fuel (Class p) pos s cap k =
  match s with
  | String c s' => if p c then k (S pos) s' cap else None
  | EmptyString => None
  end.
Proof. now destruct fuel. Qed.

Lemma run_cat fuel r1 r2 pos s cap k :
  run fuel (Cat r1 r2) pos s cap k =
  run fuel r1 pos s cap (fun pos' s' cap' => run fuel r2 pos' s' cap' k).
Proof. now destruct fuel. Qed.

Lemma run_or fuel r1 r2 pos s cap k :
  run fuel (Or r1 r2) pos s cap k =
  match run fuel r1 pos s cap k with
  | Some o => Some o
  | None => run fuel r2 pos s cap k
  end.
Proof. now destruct fuel. Qed.

Lemma run_star_0 r pos s cap k : run 0 (Star r) pos s cap k = k pos s cap.
Proof. reflexivity. Qed.

Lemma run_star_S fuel r pos s cap k :
  run (S fuel) (Star r) pos s cap k =
  match run (S fuel) r pos s cap
          (fun pos' s' cap' =>
             if (pos' =? pos)%nat then None else run fuel (Star r) pos' s' cap' k) with
  | Some o => Some o
  | None => k pos s cap
  end.
Proof. reflexivity. Qed.

Lemma run_group fuel r pos s cap k :
  run fuel (Group r) pos s cap k =
  run fuel r pos s cap (fun pos' s' _ => k pos' s' (Some (take (pos' - pos) s))).
Proof. now destruct fuel. Qed.

Lemma run_bol fuel pos s cap k :
  run fuel Bol pos s cap k = if (pos =? 0)%nat then k pos s cap else None.
Proof. now destruct fuel. Qed.

Lemma take_app (s1 s2 : string) : take (String.length s1) (s1 ++ s2) = s1.
Proof. induction s1 as [ | c s1 IH ]; simpl; [ now destruct s2 | now rewrite IH ]. Qed.

Lemma string_app_nil_r (s : string) : s ++ "" = s.
Proof. induction s as [ | c s IH ]; simpl; [ reflexivity | now rewrite IH ]. Qed.

Lemma string_app_assoc (s1 s2 s3 : string) : (s1 ++ s2) ++ s3 = s1 ++ s2 ++ s3.
Proof. induction s1 as [ | c s1 IH ]; simpl; [ reflexivity | now rewrite IH ]. Qed.

Lemma string_app_length (s1 s2 : string) :
  String.length (s1 ++ s2) = (String.length s1 + String.length s2)%nat.
Proof. induction s1 as [ | c s1 IH ]; simpl; [ reflexivity | now rewrite IH ]. Qed.

(** Soundness: a successful run has matched a prefix of its input and has
    passed the rest to its continuation. *)
Lemma run_sound (fuel : nat) :
  forall (r : regex) (pos : nat) (s : string) (cap : option string) (k : cont)
         (o : outcome),
    run fuel r pos s cap k = Some o ->
    exists (s1 s2 : string) (cap' : option string),
      s = s1 ++ s2 /\ matches r pos s1 cap cap' /\
      k (pos + String.length s1)%nat s2 cap' = Some o.
Proof.
  induction fuel as [ | fuel IHfuel ].
  - induction r as [ | p | r1 IH1 r2 IH2 | r1 IH1 r2 IH2 | r1 IH1 | r1 IH1 | ];
      intros pos s cap k o H.
    + rewrite run_eps in H. exists "", s, cap. rewrite Nat.add_0_r.
      repeat split; [ constructor | assumption ].
    + rewrite run_class in H. destruct s as [ | c s ]; [ discriminate | ].
      destruct (p c) eqn:Hp; [ | discriminate ].
      exists (String c ""), s, cap. simpl. rewrite Nat.add_1_r.
      repeat split; [ now constructor | assumption ].
    + rewrite run_cat in H.
      destruct (IH1 _ _ _ _ _ H) as (s1 & s2 & cap1 & -> & M1 & H1).
      destruct (IH2 _ _ _ _ _ H1) as (s3 & s4 & cap2 & -> & M2 & H2).
      exists (s1 ++ s3), s4, cap2. rewrite string_app_assoc, string_app_length, Nat.add_assoc.
      repeat split; [ econstructor; eassumption | assumption ].
    + rewrite run_or in H. destruct (run 0 r1 pos s cap k) eqn:E.
      * injection H as <-. destruct (IH1 _ _ _ _ _ E) as (s1 & s2 & cap1 & -> & M1 & H1).
        exists s1, s2, cap1. repeat split; [ now apply matches_or_left | assumption ].
      * destruct (IH2 _ _ _ _ _ H) as (s1 & s2 & cap1 & -> & M1 & H1).
        exists s1, s2, cap1. repeat split; [ now apply matches_or_right | assumption ].
    + rewrite run_star_0 in H. exists "", s, cap. rewrite Nat.add_0_r.
      repeat split; [ constructor | assumption ].
    + rewrite run_group in H.
      destruct (IH1 _ _ _ _ _ H) as (s1 & s2 & cap1 & -> & M1 & H1).
      exists s1, s2, (Some s1). repeat split; [ econstructor; eassumption | ].
      replace (pos + String.length s1 - pos)%nat with (String.length s1) in H1 by lia.
      now rewrite take_app in H1.
    + rewrite run_bol in H. destruct (pos =? 0)%nat eqn:E; [ | discriminate ].
      apply Nat.eqb_eq in E. subst pos. exists "", s, cap.
      repeat split; [ constructor | assumption ].
  - induction r as [ | p | r1 IH1 r2 IH2 | r1 IH1 r2 IH2 | r1 IH1 | r1 IH1 | ];
      intros pos s cap k o H.
    + rewrite run_eps in H. exists "", s, cap. rewrite Nat.add_0_r.
      repeat split; [ constructor | assumption ].
    + rewrite run_class in H. destruct s as [ | c s ]; [ discriminate | ].
      destruct (p c) eqn:Hp; [ | discriminate ].
      exists (String c ""), s, cap. simpl. rewrite Nat.add_1_r.
      repeat split; [ now constructor | assumption ].
    + rewrite run_cat in H.
      destruct (IH1 _ _ _ _ _ H) as (s1 & s2 & cap1 & -> & M1 & H1).
      destruct (IH2 _ _ _ _ _ H1) as (s3 & s4 & cap2 & -> & M2 & H2).
      exists (s1 ++ s3), s4, cap2. rewrite string_app_assoc, string_app_length, Nat.add_assoc.
      repeat split; [ econstructor; eassumption | assumption ].
    + rewrite run_or in H. destruct (run (S fuel) r1 pos s cap k) eqn:E.
      * injection H as <-. destruct (IH1 _ _ _ _ _ E) as (s1 & s2 & cap1 & -> & M1 & H1).
        exists s1, s2, cap1. repeat split; [ now apply matches_or_left | assumption ].
      * destruct (IH2 _ _ _ _ _ H) as (s1 & s2 & cap1 & -> & M1 & H1).
        exists s1, s2, cap1. repeat split; [ now apply matches_or_right | assumption ].
    + rewrite run_star_S in H.
      destruct (run (S fuel) r1 pos s cap _) eqn:E.
      * injection H as <-.
        destruct (IH1 _ _ _ _ _ E) as (s1 & s2 & cap1 & -> & M1 & H1).
        destruct (pos + String.length s1 =? pos)%nat eqn:Hpos; [ discriminate | ].
        apply Nat.eqb_neq in Hpos.
        destruct (IHfuel _ _ _ _ _ _ H1) as (s3 & s4 & cap2 & -> & M2 & H2).
        exists (s1 ++ s3), s4, cap2.
        rewrite string_app_assoc, string_app_length, Nat.add_assoc.
        repeat split; [ | assumption ].
        apply matches_star_more with (cap1 := cap1); try assumption.
        intros ->. simpl in Hpos. lia.
      * exists "", s, cap. rewrite Nat.add_0_r.
        repeat split; [ constructor | assumption ].
    + rewrite run_group in H.
      destruct (IH1 _ _ _ _ _ H) as (s1 & s2 & cap1 & -> & M1 & H1).
      exists s1, s2, (Some s1). repeat split; [ econstructor; eassumption | ].
      replace (pos + String.length s1 - pos)%nat with (String.length s1) in H1 by lia.
      now rewrite take_app in H1.
    + rewrite run_bol in H. destruct (pos =? 0)%nat eqn:E; [ | discriminate ].
      apply Nat.eqb_eq in E. subst pos. exists "", s, cap.
      repeat split; [ constructor | assumption ].
Qed.

(** Completeness: when a pattern matches a prefix of the input and the
    continuation accepts what follows, the run succeeds (with the first
    success in its order, which may be another one). *)
Lemma run_complete (r : regex) (pos : nat) (s1 : string) (cap cap' : option string) :
  matches r pos s1 cap cap' ->
  forall (fuel : nat) (s2 : string) (k : cont),
    (String.length (s1 ++ s2) < fuel)%nat ->
    k (pos + String.length s1)%nat s2 cap' <> None ->
    run fuel r pos (s1 ++ s2) cap k <> None.
Proof.
  induction 1 as [ pos cap | p pos c cap Hp
                 | r1 r2 pos s1 s2 cap cap1 cap2 M1 IH1 M2 IH2
                 | r1 r2 pos s cap cap' M IH | r1 r2 pos s cap cap' M IH
                 | r pos cap | r pos s1 s2 cap cap1 cap2 Hne M1 IH1 M2 IH2
                 | r pos s cap cap' M IH | cap ];
    intros fuel s3 k Hfuel Hk.
  - rewrite run_eps. now rewrite Nat.add_0_r in Hk.
  - rewrite run_class. simpl. rewrite Hp. simpl in Hk. now rewrite Nat.add_1_r in Hk.
  - rewrite run_cat, string_app_assoc. rewrite string_app_assoc in Hfuel.
    apply IH1; [ assumption | ].
    apply IH2; [ rewrite string_app_length in Hfuel; lia | ].
    now rewrite string_app_length, Nat.add_assoc in Hk.
  - rewrite run_or. destruct (run fuel r1 pos (s ++ s3) cap k) eqn:E; [ discriminate | ].
    now apply (IH fuel s3 k) in Hk.
  - rewrite run_or. destruct (run fuel r1 pos (s ++ s3) cap k) eqn:E; [ discriminate | ].
    now apply IH.
  - rewrite Nat.add_0_r in Hk. destruct fuel as [ | fuel ].
    + now rewrite run_star_0.
    + rewrite run_star_S. now destruct (run (S fuel) r pos _ cap _).
  - assert (Hlen : (0 < String.length s1)%nat) by (destruct s1; [ congruence | simpl; lia ]).
    rewrite string_app_assoc in Hfuel |- *.
    destruct fuel as [ | fuel ]; [ lia | ].
    rewrite run_star_S.
    destruct (run (S fuel) r pos (s1 ++ s2 ++ s3) cap _) eqn:E; [ discriminate | ].
    exfalso. revert E. apply IH1; [ assumption | ].
    replace (pos + String.length s1 =? pos)%nat with false
      by (symmetry; apply Nat.eqb_neq; lia).
    apply IH2; [ rewrite string_app_length in Hfuel; lia | ].
    now rewrite string_app_length, Nat.add_assoc in Hk.
  - rewrite run_group. apply IH; [ assumption | ].
    replace (pos + String.length s - pos)%nat with (String.length s) by lia.
    now rewrite take_app.
  - now rewrite run_bol.
Qed.

Lemma attempt_sound (r : regex) (pos : nat) (s : string) (pos' : nat) (cap : option string) :
  attempt r pos s = Some (pos', cap) ->
  exists m post : string,
    s = m ++ post /\ matches r pos m None cap /\ pos' = (pos + String.length m)%nat.
Proof.
  unfold attempt. intros H.
  destruct (run_sound _ _ _ _ _ _ _ H) as (m & post & cap' & -> & M & E).
  injection E as <- <-. now exists m, post.
Qed.

Lemma attempt_complete (r : regex) (pos : nat) (m post : string) (cap : option string) :
  matches r pos m None cap -> attempt r pos (m ++ post) <> None.
Proof.
  intros M. unfold attempt. apply (run_complete _ _ _ _ _ M); [ lia | discriminate ].
Qed.

Lemma attempt_whole (r : regex) (pos : nat) (s : string) (pos' : nat) (cap : option string) :
  attempt r pos s = Some (pos', cap) ->
  exists post : string,
    s = take (pos' - pos) s ++ post /\ matches r pos (take (pos' - pos) s) None cap.
Proof.
  intros E. destruct (attempt_sound _ _ _ _ _ E) as (m & post & -> & M & ->).
  replace (pos + String.length m - pos)%nat with (String.length m) by lia.
  rewrite take_app. now exists post.
Qed.

(** The first match of a search and where it lies in the text. *)
Lemma search_from_sound (r : regex) (s : string) :
  forall (pos : nat) (res : result),
    search_from r pos s = Some res ->
    exists pre post : string,
      s = pre ++ whole res ++ post /\
      matches r (pos + String.length pre) (whole res) None (group1 res).
Proof.
  induction s as [ | c s IH ]; intros pos res H; cbn [search_from] in H.
  - destruct (attempt r pos "") as [ [ pos' cap ] | ] eqn:E; [ | discriminate ].
    injection H as <-. cbn [whole group1].
    destruct (attempt_whole _ _ _ _ _ E) as (post & Hs & M).
    exists "", post. rewrite Nat.add_0_r. now split.
  - destruct (attempt r pos (String c s)) as [ [ pos' cap ] | ] eqn:E.
    + injection H as <-. cbn [whole group1].
      destruct (attempt_whole _ _ _ _ _ E) as (post & Hs & M).
      exists "", post. rewrite Nat.add_0_r. now split.
    + destruct (IH _ _ H) as (pre & post & -> & M).
      exists (String c pre), post. split; [ reflexivity | ].
      simpl. now rewrite Nat.add_succ_r.
Qed.

Lemma search_from_complete (r : regex) (pre : string) :
  forall (pos : nat) (m post : string) (cap : option string),
    matches r (pos + String.length pre) m None cap ->
    search_from r pos (pre ++ m ++ post) <> None.
Proof.
  induction pre as [ | c pre IH ]; intros pos m post cap M.
  - simpl in *. rewrite Nat.add_0_r in M.
    pose proof (attempt_complete r pos m post cap M) as Ha.
    destruct (m ++ post) eqn:Es; cbn [search_from];
      destruct (attempt r pos _) as [ [ pos' cap' ] | ]; try discriminate; now elim Ha.
  - cbn [append search_from].
    destruct (attempt r pos _) as [ [ pos' cap' ] | ]; [ discriminate | ].
    apply (IH (S pos) m post cap). now rewrite Nat.add_succ_comm.
Qed.

(** [r.test(s)] holds exactly when [r] matches some piece of [s]. *)
Lemma test_spec (r : regex) (s : string) :
  Regex.test r s = true <->
  exists (pre m post : string) (cap : option string),
    s = pre ++ m ++ post /\ matches r (String.length pre) m None cap.
Proof.
  unfold Regex.test, Regex.exec. split.
  - destruct (search_from r 0 s) as [ res | ] eqn:E; [ intros _ | discriminate ].
    destruct (search_from_sound _ _ _ _ E) as (pre & post & Hs & M).
    now exists pre, (whole res), post, (group1 res).
  - intros (pre & m & post & cap & -> & M).
    pose proof (search_from_complete r pre 0 m post cap M) as H.
    now destruct (search_from r 0 _).
Qed.

(** ** Literals and options *)

Lemma matches_cat_inv (r1 r2 : regex) (pos : nat) (s : string) (cap cap2 : option string) :
  matches (Cat r1 r2) pos s cap cap2 ->
  exists (s1 s2 : string) (cap1 : option string),
    s = s1 ++ s2 /\ matches r1 pos s1 cap cap1 /\
    matches r2 (pos + String.length s1) s2 cap1 cap2.
Proof. inversion 1; subst. eauto 7. Qed.

Lemma matches_or_inv (r1 r2 : regex) (pos : nat) (s : string) (cap cap' : option string) :
  matches (Or r1 r2) pos s cap cap' ->
  matches r1 pos s cap cap' \/ matches r2 pos s cap cap'.
Proof. inversion 1; subst; auto. Qed.

Lemma matches_group_inv (r : regex) (pos : nat) (s : string) (cap cap' : option string) :
  matches (Group r) pos s cap cap' ->
  cap' = Some s /\ exists cap1, matches r pos s cap cap1.
Proof. inversion 1; subst. eauto. Qed.

Lemma matches_class_inv (p : ascii -> bool) (pos : nat) (s : string)
      (cap cap' : option string) :
  matches (Class p) pos s cap cap' ->
  exists c, s = String c "" /\ p c = true /\ cap' = cap.
Proof. inversion 1; subst. eauto. Qed.

Lemma matches_eps_inv (pos : nat) (s : string) (cap cap' : option string) :
  matches Eps pos s cap cap' -> s = "" /\ cap' = cap.
Proof. inversion 1; subst. auto. Qed.

Lemma matches_lit_inv (w : string) :
  forall (pos : nat) (s : string) (cap cap' : option string),
    matches (Lit w) pos s cap cap' -> s = w /\ cap' = cap.
Proof.
  induction w as [ | c w IH ]; intros pos s cap cap' M.
  - inversion M; subst. now split.
  - destruct w as [ | c' w ].
    + inversion M as [ | p pos0 c0 cap0 Hp | | | | | | | ]; subst.
      apply Ascii.eqb_eq in Hp. subst. now split.
    + change (Lit (String c (String c' w))) with (Cat (Chr c) (Lit (String c' w))) in M.
      inversion M as [ | | r1 r2 pos0 s1 s2 cap0 cap1 cap2 M1 M2 | | | | | | ]; subst.
      inversion M1 as [ | p pos0 c0 cap0 Hp | | | | | | | ]; subst.
      apply Ascii.eqb_eq in Hp. subst.
      destruct (IH _ _ _ _ M2) as [ -> -> ]. now split.
Qed.

Lemma matches_lit (w : string) :
  forall (pos : nat) (cap : option string), matches (Lit w) pos w cap cap.
Proof.
  induction w as [ | c w IH ]; intros pos cap.
  - constructor.
  - destruct w as [ | c' w ].
    + constructor. apply Ascii.eqb_refl.
    + change (Lit (String c (String c' w))) with (Cat (Chr c) (Lit (String c' w))).
      change (String c (String c' w)) with (String c "" ++ String c' w).
      apply matches_cat with (cap1 := cap); [ constructor; apply Ascii.eqb_refl | apply IH ].
Qed.

Lemma matches_opt_lit_inv (w : string) (pos : nat) (s : string) (cap cap' : option string) :
  matches (Opt (Lit w)) pos s cap cap' -> (s = w \/ s = "") /\ cap' = cap.
Proof.
  intros M. apply matches_or_inv in M. destruct M as [ M | M ].
  - destruct (matches_lit_inv _ _ _ _ _ M) as [ -> -> ]. auto.
  - destruct (matches_eps_inv _ _ _ _ M) as [ -> -> ]. auto.
Qed.

Lemma matches_plus_class_inv (p : ascii -> bool) (pos : nat) (s : string)
      (cap cap' : option string) :
  matches (Plus (Class p)) pos s cap cap' ->
  exists (c : ascii) (rest : string), s = String c rest /\ p c = true.
Proof.
  intros M. apply matches_cat_inv in M. destruct M as (s1 & s2 & cap1 & -> & M1 & _).
  apply matches_class_inv in M1. destruct M1 as (c & -> & Hp & _).
  now exists c, s2.
Qed.

(** ** The profile link pattern *)

Lemma matches_profile_link (secure www : bool) (c : ascii) (pos : nat) :
  handle_char c = true ->
  matches linkedinUrlPattern pos (profile_link secure www c) None None.
Proof.
  intros Hc. unfold linkedinUrlPattern, profile_link. cbn [Seq].
  apply matches_cat with (cap1 := None); [ apply matches_lit | ].
  apply matches_cat with (cap1 := None).
  { destruct secure; [ apply matches_or_left, (matches_lit "s") | apply matches_or_right; constructor ]. }
  apply matches_cat with (cap1 := None); [ apply matches_lit | ].
  apply matches_cat with (cap1 := None).
  { destruct www; [ apply matches_or_left, matches_lit | apply matches_or_right; constructor ]. }
  apply matches_cat with (cap1 := None); [ apply matches_lit | ].
  change (String c "") with (String c "" ++ "").
  apply matches_cat with (cap1 := None); [ now constructor | constructor ].
Qed.

Lemma matches_profile_link_inv (pos : nat) (m : string) (cap : option string) :
  matches linkedinUrlPattern pos m None cap ->
  exists (secure www : bool) (c : ascii) (rest : string),
    m = profile_link secure www c ++ rest /\ handle_char c = true.
Proof.
  unfold linkedinUrlPattern. cbn [Seq]. intros M.
  apply matches_cat_inv in M. destruct M as (s1 & t1 & c1 & -> & M1 & M).
  destruct (matches_lit_inv _ _ _ _ _ M1) as [ -> -> ].
  apply matches_cat_inv in M. destruct M as (s2 & t2 & c2 & -> & M2 & M).
  destruct (matches_opt_lit_inv "s" _ _ _ _ M2) as [ Hs -> ].
  apply matches_cat_inv in M. destruct M as (s3 & t3 & c3 & -> & M3 & M).
  destruct (matches_lit_inv _ _ _ _ _ M3) as [ -> -> ].
  apply matches_cat_inv in M. destruct M as (s4 & t4 & c4 & -> & M4 & M).
  destruct (matches_opt_lit_inv "www." _ _ _ _ M4) as [ Hw -> ].
  apply matches_cat_inv in M. destruct M as (s5 & t5 & c5 & -> & M5 & M).
  destruct (matches_lit_inv _ _ _ _ _ M5) as [ -> -> ].
  destruct (matches_plus_class_inv _ _ _ _ _ M) as (c & rest & -> & Hc).
  exists (if string_dec s2 "s" then true else false),
         (if string_dec s4 "www." then true else false), c, rest.
  split; [ | exact Hc ].
  destruct Hs as [ -> | -> ], Hw as [ -> | -> ]; reflexivity.
Qed.

Lemma includes_prefix (s sub : string) : String.prefix sub s = true -> Js.includes s sub = true.
Proof. intros H. destruct s; cbn [Js.includes]; rewrite H; reflexivity. Qed.

Lemma prefix_app (m post : string) : String.prefix m (m ++ post) = true.
Proof.
  induction m as [ | c m IH ]; simpl.
  - now destruct post.
  - destruct (ascii_dec c c); [ exact IH | congruence ].
Qed.

(** A piece of a text is included in it. *)
Lemma includes_app (pre m post : string) : Js.includes (pre ++ m ++ post) m = true.
Proof.
  induction pre as [ | c pre IH ].
  - change ("" ++ m ++ post) with (m ++ post). apply includes_prefix, prefix_app.
  - change (String c pre ++ m ++ post) with (String c (pre ++ m ++ post)).
    cbn [Js.includes]. rewrite IH. apply orb_true_r.
Qed.

(** X1.  A link passes the profile pattern exactly when somewhere in it
    stand [http] or [https], [://], an optional [www.], [linkedin.com/in/]
    and one handle character.  Nothing before or after that piece is looked
    at: a link that passes still passes inside any other text, and every
    link that passes contains [linkedin.com/in/]. *)
Theorem profile_pattern_language :
  (forall url : string,
      Regex.test linkedinUrlPattern url = true <->
      exists (pre : string) (secure www : bool) (c : ascii) (post : string),
        url = pre ++ profile_link secure www c ++ post /\ handle_char c = true) /\
  (forall pre url post : string,
      Regex.test linkedinUrlPattern url = true ->
      Regex.test linkedinUrlPattern (pre ++ url ++ post) = true) /\
  (forall url : string,
      Regex.test linkedinUrlPattern url = true ->
      Js.includes url "linkedin.com/in/" = true).
Proof.
  assert (Hiff : forall url : string,
             Regex.test linkedinUrlPattern url = true <->
             exists (pre : string) (secure www : bool) (c : ascii) (post : string),
               url = pre ++ profile_link secure www c ++ post /\ handle_char c = true).
  { intros url. rewrite test_spec. split.
    - intros (pre & m & post & cap & -> & M).
      destruct (matches_profile_link_inv _ _ _ M) as (secure & www & c & rest & -> & Hc).
      exists pre, secure, www, c, (rest ++ post). now rewrite string_app_assoc.
    - intros (pre & secure & www & c & post & -> & Hc).
      exists pre, (profile_link secure www c), post, None.
      split; [ reflexivity | now apply matches_profile_link ]. }
  split; [ exact Hiff | split ].
  - intros pre url post H. apply Hiff in H.
    destruct H as (pre' & secure & www & c & post' & -> & Hc).
    apply Hiff. exists (pre ++ pre'), secure, www, c, (post' ++ post).
    now rewrite !string_app_assoc.
  - intros url H. apply Hiff in H.
    destruct H as (pre & secure & www & c & post & -> & Hc).
    replace (pre ++ profile_link secure www c ++ post)
      with ((pre ++ "http" ++ (if secure then "s" else "") ++ "://" ++
             (if www then "www." else "")) ++ "linkedin.com/in/" ++ String c post).
    + apply includes_app.
    + unfold profile_link. rewrite !string_app_assoc.
      destruct secure, www; reflexivity.
Qed.

Lemma profile_pattern_language_witness :
  Regex.test linkedinUrlPattern
    ("https://example.com/redirect?to=" ++ "http://linkedin.com/in/x" ++ "&utm=1") = true /\
  Js.includes "http://linkedin.com/in/x" "linkedin.com/in/" = true.
Proof.
  destruct profile_pattern_language as (_ & Hembed & Hincl).
  split.
  - apply Hembed. reflexivity.
  - apply Hincl. reflexivity.
Defined.

(** ** The name of a profile *)

Lemma take_takeWhile (p : ascii -> bool) (s : string) :
  take (String.length (takeWhile p s)) s = takeWhile p s.
Proof.
  induction s as [ | c s IH ]; simpl; [ reflexivity | ].
  destruct (p c); simpl; [ now rewrite IH | reflexivity ].
Qed.

(** A greedy star over one character class takes the longest run of such
    characters when what follows cannot fail. *)
Lemma run_star_class (p : ascii -> bool) (s : string) :
  forall (fuel pos : nat) (cap : option string) (k : cont),
    (forall pos' s' cap', k pos' s' cap' <> None) ->
    (String.length s < fuel)%nat ->
    run fuel (Star (Class p)) pos s cap k =
    k (pos + String.length (takeWhile p s))%nat (dropWhile p s) cap.
Proof.
  induction s as [ | c s IH ]; intros fuel pos cap k Hk Hfuel;
    (destruct fuel as [ | fuel ]; [ simpl in Hfuel; lia | ]);
    rewrite run_star_S, run_class.
  - cbn [takeWhile dropWhile String.length]. now rewrite Nat.add_0_r.
  - cbn [takeWhile dropWhile]. destruct (p c).
    + assert (Hne : (S pos =? pos)%nat = false) by (apply Nat.eqb_neq; lia).
      rewrite Hne.
      rewrite IH by (try assumption; simpl in Hfuel; lia).
      cbn [String.length]. rewrite <- Nat.add_succ_comm.
      destruct (k _ _ _) eqn:E; [ reflexivity | now apply Hk in E ].
    + cbn [String.length]. now rewrite Nat.add_0_r.
Qed.

Lemma attempt_name (title : string) :
  attempt namePattern 0 title =
  match title with
  | String c t =>
      if name_char c then Some (S (String.length (takeWhile name_char t)),
                                Some (takeWhile name_char title))
      else None
  | EmptyString => None
  end.
Proof.
  unfold attempt, namePattern, NoneOf, Plus. cbn [Seq].
  rewrite run_cat, run_bol. cbn [Nat.eqb]. rewrite run_group, run_cat, run_class.
  destruct title as [ | c t ]; [ reflexivity | ].
  change (fun x : ascii => negb (existsb (Ascii.eqb x) ["-"; "|"; ":"]%char)) with name_char.
  change (negb (existsb (Ascii.eqb c) ["-"; "|"; ":"]%char)) with (name_char c).
  cbn [takeWhile]. destruct (name_char c); [ | reflexivity ].
  rewrite run_star_class; [ | discriminate | simpl; lia ].
  f_equal. f_equal. f_equal.
  replace (1 + String.length (takeWhile name_char t) - 0)%nat
    with (S (String.length (takeWhile name_char t))) by lia.
  cbn [take]. now rewrite take_takeWhile.
Qed.

Lemma search_name_anchored (s : string) :
  forall pos, search_from namePattern (S pos) s = None.
Proof.
  assert (Ha : forall pos s', attempt namePattern (S pos) s' = None).
  { intros pos s'. unfold attempt, namePattern. cbn [Seq]. now rewrite run_cat, run_bol. }
  induction s as [ | c s IH ]; intros pos; cbn [search_from]; rewrite Ha; [ reflexivity | apply IH ].
Qed.

Lemma extractName_scan (title : string) :
  extractName title = Js.trim (takeWhile name_char title).
Proof.
  unfold extractName, Regex.exec.
  destruct title as [ | c t ]; [ reflexivity | ].
  cbn [search_from]. rewrite attempt_name. cbn [takeWhile].
  destruct (name_char c).
  - cbn [group1]. reflexivity.
  - now rewrite search_name_anchored.
Qed.

(** ** Title case *)

(** A property of characters that holds for the 256 of them. *)
Lemma ascii_forall (P : ascii -> bool) :
  forallb (fun n => P (ascii_of_nat n)) (seq 0 256) = true ->
  forall c : ascii, P c = true.
Proof.
  intros H c. rewrite forallb_forall in H.
  rewrite <- (ascii_nat_embedding c). apply H.
  apply in_seq. pose proof (nat_ascii_bounded c). lia.
Qed.

Lemma space_is_no_word (c : ascii) : Js.is_space c = true -> Js.is_word c = false.
Proof.
  intros H.
  pose proof (ascii_forall (fun c => negb (Js.is_space c) || negb (Js.is_word c))
                eq_refl c) as A.
  cbv beta in A. rewrite H in A. simpl in A. now apply negb_true_iff.
Qed.

Lemma lower_upper_char (c : ascii) : Js.lower_char (Js.upper_char c) = Js.lower_char c.
Proof.
  pose proof (ascii_forall
                (fun c => Ascii.eqb (Js.lower_char (Js.upper_char c)) (Js.lower_char c))
                eq_refl c) as A.
  now apply Ascii.eqb_eq.
Qed.

Lemma lower_lower_char (c : ascii) : Js.lower_char (Js.lower_char c) = Js.lower_char c.
Proof.
  pose proof (ascii_forall
                (fun c => Ascii.eqb (Js.lower_char (Js.lower_char c)) (Js.lower_char c))
                eq_refl c) as A.
  now apply Ascii.eqb_eq.
Qed.

Lemma substring_dropWhile (p : ascii -> bool) (s : string) :
  String.substring (String.length (takeWhile p s))
                   (String.length s - String.length (takeWhile p s)) s = dropWhile p s.
Proof.
  induction s as [ | c s IH ]; [ reflexivity | ].
  cbn [takeWhile dropWhile]. destruct (p c).
  - cbn [String.length String.substring Nat.sub]. exact IH.
  - cbn [String.length String.substring Nat.sub]. f_equal.
    clear. induction s as [ | d s IH ]; [ reflexivity | ].
    cbn [String.length String.substring]. now rewrite IH.
Qed.

Lemma dropWhile_length (p : ascii -> bool) (s : string) :
  (String.length (dropWhile p s) <= String.length s)%nat.
Proof.
  induction s as [ | c s IH ]; cbn [dropWhile]; [ lia | ].
  destruct (p c); cbn [String.length]; lia.
Qed.

Lemma map_chars_app (f : ascii -> ascii) (s1 s2 : string) :
  Js.map_chars f (s1 ++ s2) = Js.map_chars f s1 ++ Js.map_chars f s2.
Proof. induction s1 as [ | c s1 IH ]; simpl; [ reflexivity | now rewrite IH ]. Qed.

(** Inside a word the text is lowered up to the next white space. *)
Lemma titleCase_in_word (s : string) :
  titleCase true s =
  Js.toLowerCase (takeWhile non_space s) ++ titleCase false (dropWhile non_space s).
Proof.
  induction s as [ | c s IH ]; [ reflexivity | ].
  cbn [titleCase takeWhile dropWhile]. unfold non_space at 1 3.
  destruct (Js.is_space c) eqn:E; cbn [negb].
  - cbn [titleCase]. now rewrite (space_is_no_word c E).
  - rewrite IH. reflexivity.
Qed.

Lemma attempt_word (pos : nat) (s : string) :
  attempt (Cat word (Star (Class non_space))) pos s =
  match s with
  | String c t =>
      if Js.is_word c
      then Some (S pos + String.length (takeWhile non_space t), None)%nat
      else None
  | EmptyString => None
  end.
Proof.
  unfold attempt, word. rewrite run_cat, run_class.
  destruct s as [ | c t ]; [ reflexivity | ].
  destruct (Js.is_word c); [ | reflexivity ].
  rewrite run_star_class; [ reflexivity | discriminate | simpl; lia ].
Qed.

Lemma replace_words (fuel : nat) :
  forall (pos : nat) (s : string),
    (String.length s < fuel)%nat ->
    replace_from fuel (Cat word (Star (Class non_space)))
      (fun txt => Js.toUpperCase (Js.charAt0 txt) ++ Js.toLowerCase (Js.substr1 txt))
      pos s = titleCase false s.
Proof.
  induction fuel as [ | fuel IH ]; intros pos s Hlen; [ lia | ].
  destruct s as [ | c t ]; [ reflexivity | ].
  cbn [replace_from]. rewrite attempt_word. cbn [titleCase String.length] in *.
  destruct (Js.is_word c).
  - replace (S pos + String.length (takeWhile non_space t) - pos)%nat
      with (S (String.length (takeWhile non_space t))) by lia.
    cbn [Nat.eqb take Nat.sub]. rewrite take_takeWhile.
    cbn [String.substring]. rewrite substring_dropWhile.
    rewrite IH by (pose proof (dropWhile_length non_space t); lia).
    rewrite titleCase_in_word. reflexivity.
  - rewrite IH by lia. reflexivity.
Qed.


Lemma titleCase_lowers (s : string) :
  forall inWord, Js.toLowerCase (titleCase inWord s) = Js.toLowerCase s.
Proof.
  induction s as [ | c s IH ]; intros inWord; [ reflexivity | ].
  unfold Js.toLowerCase in *. cbn [titleCase].
  destruct inWord, (Js.is_space c), (Js.is_word c);
    cbn [Js.map_chars]; rewrite IH;
    rewrite ?lower_upper_char, ?lower_lower_char; reflexivity.
Qed.

Lemma toTitleCase_scan (s : string) : toTitleCase s = titleCase false s.
Proof. unfold toTitleCase, replace_all. apply replace_words. lia. Qed.


(** ** Pieces of a text *)

Lemma prefix_spec (sub : string) :
  forall s, String.prefix sub s = true -> exists post, s = sub ++ post.
Proof.
  induction sub as [ | a sub IH ]; intros s H.
  - now exists s.
  - destruct s as [ | b s ]; simpl in H; [ discriminate | ].
    destruct (ascii_dec a b) as [ -> | ]; [ | discriminate ].
    destruct (IH _ H) as [ post -> ]. now exists post.
Qed.

Lemma includes_spec (s sub : string) : Js.includes s sub = true <-> piece_of sub s.
Proof.
  split.
  - induction s as [ | c s IH ]; cbn [Js.includes]; intros H.
    + rewrite orb_false_r in H. destruct (prefix_spec _ _ H) as [ post E ].
      now exists "", post.
    + apply orb_true_iff in H. destruct H as [ H | H ].
      * destruct (prefix_spec _ _ H) as [ post E ]. now exists "", post.
      * destruct (IH H) as (pre & post & ->). now exists (String c pre), post.
  - intros (pre & post & ->). apply includes_app.
Qed.

Lemma piece_of_refl (s : string) : piece_of s s.
Proof. exists "", "". simpl. now rewrite string_app_nil_r. Qed.

Lemma piece_of_trans (a b c : string) : piece_of a b -> piece_of b c -> piece_of a c.
Proof.
  intros (p1 & q1 & ->) (p2 & q2 & ->).
  exists (p2 ++ p1), (q1 ++ q2). now rewrite !string_app_assoc.
Qed.

Lemma includes_trans (s t u : string) :
  Js.includes s t = true -> Js.includes t u = true -> Js.includes s u = true.
Proof.
  rewrite !includes_spec. intros H1 H2. exact (piece_of_trans _ _ _ H2 H1).
Qed.

(** ** The job title *)

Lemma toTitleCase_empty : toTitleCase "" = "".
Proof. reflexivity. Qed.

Lemma extractTitleAndCompany_agree (title snippet : string) :
  Primary.extractTitleAndCompany title snippet =
  Alternate.extractTitleAndCompany title snippet.
Proof.
  unfold Primary.extractTitleAndCompany, Alternate.extractTitleAndCompany.
  cbv zeta. now destruct (firstCompany companyPatterns _).
Qed.

(** The first title the text contains: none, or a title of the list that
    the text contains. *)
Lemma firstTitle_cases (titles : list string) (text : string) :
  (firstTitle titles text = "" /\
   forall execTitle, In execTitle titles -> Js.includes text execTitle = false) \/
  (In (firstTitle titles text) titles /\
   Js.includes text (firstTitle titles text) = true).
Proof.
  induction titles as [ | t titles IH ]; cbn [firstTitle].
  - left. split; [ reflexivity | intros ? [] ].
  - destruct (Js.includes text t) eqn:E.
    + right. split; [ now left | exact E ].
    + destruct IH as [ [ H1 H2 ] | [ H1 H2 ] ].
      * left. split; [ exact H1 | ]. intros e [ <- | He ]; [ exact E | now apply H2 ].
      * right. split; [ now right | exact H2 ].
Qed.

Lemma job_title_of_text (text : string) :
  In (toTitleCase (firstTitle ProfileExtractor.executiveTitles text)) jobTitleValues /\
  (Js.includes text "cto" = true ->
   toTitleCase (firstTitle ProfileExtractor.executiveTitles text) = "Cto") /\
  (toTitleCase (firstTitle ProfileExtractor.executiveTitles text) = "" <->
   forall execTitle, In execTitle ProfileExtractor.executiveTitles ->
                     Js.includes text execTitle = false).
Proof.
  assert (Hcto : Js.includes text "cto" = true ->
                 firstTitle ProfileExtractor.executiveTitles text = "cto").
  { intros H. unfold ProfileExtractor.executiveTitles. cbn [firstTitle]. now rewrite H. }
  destruct (firstTitle_cases ProfileExtractor.executiveTitles text) as [ [ H1 H2 ] | [ H1 H2 ] ].
  - rewrite H1. split; [ find_in_list | split ].
    + intros H. rewrite (H2 "cto") in H by (now left). discriminate.
    + split; [ intros _; exact H2 | reflexivity ].
  - destruct (Js.includes text "cto") eqn:Ecto.
    + rewrite (Hcto eq_refl) in *. split; [ find_in_list | split; [ reflexivity | ] ].
      split; [ intros Habs; vm_compute in Habs; discriminate | ].
      intros Hall. rewrite (Hall "cto") in Ecto by (now left). discriminate.
    + assert (Hdir : forall t, Js.includes t "cto" = true ->
                               firstTitle ProfileExtractor.executiveTitles text <> t).
      { intros t Ht E. rewrite E in H2.
        rewrite (includes_trans _ _ _ H2 Ht) in Ecto. discriminate. }
      revert H1 H2 Hdir.
      generalize (firstTitle ProfileExtractor.executiveTitles text) as t.
      intros t H1 H2 Hdir.
      assert (Hne : forall execTitle, t = execTitle ->
                      ~ (forall e, In e ProfileExtractor.executiveTitles ->
                                   Js.includes text e = false)).
      { intros e -> Hall. rewrite (Hall e H1) in H2. discriminate. }
      unfold ProfileExtractor.executiveTitles in H1. cbn [In] in H1.
      repeat (destruct H1 as [ H1 | H1 ];
              [ subst t;
                first [ exfalso; eapply Hdir; [ | reflexivity ]; reflexivity
                      | split; [ find_in_list | split; [ discriminate | ] ];
                        split; [ intros Habs; vm_compute in Habs; discriminate
                               | intros Hall; exfalso; exact (Hne _ eq_refl Hall) ] ]
              | ]).
      destruct H1.
Qed.


(** ** The shape of the extracted fields *)

Lemma all_chars_app (p : ascii -> bool) (a b : string) :
  all_chars p (a ++ b) = all_chars p a && all_chars p b.
Proof.
  induction a as [ | c a IH ]; simpl; [ reflexivity | ].
  now rewrite IH, andb_assoc.
Qed.

Lemma all_chars_piece (p : ascii -> bool) (piece text : string) :
  piece_of piece text -> all_chars p text = true -> all_chars p piece = true.
Proof.
  intros (pre & post & ->). rewrite !all_chars_app, !andb_true_iff. tauto.
Qed.

Lemma all_chars_takeWhile (p : ascii -> bool) (s : string) :
  all_chars p (takeWhile p s) = true.
Proof.
  induction s as [ | c s IH ]; simpl; [ reflexivity | ].
  destruct (p c) eqn:E; simpl; [ now rewrite E, IH | reflexivity ].
Qed.

Lemma piece_of_app_l (g s1 s2 : string) : piece_of g s1 -> piece_of g (s1 ++ s2).
Proof.
  intros (pre & post & ->). exists pre, (post ++ s2). now rewrite !string_app_assoc.
Qed.

Lemma piece_of_app_r (g s1 s2 : string) : piece_of g s2 -> piece_of g (s1 ++ s2).
Proof.
  intros (pre & post & ->). exists (s1 ++ pre), post. now rewrite !string_app_assoc.
Qed.

Lemma trimStart_piece (s : string) : exists a, s = a ++ Js.trimStart s.
Proof.
  induction s as [ | c s (a & IH) ]; [ now exists "" | ].
  cbn [Js.trimStart]. destruct (Js.is_space c).
  - exists (String c a). simpl. now rewrite <- IH.
  - now exists "".
Qed.

Lemma trimEnd_piece (s : string) : exists b, s = Js.trimEnd s ++ b.
Proof.
  induction s as [ | c s (b & IH) ]; [ now exists "" | ].
  cbn [Js.trimEnd]. destruct (Js.trimEnd s) as [ | d t ].
  - destruct (Js.is_space c).
    + now exists (String c s).
    + exists b. simpl in *. now rewrite <- IH.
  - exists b. simpl in *. now rewrite <- IH.
Qed.

Lemma trim_piece (s : string) : piece_of (Js.trim s) s.
Proof.
  unfold Js.trim. destruct (trimStart_piece s) as (a & Ha).
  destruct (trimEnd_piece (Js.trimStart s)) as (b & Hb).
  exists a, b. now rewrite <- Hb.
Qed.

Lemma trimEnd_idem (s : string) : Js.trimEnd (Js.trimEnd s) = Js.trimEnd s.
Proof.
  induction s as [ | c s IH ]; [ reflexivity | ].
  cbn [Js.trimEnd]. destruct (Js.trimEnd s) as [ | d t ] eqn:E.
  - destruct (Js.is_space c) eqn:Ec; [ reflexivity | ].
    cbn [Js.trimEnd]. now rewrite Ec.
  - change (Js.trimEnd (String c (String d t)))
      with (match Js.trimEnd (String d t) with
            | EmptyString => if Js.is_space c then EmptyString else String c EmptyString
            | t' => String c t'
            end).
    now rewrite IH.
Qed.

Lemma trimStart_head (s : string) :
  Js.trimStart s = "" \/
  exists c t, Js.trimStart s = String c t /\ Js.is_space c = false.
Proof.
  induction s as [ | c s IH ]; [ now left | ].
  cbn [Js.trimStart]. destruct (Js.is_space c) eqn:E; [ exact IH | ].
  right. now exists c, s.
Qed.

Lemma trimEnd_head (c : ascii) (t : string) :
  Js.is_space c = false -> exists t', Js.trimEnd (String c t) = String c t'.
Proof.
  intros E. cbn [Js.trimEnd]. destruct (Js.trimEnd t) as [ | d t' ].
  - rewrite E. now exists "".
  - now exists (String d t').
Qed.

Lemma trim_head (c : ascii) (t : string) :
  Js.is_space c = false -> exists t', Js.trim (String c t) = String c t'.
Proof.
  intros E. unfold Js.trim. cbn [Js.trimStart]. rewrite E. now apply trimEnd_head.
Qed.

Lemma trim_idem (s : string) : Js.trim (Js.trim s) = Js.trim s.
Proof.
  unfold Js.trim. destruct (trimStart_head s) as [ -> | (c & t & -> & E) ]; [ reflexivity | ].
  destruct (trimEnd_head c t E) as (t' & Ht). rewrite Ht.
  cbn [Js.trimStart]. rewrite E, <- Ht. apply trimEnd_idem.
Qed.

(** X4.  The name of a profile is the leading segment of the title, up to
    the first [-], [|] or [:], with the white space around it removed: it is
    empty when the title is empty or starts with one of these characters, it
    contains none of them, and it neither starts nor ends with white space. *)
Theorem name_is_leading_segment :
  forall title : string,
    extractName title = Js.trim (takeWhile name_char title) /\
    all_chars name_char (extractName title) = true /\
    Js.trim (extractName title) = extractName title.
Proof.
  intros title. rewrite extractName_scan.
  split; [ reflexivity | split ].
  - apply (all_chars_piece _ _ _ (trim_piece _)), all_chars_takeWhile.
  - apply trim_idem.
Qed.

(** What is matched lies within the classes of the pattern, and so does
    what is captured. *)
Lemma matches_within (p : ascii -> bool) (r : regex) (pos : nat) (s : string)
      (cap cap' : option string) :
  matches r pos s cap cap' -> within p r -> all_chars p s = true.
Proof.
  induction 1; cbn [within]; intros W; try reflexivity.
  - simpl. now rewrite (W c H).
  - destruct W as [ W1 W2 ]. rewrite all_chars_app, IHmatches1, IHmatches2; auto.
  - destruct W as [ W1 W2 ]. auto.
  - destruct W as [ W1 W2 ]. auto.
  - rewrite all_chars_app, IHmatches1, IHmatches2; auto.
  - auto.
Qed.

Lemma matches_captures (p : ascii -> bool) (r : regex) (pos : nat) (s : string)
      (cap cap' : option string) :
  matches r pos s cap cap' -> captures_within p r -> capture_ok p cap -> capture_ok p cap'.
Proof.
  induction 1; cbn [captures_within]; intros W Hcap; try assumption.
  - destruct W as [ W1 W2 ]. auto.
  - destruct W as [ W1 W2 ]. auto.
  - destruct W as [ W1 W2 ]. auto.
  - auto.
  - cbn [capture_ok]. eapply matches_within; eassumption.
Qed.

(** A capture made during a match is a piece of the matched text. *)
Lemma matches_capture_piece (r : regex) (pos : nat) (s : string)
      (cap cap' : option string) :
  matches r pos s cap cap' ->
  cap' = cap \/ exists g, cap' = Some g /\ piece_of g s.
Proof.
  induction 1; try (now left); try assumption.
  - destruct IHmatches2 as [ -> | (g & -> & Hg) ].
    + destruct IHmatches1 as [ -> | (g & -> & Hg) ]; [ now left | right ].
      exists g. split; [ reflexivity | now apply piece_of_app_l ].
    + right. exists g. split; [ reflexivity | now apply piece_of_app_r ].
  - destruct IHmatches2 as [ -> | (g & -> & Hg) ].
    + destruct IHmatches1 as [ -> | (g & -> & Hg) ]; [ now left | right ].
      exists g. split; [ reflexivity | now apply piece_of_app_l ].
    + right. exists g. split; [ reflexivity | now apply piece_of_app_r ].
  - right. exists s. split; [ reflexivity | apply piece_of_refl ].
Qed.

Lemma matches_nonempty (r : regex) (pos : nat) (s : string) (cap cap' : option string) :
  matches r pos s cap cap' -> nullable r = false -> s <> "".
Proof.
  induction 1; cbn [nullable]; intros N; try discriminate.
  - apply andb_false_iff in N. intros E.
    destruct s1; [ | discriminate ]. destruct s2; [ | discriminate ].
    destruct N as [ N | N ]; [ now apply IHmatches1 | now apply IHmatches2 ].
  - apply orb_false_iff in N. tauto.
  - apply orb_false_iff in N. tauto.
  - auto.
Qed.

(** What [exec] finds is a piece of the text. *)
Lemma exec_sound (r : regex) (s : string) (m : result) :
  Regex.exec r s = Some m ->
  piece_of (whole m) s /\
  exists pos, matches r pos (whole m) None (group1 m).
Proof.
  intros H. destruct (search_from_sound _ _ _ _ H) as (pre & post & E & M).
  split; [ now exists pre, post | eauto ].
Qed.

Lemma class_sub (q p : ascii -> bool) :
  forallb (fun n => negb (q (ascii_of_nat n)) || p (ascii_of_nat n)) (seq 0 256) = true ->
  forall c, q c = true -> p c = true.
Proof.
  intros H c Hq. pose proof (ascii_forall (fun c => negb (q c) || p c) H c) as A.
  cbv beta in A. now rewrite Hq in A.
Qed.

Lemma titleCase_all_chars (p : ascii -> bool) :
  (forall c, p c = true -> p (Js.upper_char c) = true /\ p (Js.lower_char c) = true) ->
  forall (s : string) (inWord : bool),
    all_chars p s = true -> all_chars p (titleCase inWord s) = true.
Proof.
  intros Hp. induction s as [ | c s IH ]; intros inWord H; [ reflexivity | ].
  simpl in H. apply andb_true_iff in H. destruct H as [ Hc Hs ].
  destruct (Hp c Hc) as [ Hu Hl ].
  cbn [titleCase]. destruct inWord, (Js.is_space c), (Js.is_word c);
    cbn [all_chars]; rewrite ?Hc, ?Hu, ?Hl, IH; auto.
Qed.

Lemma company_char_case (c : ascii) :
  company_char c = true ->
  company_char (Js.upper_char c) = true /\ company_char (Js.lower_char c) = true.
Proof.
  intros H. split.
  - exact (class_sub company_char (fun c => company_char (Js.upper_char c)) eq_refl c H).
  - exact (class_sub company_char (fun c => company_char (Js.lower_char c)) eq_refl c H).
Qed.

Lemma companyPatterns_captures :
  Forall (captures_within company_char) companyPatterns.
Proof.
  unfold companyPatterns.
  repeat apply Forall_cons; [ .. | apply Forall_nil ];
    cbn [Seq Lit Plus NoneOf Chr word space captures_within within];
    repeat split; apply class_sub; reflexivity.
Qed.

(** The company the patterns find: free of [|], [,] and [-], and a piece of
    the text. *)
Lemma firstCompany_sound (text : string) (patterns : list regex) (c : string) :
  Forall (captures_within company_char) patterns ->
  firstCompany patterns text = Some c ->
  all_chars company_char c = true /\ piece_of c text.
Proof.
  induction 1 as [ | r patterns Hr _ IH ]; cbn [firstCompany]; [ discriminate | ].
  destruct (Regex.exec r text) as [ m | ] eqn:E; [ | exact IH ].
  intros [= <-]. destruct (exec_sound _ _ _ E) as [ Hpiece (pos & M) ].
  pose proof (matches_captures company_char _ _ _ _ _ M Hr I) as Hcap.
  destruct (matches_capture_piece _ _ _ _ _ M) as [ Hnone | (g & Hg & Hin) ].
  - rewrite Hnone. split; [ reflexivity | ]. exists "", text. reflexivity.
  - rewrite Hg in *. cbn [capture_ok] in Hcap. split.
    + exact (all_chars_piece _ _ _ (trim_piece g) Hcap).
    + exact (piece_of_trans _ _ _ (trim_piece g) (piece_of_trans _ _ _ Hin Hpiece)).
Qed.

Lemma string_app_inv (a a' b b' : string) :
  String.length a = String.length a' -> a ++ b = a' ++ b' -> a = a' /\ b = b'.
Proof.
  revert a'. induction a as [ | c a IH ]; intros [ | c' a' ] Hlen E;
    try discriminate; [ now split | ].
  simpl in *. injection E as -> E. destruct (IH a' ltac:(lia) E) as [ -> -> ]. now split.
Qed.

Lemma map_chars_length (f : ascii -> ascii) (s : string) :
  String.length (Js.map_chars f s) = String.length s.
Proof. induction s as [ | c s IH ]; simpl; [ reflexivity | now rewrite IH ]. Qed.

Lemma toLowerCase_idem (s : string) : Js.toLowerCase (Js.toLowerCase s) = Js.toLowerCase s.
Proof.
  unfold Js.toLowerCase. induction s as [ | c s IH ]; simpl; [ reflexivity | ].
  now rewrite IH, lower_lower_char.
Qed.

(** A piece of a lower-cased text is in lower case. *)
Lemma lower_piece (a text : string) :
  piece_of a (Js.toLowerCase text) -> Js.toLowerCase a = a.
Proof.
  intros (pre & post & E).
  pose proof (f_equal Js.toLowerCase E) as E'.
  rewrite toLowerCase_idem, E in E'. unfold Js.toLowerCase in E'.
  rewrite !map_chars_app in E'.
  destruct (string_app_inv _ _ _ _ (eq_sym (map_chars_length _ _)) E') as [ _ E2 ].
  destruct (string_app_inv _ _ _ _ (eq_sym (map_chars_length _ _)) E2) as [ E3 _ ].
  now symmetry.
Qed.

(** X5.  Both versions give the same company.  It contains no [|], [,] or
    [-], and it is, up to the case of letters, a piece of the title and the
    snippet joined by a space. *)
Theorem company_is_a_piece_of_the_text :
  forall title snippet : string,
    let text := Js.toLowerCase (title ++ " " ++ snippet) in
    let company := snd (Alternate.extractTitleAndCompany title snippet) in
    snd (Primary.extractTitleAndCompany title snippet) = company /\
    all_chars company_char company = true /\
    Js.includes text (Js.toLowerCase company) = true.
Proof.
  intros title snippet text company.
  split; [ now rewrite extractTitleAndCompany_agree | ].
  subst company. unfold Alternate.extractTitleAndCompany. cbv zeta. cbn [snd]. fold text.
  destruct (firstCompany companyPatterns text) as [ c | ] eqn:E.
  - destruct (firstCompany_sound _ _ _ companyPatterns_captures E) as [ Hc Hpiece ].
    rewrite toTitleCase_scan. split.
    + apply titleCase_all_chars; [ exact company_char_case | exact Hc ].
    + rewrite titleCase_lowers, (lower_piece c (title ++ " " ++ snippet) Hpiece).
      now apply includes_spec.
  - split; [ reflexivity | ]. apply includes_spec. exists "", text. reflexivity.
Qed.

(** ** The location *)

Lemma upper_is_no_space (c : ascii) : Js.is_upper c = true -> Js.is_space c = false.
Proof.
  intros H. apply negb_true_iff.
  exact (class_sub Js.is_upper (fun c => negb (Js.is_space c)) eq_refl c H).
Qed.

Lemma matches_group_head (p : ascii -> bool) (r : regex) (pos : nat) (s : string)
      (cap cap' : option string) :
  matches (Group (Cat (Class p) r)) pos s cap cap' ->
  exists c t, cap' = Some (String c t) /\ p c = true.
Proof.
  intros M. apply matches_group_inv in M. destruct M as [ -> (cap1 & M) ].
  apply matches_cat_inv in M. destruct M as (s1 & s2 & cap2 & -> & M1 & _).
  apply matches_class_inv in M1. destruct M1 as (c & -> & Hp & _).
  now exists c, s2.
Qed.

(** The trimmed capture of a pattern whose group starts with a capital. *)
Lemma location_of_match (r : regex) (snippet : string) (m : result) :
  Regex.exec r snippet = Some m ->
  (forall pos s cap, matches r pos s None cap ->
                     exists c t, cap = Some (String c t) /\ Js.is_upper c = true) ->
  piece_of (Js.trim (match group1 m with Some g => g | None => "" end)) snippet /\
  Js.trim (match group1 m with Some g => g | None => "" end) <> "".
Proof.
  intros E Hr. destruct (exec_sound _ _ _ E) as [ Hpiece (pos & M) ].
  destruct (Hr _ _ _ M) as (c & t & Hg & Hc).
  destruct (matches_capture_piece _ _ _ _ _ M) as [ Hnone | (g & Hg' & Hin) ];
    [ congruence | ].
  rewrite Hg in *. injection Hg' as <-. split.
  - exact (piece_of_trans _ _ _ (trim_piece _) (piece_of_trans _ _ _ Hin Hpiece)).
  - destruct (trim_head c t (upper_is_no_space c Hc)) as (t' & ->). discriminate.
Qed.

Lemma primary_location_sound (snippet l : string) :
  Primary.extractLocation snippet = Some l -> piece_of l snippet /\ l <> "".
Proof.
  unfold Primary.extractLocation, Primary.locationPatterns.
  cbn [Primary.firstLocation Seq]. unfold upper.
  repeat match goal with
         | |- context [Regex.exec ?r snippet] =>
             let E := fresh "E" in
             destruct (Regex.exec r snippet) eqn:E;
             [ intros [= <-]; apply (location_of_match _ _ _ E); clear E | clear E ]
         end; try discriminate.
  - intros pos s cap M.
    apply matches_cat_inv in M. destruct M as (s1 & t1 & c1 & -> & M1 & M).
    apply matches_cat_inv in M. destruct M as (s2 & t2 & c2 & -> & M2 & M).
    apply matches_cat_inv in M. destruct M as (s3 & t3 & c3 & -> & M3 & M).
    exact (matches_group_head _ _ _ _ _ _ M).
  - intros pos s cap M. exact (matches_group_head _ _ _ _ _ _ M).
  - intros pos s cap M. exact (matches_group_head _ _ _ _ _ _ M).
Qed.

Lemma alternate_firstLocation_sound (snippet l : string) (patterns : list regex) :
  forallb (fun r => negb (nullable r)) patterns = true ->
  Alternate.firstLocation patterns snippet = Some l ->
  piece_of l snippet /\ l <> "".
Proof.
  induction patterns as [ | r patterns IH ]; cbn [Alternate.firstLocation forallb];
    [ discriminate | ].
  intros N. apply andb_true_iff in N. destruct N as [ Nr N ].
  destruct (Regex.exec r snippet) as [ m | ] eqn:E; [ | now apply IH ].
  intros [= <-]. destruct (exec_sound _ _ _ E) as [ Hpiece (pos & M) ].
  split; [ exact Hpiece | ].
  apply (matches_nonempty _ _ _ _ _ M). now apply negb_true_iff.
Qed.

(** X6.  A location, when one is found, is a non-empty piece of the
    snippet, in both versions. *)
Theorem location_is_a_piece_of_the_snippet :
  forall snippet l : string,
    Primary.extractLocation snippet = Some l \/
    Alternate.extractLocation snippet = Some l ->
    Js.includes snippet l = true /\ l <> "".
Proof.
  intros snippet l H. rewrite includes_spec. destruct H as [ H | H ].
  - now apply primary_location_sound.
  - apply (alternate_firstLocation_sound _ _ Alternate.locationPatterns); [ reflexivity | exact H ].
Qed.

Lemma location_is_a_piece_of_the_snippet_witness :
  Primary.extractLocation "CTO based in Berlin, Germany" = Some "Berlin, Germany" /\
  Alternate.extractLocation "CTO based in Berlin, Germany" = Some "Berlin" /\
  (Js.includes "CTO based in Berlin, Germany" "Berlin, Germany" = true /\
   "Berlin, Germany" <> "") /\
  (Js.includes "CTO based in Berlin, Germany" "Berlin" = true /\ "Berlin" <> "").
Proof.
  split; [ reflexivity | split; [ reflexivity | split ] ].
  - apply location_is_a_piece_of_the_snippet. left. reflexivity.
  - apply location_is_a_piece_of_the_snippet. right. reflexivity.
Defined.

(** ** Which profiles the primary strategy retains *)

Lemma primary_title_relevance (text : string) :
  existsb (fun execTitle =>
             Js.includes
               (Js.toLowerCase (toTitleCase (firstTitle ProfileExtractor.executiveTitles text)))
               execTitle)
          ProfileExtractor.executiveTitles =
  Js.truthy (toTitleCase (firstTitle ProfileExtractor.executiveTitles text)).
Proof.
  destruct (job_title_of_text text) as [ Hin _ ].
  revert Hin. generalize (toTitleCase (firstTitle ProfileExtractor.executiveTitles text)).
  intros jobTitle Hin. unfold jobTitleValues in Hin. cbn [In] in Hin.
  repeat (destruct Hin as [ Hin | Hin ]; [ subst jobTitle; vm_compute; reflexivity | ]).
  destruct Hin.
Qed.

Lemma profile_link_nonempty (url : string) :
  Regex.test linkedinUrlPattern url = true -> Js.truthy url = true.
Proof. destruct url; [ vm_compute; discriminate | reflexivity ]. Qed.

(** X7.  The primary strategy retains a parsed profile exactly when its
    name has at least two characters and either an executive title was
    found or the search context occurs in its company or snippet.  With an
    empty search context only profiles with an executive title are kept. *)
Theorem primary_retention :
  forall (item : GoogleSearchItem) (searchContext : string) (profile : LinkedInProfile),
    Primary.parseSearchItem item searchContext = Some profile ->
    Primary.validateProfile profile =
    (2 <=? String.length (name profile))%nat &&
    (Js.truthy (profile_title profile) || context_matches searchContext profile).
Proof.
  intros item searchContext profile H. unfold Primary.parseSearchItem in H.
  destruct (Regex.test linkedinUrlPattern (Js.or_empty (link item))) eqn:Eurl;
    cbn [negb] in H; [ | discriminate ].
  pose proof (primary_title_relevance
                (Js.toLowerCase (Js.or_empty (title item) ++ " " ++ Js.or_empty (snippet item))))
    as Hrel.
  change (toTitleCase (firstTitle ProfileExtractor.executiveTitles
            (Js.toLowerCase (Js.or_empty (title item) ++ " " ++ Js.or_empty (snippet item)))))
    with (fst (Primary.extractTitleAndCompany (Js.or_empty (title item))
                                              (Js.or_empty (snippet item)))) in Hrel.
  destruct (Primary.extractTitleAndCompany _ _) as [ jobTitle employer ].
  cbn [fst] in Hrel. injection H as <-.
  unfold Primary.validateProfile, context_matches.
  cbn [name profile_title company linkedin_url profile_snippet confidence_score].
  rewrite (profile_link_nonempty _ Eurl).
  unfold Primary.calculateConfidence. cbv zeta. rewrite Hrel.
  destruct (extractName _) as [ | a [ | b rest ] ];
    destruct (Js.truthy jobTitle), (Js.truthy searchContext),
      (Js.includes (Js.toLowerCase employer) (Js.toLowerCase searchContext)),
      (Js.includes (Js.toLowerCase (Js.or_empty (snippet item))) (Js.toLowerCase searchContext)),
      (Js.truthy employer), (100 <? String.length (Js.or_empty (snippet item)))%nat;
    reflexivity.
Qed.

Lemma primary_retention_witness :
  exists profile : LinkedInProfile,
    Primary.parseSearchItem jane "" = Some profile /\
    Primary.validateProfile profile =
    (2 <=? String.length (name profile))%nat &&
    (Js.truthy (profile_title profile) || context_matches "" profile).
Proof.
  eexists. split.
  - reflexivity.
  - apply (primary_retention jane ""). reflexivity.
Defined.

(** ** Which profiles the alternate strategy retains *)

Lemma alternate_title_bonus (text : string) :
  let jobTitle := toTitleCase (firstTitle ProfileExtractor.executiveTitles text) in
  Js.includes (Js.toLowerCase jobTitle) "cto" ||
  Js.includes (Js.toLowerCase jobTitle) "chief technology officer" =
  String.eqb jobTitle "Cto" || String.eqb jobTitle "Chief Technology Officer".
Proof.
  cbv zeta. destruct (job_title_of_text text) as [ Hin _ ].
  revert Hin. generalize (toTitleCase (firstTitle ProfileExtractor.executiveTitles text)).
  intros jobTitle Hin. unfold jobTitleValues in Hin. cbn [In] in Hin.
  repeat (destruct Hin as [ Hin | Hin ]; [ subst jobTitle; vm_compute; reflexivity | ]).
  destruct Hin.
Qed.

(** X8.  Under the empty search context the alternate strategy retains a
    parsed profile whose snippet has no false-positive term exactly when its
    name is not empty and a job title or a company was found.  The bonus for
    an exact match goes to the job titles [Cto] and
    [Chief Technology Officer] only. *)
Theorem alternate_retention :
  forall (item : GoogleSearchItem) (profile : LinkedInProfile),
    Alternate.parseSearchItem item "" = Some profile ->
    (Js.includes (Js.toLowerCase (profile_title profile)) "cto" ||
     Js.includes (Js.toLowerCase (profile_title profile)) "chief technology officer" =
     String.eqb (profile_title profile) "Cto" ||
     String.eqb (profile_title profile) "Chief Technology Officer") /\
    (unpenalised (profile_snippet profile) = true ->
     Alternate.validateProfile profile =
     (0 <? String.length (name profile))%nat &&
     (Js.truthy (profile_title profile) || Js.truthy (company profile))).
Proof.
  intros item profile H. unfold Alternate.parseSearchItem in H.
  destruct (Regex.test linkedinUrlPattern (Js.or_empty (link item))) eqn:Eurl;
    cbn [negb] in H; [ | discriminate ].
  pose proof (alternate_title_bonus
                (Js.toLowerCase (Js.or_empty (title item) ++ " " ++ Js.or_empty (snippet item))))
    as Hbonus.
  cbv zeta in Hbonus.
  change (toTitleCase (firstTitle ProfileExtractor.executiveTitles
            (Js.toLowerCase (Js.or_empty (title item) ++ " " ++ Js.or_empty (snippet item)))))
    with (fst (Alternate.extractTitleAndCompany (Js.or_empty (title item))
                                                (Js.or_empty (snippet item)))) in Hbonus.
  destruct (Alternate.extractTitleAndCompany _ _) as [ jobTitle employer ].
  cbn [fst] in Hbonus. injection H as <-.
  cbn [name profile_title company linkedin_url profile_snippet confidence_score].
  split; [ exact Hbonus | ].
  intros Hpen. unfold Alternate.validateProfile.
  cbn [name linkedin_url confidence_score].
  pose proof (profile_link_nonempty _ Eurl) as Hurl. rewrite truthy_length in Hurl.
  rewrite Hurl, andb_true_r.
  unfold Alternate.calculateConfidence. cbv zeta. rewrite Hbonus.
  cbn [Js.truthy String.eqb negb].
  unfold unpenalised, Alternate.falsePositives in Hpen. cbn [forallb] in Hpen.
  repeat (apply andb_true_iff in Hpen; destruct Hpen as [ ?Hfp Hpen ]).
  repeat match goal with
         | H : negb _ = true |- _ => apply negb_true_iff in H
         end.
  unfold Alternate.falsePositives. cbn [fold_left].
  repeat match goal with
         | H : Js.includes _ _ = false |- _ => rewrite H; clear H
         end.
  clear Hbonus Hurl.
  destruct (String.eqb jobTitle "Cto") eqn:E1;
    [ apply String.eqb_eq in E1; subst jobTitle | ];
    [ | destruct (String.eqb jobTitle "Chief Technology Officer") eqn:E2;
        [ apply String.eqb_eq in E2; subst jobTitle | ] ];
    cbn [Js.truthy String.eqb Ascii.eqb Bool.eqb negb orb];
    destruct (String.length (extractName _)), (Js.truthy employer);
    try destruct (Js.truthy jobTitle);
    reflexivity.
Qed.

Lemma alternate_retention_witness :
  exists profile : LinkedInProfile,
    Alternate.parseSearchItem jane "" = Some profile /\
    Alternate.validateProfile profile =
    (0 <? String.length (name profile))%nat &&
    (Js.truthy (profile_title profile) || Js.truthy (company profile)).
Proof.
  eexists. split.
  - reflexivity.
  - apply (alternate_retention jane); reflexivity.
Defined.

(** ** The search context and the score *)

Lemma max_le_r (a b : Q) : b <= Math.max a b.
Proof.
  unfold Math.max. destruct (Qle_bool a b) eqn:E.
  - apply Qle_refl.
  - now apply Qle_bool_false.
Qed.

Lemma clamp_monotone (x y : Q) :
  x <= y -> Math.max 0 (Math.min 100 x) <= Math.max 0 (Math.min 100 y).
Proof.
  intros H. apply max_lub; [ apply max_le_l | ].
  apply Qle_trans with (Math.min 100 y); [ | apply max_le_r ].
  apply min_glb; [ apply min_le_l | ].
  apply Qle_trans with x; [ apply min_le_r | exact H ].
Qed.

Lemma penalties_monotone (snippetLower : string) (fps : list string) :
  forall x y : Q,
    x <= y ->
    fold_left (fun score fp => if Js.includes snippetLower fp then score - 20 else score)
              fps x <=
    fold_left (fun score fp => if Js.includes snippetLower fp then score - 20 else score)
              fps y.
Proof.
  induction fps as [ | fp fps IH ]; intros x y H; cbn [fold_left]; [ exact H | ].
  apply IH. destruct (Js.includes snippetLower fp); [ | exact H ].
  apply Qplus_le_compat; [ exact H | apply Qle_refl ].
Qed.

Lemma context_words_raise (snippetLower : string) (words : list string) :
  forall x : Q,
    x <= fold_left (fun score word =>
                      if (3 <? String.length word)%nat && Js.includes snippetLower word
                      then score + 2 else score)
                   words x.
Proof.
  induction words as [ | w words IH ]; intros x; cbn [fold_left]; [ apply Qle_refl | ].
  eapply Qle_trans; [ | apply IH ].
  destruct ((3 <? String.length w)%nat && Js.includes snippetLower w); [ | apply Qle_refl ].
  rewrite <- (Qplus_0_r x) at 1. apply Qplus_le_compat; [ apply Qle_refl | ].
  now apply Qle_bool_iff.
Qed.

Lemma primary_context_raises (jobTitle employer searchContext snippet : string) :
  Primary.calculateConfidence jobTitle employer "" snippet <=
  Primary.calculateConfidence jobTitle employer searchContext snippet.
Proof.
  unfold Primary.calculateConfidence. cbv zeta. cbn [Js.truthy String.eqb negb andb].
  repeat match goal with
         | |- context [if ?b then _ else _] => destruct b
         end;
    apply Qle_bool_iff; reflexivity.
Qed.

Lemma alternate_context_raises (jobTitle employer searchContext snippet : string) :
  Alternate.calculateConfidence jobTitle employer "" snippet <=
  Alternate.calculateConfidence jobTitle employer searchContext snippet.
Proof.
  unfold Alternate.calculateConfidence. cbv zeta. cbn [Js.truthy String.eqb negb].
  apply clamp_monotone, penalties_monotone.
  destruct (Js.truthy searchContext); [ apply context_words_raise | apply Qle_refl ].
Qed.

(** X9.  A search context never lowers the score: in both versions the
    score under any context is at least the score under the empty context,
    and an item whose profile is retained under the empty context has its
    profile retained under every context. *)
Theorem context_never_lowers_the_score :
  (forall jobTitle employer searchContext snippet : string,
      Primary.calculateConfidence jobTitle employer "" snippet <=
      Primary.calculateConfidence jobTitle employer searchContext snippet) /\
  (forall jobTitle employer searchContext snippet : string,
      Alternate.calculateConfidence jobTitle employer "" snippet <=
      Alternate.calculateConfidence jobTitle employer searchContext snippet) /\
  (forall (item : GoogleSearchItem) (searchContext : string),
      match Primary.parseSearchItem item "", Primary.parseSearchItem item searchContext with
      | Some p0, Some p => Primary.validateProfile p0 = true -> Primary.validateProfile p = true
      | Some _, None => False
      | None, _ => True
      end) /\
  (forall (item : GoogleSearchItem) (searchContext : string),
      match Alternate.parseSearchItem item "", Alternate.parseSearchItem item searchContext with
      | Some p0, Some p => Alternate.validateProfile p0 = true -> Alternate.validateProfile p = true
      | Some _, None => False
      | None, _ => True
      end).
Proof.
  split; [ exact primary_context_raises | ].
  split; [ exact alternate_context_raises | ].
  split; intros item searchContext.
  - unfold Primary.parseSearchItem.
    destruct (negb (Regex.test linkedinUrlPattern _)); [ exact I | ].
    destruct (Primary.extractTitleAndCompany _ _) as [ jobTitle employer ].
    unfold Primary.validateProfile.
    cbn [name linkedin_url confidence_score].
    rewrite !andb_true_iff. intros [ [ [ Hs Hn ] Hu ] Hl ].
    repeat split; try assumption.
    unfold num_ge in *. apply Qle_bool_iff. apply Qle_bool_iff in Hs.
    eapply Qle_trans; [ exact Hs | apply primary_context_raises ].
  - unfold Alternate.parseSearchItem.
    destruct (negb (Regex.test linkedinUrlPattern _)); [ exact I | ].
    destruct (Alternate.extractTitleAndCompany _ _) as [ jobTitle employer ].
    unfold Alternate.validateProfile.
    cbn [name linkedin_url confidence_score].
    rewrite !andb_true_iff. intros [ [ Hn Hu ] Hs ].
    repeat split; try assumption.
    unfold num_gt in *. apply negb_true_iff. apply negb_true_iff in Hs.
    destruct (Qle_bool (Alternate.calculateConfidence jobTitle employer searchContext _) 10)
      eqn:E; [ | reflexivity ].
    apply Qle_bool_iff in E.
    assert (Hle : Alternate.calculateConfidence jobTitle employer ""
                    (Js.or_empty (snippet item)) <= 10)
      by (eapply Qle_trans; [ apply alternate_context_raises | exact E ]).
    apply Qle_bool_iff in Hle. congruence.
Qed.

(** ** Extraction as a filter *)

Section ExtractionLoop.

Variable Item : Type.
Variable convert : Item -> GoogleSearchItem.

Lemma primary_loop (searchContext : string) (its : list Item) :
  forall acc,
    fold_left (fun profiles item =>
                 Primary.push_if_valid profiles
                   (Primary.parseSearchItem (convert item) searchContext)) its acc =
    (acc ++ flat_map (fun item => primary_kept searchContext (convert item)) its)%list.
Proof.
  induction its as [ | item its IH ]; intros acc; cbn [fold_left flat_map].
  - now rewrite app_nil_r.
  - rewrite IH. unfold Primary.push_if_valid, primary_kept.
    destruct (Primary.parseSearchItem (convert item) searchContext) as [ p | ];
      [ destruct (Primary.validateProfile p) | ];
      now rewrite <- ?app_assoc.
Qed.

Lemma alternate_loop (searchContext : string) (its : list Item) :
  forall acc,
    fold_left (fun profiles item =>
                 Alternate.push_if_valid profiles
                   (Alternate.parseSearchItem (convert item) searchContext)) its acc =
    (acc ++ flat_map (fun item => alternate_kept searchContext (convert item)) its)%list.
Proof.
  induction its as [ | item its IH ]; intros acc; cbn [fold_left flat_map].
  - now rewrite app_nil_r.
  - rewrite IH. unfold Alternate.push_if_valid, alternate_kept.
    destruct (Alternate.parseSearchItem (convert item) searchContext) as [ p | ];
      [ destruct (Alternate.validateProfile p) | ];
      now rewrite <- ?app_assoc.
Qed.

End ExtractionLoop.

Lemma primary_extractProfiles_kept (its : list GoogleSearchItem) (searchContext : string) :
  Primary.extractProfiles {| items := Some its |} searchContext =
  flat_map (primary_kept searchContext) its.
Proof. unfold Primary.extractProfiles. cbn [items]. apply (primary_loop _ (fun i => i)). Qed.

Lemma primary_extractSerp_kept (its : list SerpApiSearchItem) (searchContext : string) :
  Primary.extractProfilesFromSerpApi {| organic_results := Some its |} searchContext =
  flat_map (fun item => primary_kept searchContext (as_google_item item)) its.
Proof.
  unfold Primary.extractProfilesFromSerpApi. cbn [organic_results].
  apply (primary_loop _ as_google_item).
Qed.

Lemma alternate_extractProfiles_kept (its : list GoogleSearchItem) (searchContext : string) :
  Alternate.extractProfiles {| items := Some its |} searchContext =
  flat_map (alternate_kept searchContext) its.
Proof. unfold Alternate.extractProfiles. cbn [items]. apply (alternate_loop _ (fun i => i)). Qed.

Lemma alternate_extractSerp_kept (its : list SerpApiSearchItem) (searchContext : string) :
  Alternate.extractProfilesFromSerpApi {| organic_results := Some its |} searchContext =
  flat_map (fun item => alternate_kept searchContext (as_google_item item)) its.
Proof.
  unfold Alternate.extractProfilesFromSerpApi. cbn [organic_results].
  apply (alternate_loop _ as_google_item).
Qed.

Lemma primary_kept_length (searchContext : string) (item : GoogleSearchItem) :
  (Datatypes.length (primary_kept searchContext item) <= 1)%nat.
Proof.
  unfold primary_kept. destruct (Primary.parseSearchItem _ _) as [ p | ];
    [ destruct (Primary.validateProfile p) | ]; simpl; lia.
Qed.

Lemma alternate_kept_length (searchContext : string) (item : GoogleSearchItem) :
  (Datatypes.length (alternate_kept searchContext item) <= 1)%nat.
Proof.
  unfold alternate_kept. destruct (Alternate.parseSearchItem _ _) as [ p | ];
    [ destruct (Alternate.validateProfile p) | ]; simpl; lia.
Qed.

Lemma flat_map_le_length {A B : Type} (f : A -> list B) (l : list A) :
  (forall x, Datatypes.length (f x) <= 1)%nat ->
  (Datatypes.length (flat_map f l) <= Datatypes.length l)%nat.
Proof.
  intros H. pose proof (flat_map_length_le f 1 l H). lia.
Qed.

(** X10.  Each item is judged on its own: the profiles extracted from two
    lists of items put end to end are the profiles of the first followed by
    those of the second, and there is at most one profile per item.  This
    holds for the four entry points. *)
Theorem extraction_is_item_by_item :
  forall (searchContext : string),
    (forall a b : list GoogleSearchItem,
        Primary.extractProfiles {| items := Some (a ++ b)%list |} searchContext =
        (Primary.extractProfiles {| items := Some a |} searchContext ++
         Primary.extractProfiles {| items := Some b |} searchContext)%list /\
        Alternate.extractProfiles {| items := Some (a ++ b)%list |} searchContext =
        (Alternate.extractProfiles {| items := Some a |} searchContext ++
         Alternate.extractProfiles {| items := Some b |} searchContext)%list /\
        (Datatypes.length (Primary.extractProfiles {| items := Some a |} searchContext)
         <= Datatypes.length a)%nat /\
        (Datatypes.length (Alternate.extractProfiles {| items := Some a |} searchContext)
         <= Datatypes.length a)%nat) /\
    (forall a b : list SerpApiSearchItem,
        Primary.extractProfilesFromSerpApi {| organic_results := Some (a ++ b)%list |} searchContext =
        (Primary.extractProfilesFromSerpApi {| organic_results := Some a |} searchContext ++
         Primary.extractProfilesFromSerpApi {| organic_results := Some b |} searchContext)%list /\
        Alternate.extractProfilesFromSerpApi {| organic_results := Some (a ++ b)%list |} searchContext =
        (Alternate.extractProfilesFromSerpApi {| organic_results := Some a |} searchContext ++
         Alternate.extractProfilesFromSerpApi {| organic_results := Some b |} searchContext)%list /\
        (Datatypes.length
           (Primary.extractProfilesFromSerpApi {| organic_results := Some a |} searchContext)
         <= Datatypes.length a)%nat /\
        (Datatypes.length
           (Alternate.extractProfilesFromSerpApi {| organic_results := Some a |} searchContext)
         <= Datatypes.length a)%nat).
Proof.
  intros searchContext. split; intros a b.
  - rewrite !primary_extractProfiles_kept, !alternate_extractProfiles_kept, !flat_map_app.
    repeat split; apply flat_map_le_length; intros item;
      [ apply primary_kept_length | apply alternate_kept_length ].
  - rewrite !primary_extractSerp_kept, !alternate_extractSerp_kept, !flat_map_app.
    repeat split; apply flat_map_le_length; intros item;
      [ apply primary_kept_length | apply alternate_kept_length ].
Qed.

(** ** The requests of a search *)

Lemma google_page_ext (b1 b2 : Backend GoogleSearchResponse) (query : string)
      (st : Google.PageState) :
  b1 (Google.calls st)
     {| req_q := query; req_num := Google.maxResults; req_start := Some (Google.startIndex st) |} =
  b2 (Google.calls st)
     {| req_q := query; req_num := Google.maxResults; req_start := Some (Google.startIndex st) |} ->
  Google.page b1 query st = Google.page b2 query st.
Proof. intros H. unfold Google.page. cbv zeta. now rewrite H. Qed.

Lemma google_page_inv (b : Backend GoogleSearchResponse) (query : string)
      (st st' : Google.PageState) :
  google_loop_inv st -> Google.hasMoreResults st = true ->
  Google.page b query st = Next st' -> google_loop_inv st'.
Proof.
  intros Hinv Hmore. destruct (Hinv Hmore) as [ Hstart Hle ].
  unfold Google.page. cbv zeta.
  destruct (b _ _) as [ e | status text | e | data ]; try discriminate;
    try (intros [= <-]; intros H; cbn in H; discriminate).
  destruct (items data) as [ [ | it its ] | ];
    try (intros [= <-]; intros H; cbn in H; discriminate).
  destruct (_ <? _)%Z.
  - intros [= <-]. intros H. cbn in H. discriminate.
  - intros [= <-]. unfold Google.maxResults. intros H.
    cbn [Google.startIndex Google.calls Google.hasMoreResults] in *.
    apply negb_true_iff, Z.ltb_ge in H. lia.
Qed.

Lemma google_while_ext (b1 b2 : Backend GoogleSearchResponse) (query : string) :
  (forall i, (i < 10)%nat -> b1 i (google_request query i) = b2 i (google_request query i)) ->
  forall (fuel : nat) (st : Google.PageState),
    google_loop_inv st ->
    Google.while b1 fuel query st = Google.while b2 fuel query st.
Proof.
  intros Hagree. induction fuel as [ | fuel IH ]; intros st Hinv; cbn [Google.while].
  - reflexivity.
  - destruct (Google.hasMoreResults st) eqn:Hmore; [ | reflexivity ].
    assert (Hpage : Google.page b1 query st = Google.page b2 query st).
    { apply google_page_ext. destruct (Hinv Hmore) as [ Hstart Hle ]. rewrite Hstart.
      apply (Hagree (Google.calls st)). lia. }
    rewrite Hpage. destruct (Google.page b2 query st) as [ st' | st' ] eqn:E; [ | reflexivity ].
    apply IH. exact (google_page_inv _ _ _ _ Hinv Hmore E).
Qed.

Lemma serp_for_ext (b1 b2 : Backend SerpApiResponse) (query : string) :
  (forall i, (i < 10)%nat -> b1 i (serp_request query i) = b2 i (serp_request query i)) ->
  forall (fuel : nat) (st : Serp.PageState),
    Serp.for_pages b1 fuel query (Z.of_nat (Serp.calls st)) st =
    Serp.for_pages b2 fuel query (Z.of_nat (Serp.calls st)) st.
Proof.
  intros Hagree. induction fuel as [ | fuel IH ]; intros st; cbn [Serp.for_pages].
  - reflexivity.
  - destruct (Z.of_nat (Serp.calls st) <? 10)%Z eqn:Hlt; [ | reflexivity ].
    apply Z.ltb_lt in Hlt.
    assert (Hpage : Serp.fetchPage b1 query (Z.of_nat (Serp.calls st)) st =
                    Serp.fetchPage b2 query (Z.of_nat (Serp.calls st)) st).
    { unfold Serp.fetchPage. cbv zeta.
      pose proof (Hagree (Serp.calls st) ltac:(lia)) as H. unfold serp_request in H.
      now rewrite H. }
    rewrite Hpage.
    destruct (Serp.fetchPage b2 query (Z.of_nat (Serp.calls st)) st) as [ st' | st' ] eqn:E;
      [ | reflexivity ].
    assert (Hcalls : Serp.calls st' = S (Serp.calls st)).
    { revert E. unfold Serp.fetchPage. cbv zeta.
      destruct (b2 _ _) as [ e | status text | e | data ]; try discriminate.
      destruct (organic_results data) as [ [ | r rs ] | ]; try discriminate.
      now intros [= <-]. }
    replace (Z.of_nat (Serp.calls st) + 1)%Z with (Z.of_nat (Serp.calls st')) by lia.
    apply IH.
Qed.

(** X11.  An exhaustive search looks at the backend only through its first
    ten requests, each for 10 results, the [i]-th starting at [1 + 10 * i]
    for Google and at [10 * i] for SerpAPI: two backends that answer these
    alike give the same outcome, whatever they answer to anything else. *)
Theorem exhaustive_search_requests :
  forall (query : string) (fuel : nat),
    (forall b1 b2 : Backend GoogleSearchResponse,
        (forall i, (i < 10)%nat ->
                   b1 i (google_request query i) = b2 i (google_request query i)) ->
        Google.executeSearchAllPages b1 fuel query =
        Google.executeSearchAllPages b2 fuel query) /\
    (forall b1 b2 : Backend SerpApiResponse,
        (forall i, (i < 10)%nat ->
                   b1 i (serp_request query i) = b2 i (serp_request query i)) ->
        Serp.executeSearchAllPages b1 fuel query =
        Serp.executeSearchAllPages b2 fuel query).
Proof.
  intros query fuel. split; intros b1 b2 Hagree.
  - unfold Google.executeSearchAllPages.
    rewrite (google_while_ext b1 b2 query Hagree); [ reflexivity | ].
    intros _. split; cbn; [ reflexivity | lia ].
  - unfold Serp.executeSearchAllPages.
    pose proof (serp_for_ext b1 b2 query Hagree fuel
                  {| Serp.allResults := []; Serp.calls := 0 |}) as H.
    cbn [Serp.calls Z.of_nat] in H. now rewrite H.
Qed.

Lemma exhaustive_search_requests_witness :
  Google.executeSearchAllPages four_pages_google 10 "q" =
  Google.executeSearchAllPages (only_pages four_pages_google) 10 "q" /\
  Serp.executeSearchAllPages four_pages_serp 10 "q" =
  Serp.executeSearchAllPages (only_pages four_pages_serp) 10 "q".
Proof.
  destruct (exhaustive_search_requests "q" 10) as [ Hgoogle Hserp ].
  split.
  - apply Hgoogle. intros i Hi. unfold only_pages.
    apply Nat.ltb_lt in Hi. now rewrite Hi.
  - apply Hserp. intros i Hi. unfold only_pages.
    apply Nat.ltb_lt in Hi. now rewrite Hi.
Defined.

(** * The HTTP endpoints *)

Example parseInt_examples :
  JsNumber.parseInt "42" = Some 42%Z /\
  JsNumber.parseInt "  7 records" = Some 7%Z /\
  JsNumber.parseInt "-3" = Some (-3)%Z /\
  JsNumber.parseInt "0x1F" = Some 31%Z /\
  JsNumber.parseInt "12.9" = Some 12%Z /\
  JsNumber.parseInt "ten" = None /\
  JsNumber.parseInt "" = None.
Proof. repeat split. Qed.

Lemma remember_firstn (searchRecord : Api.SearchRecord) (history : list Api.SearchRecord) :
  Api.remember searchRecord history = firstn 100 (searchRecord :: history).
Proof.
  unfold Api.remember. cbv zeta.
  destruct (100 <? Datatypes.length (searchRecord :: history))%nat eqn:E; [ reflexivity | ].
  apply Nat.ltb_ge in E. symmetry. now apply firstn_all2.
Qed.

Lemma google_search_total (google : Backend GoogleSearchResponse) (fuel : nat)
      region sector type titles getAllPages :
  (10 <= fuel)%nat ->
  exists c n, Google.searchCtoProfiles google fuel region sector type titles getAllPages
              = Some (c, n).
Proof.
  intros Hfuel. unfold Google.searchCtoProfiles.
  destruct (buildQuery region sector type titles) as [ q | e ]; [ | eauto ].
  destruct (google_all_pages google q fuel Hfuel) as (n & _ & ->). eauto.
Qed.

Lemma serp_search_total (serp : Backend SerpApiResponse) (fuel : nat)
      region sector type titles getAllPages :
  (10 <= fuel)%nat ->
  exists c n, Serp.searchCtoProfiles serp fuel region sector type titles getAllPages
              = Some (c, n).
Proof.
  intros Hfuel. unfold Serp.searchCtoProfiles.
  destruct (buildQuery region sector type titles) as [ q | e ]; [ | eauto ].
  destruct getAllPages.
  - destruct (serp_all_pages serp q fuel Hfuel) as (n & _ & ->). eauto.
  - destruct (Serp.executeSearch serp q 10 0) as [ c n ]. eauto.
Qed.

Lemma search_profiles_bookkeeping extractProfiles google fuel clock body history reply history' :
  Api.search_profiles extractProfiles google fuel clock body history = Some (reply, history') ->
  bookkeeping reply history history'.
Proof.
  unfold Api.search_profiles. cbv zeta.
  destruct body as [ request | error ].
  - destruct (if Api.getAllPages request then _ else _) as [ [ [ searchResults | error ] n ] | ];
      [ | | discriminate ].
    + intros [= <- <-]. cbn [bookkeeping Api.total_results Api.linkedin_urls Api.query].
      split; [ now rewrite length_map | ].
      eexists. split; [ apply remember_firstn | ]. now cbn.
    + intros [= <- <-]. cbn. auto.
  - intros [= <- <-]. cbn. auto.
Qed.

Lemma search_profiles_serpapi_bookkeeping extractSerp key serp fuel clock body history
      reply history' :
  Api.search_profiles_serpapi extractSerp key serp fuel clock body history
  = Some (reply, history') ->
  bookkeeping reply history history'.
Proof.
  unfold Api.search_profiles_serpapi. cbv zeta.
  destruct body as [ request | error ].
  - destruct (negb (Js.truthy key)).
    + intros [= <- <-]. cbn. auto.
    + destruct (Serp.searchCtoProfiles _ _ _ _ _ _ _)
        as [ [ [ searchResults | error ] n ] | ]; [ | | discriminate ].
      * intros [= <- <-]. cbn [bookkeeping Api.total_results Api.linkedin_urls Api.query].
        split; [ now rewrite length_map | ].
        eexists. split; [ apply remember_firstn | ]. now cbn.
      * intros [= <- <-]. cbn. auto.
  - intros [= <- <-]. cbn. auto.
Qed.

Lemma search_profiles_total extractProfiles google fuel clock body history :
  (10 <= fuel)%nat ->
  exists reply history',
    Api.search_profiles extractProfiles google fuel clock body history = Some (reply, history').
Proof.
  intros Hfuel. unfold Api.search_profiles. cbv zeta.
  destruct body as [ request | error ]; [ | eauto ].
  destruct (Api.getAllPages request).
  - destruct (google_search_total google fuel (Api.region request)
                (Api.company_sector request) (Api.company_type request) None true Hfuel)
      as (c & n & ->).
    destruct c; eauto.
  - destruct (Google.searchCtoProfilesLimited _ _ _ _ _ _) as [ [ r | e ] n ]; eauto.
Qed.

Lemma search_profiles_serpapi_total extractSerp key serp fuel clock body history :
  (10 <= fuel)%nat ->
  exists reply history',
    Api.search_profiles_serpapi extractSerp key serp fuel clock body history
    = Some (reply, history').
Proof.
  intros Hfuel. unfold Api.search_profiles_serpapi. cbv zeta.
  destruct body as [ request | error ]; [ | eauto ].
  destruct (negb (Js.truthy key)); [ eauto | ].
  destruct (serp_search_total serp fuel (Api.region request)
              (Api.company_sector request) (Api.company_type request) None
              (Api.getAllPages request) Hfuel)
    as (c & n & ->).
  destruct c; eauto.
Qed.

(** X12.  With fuel for ten pages each search handler answers, whatever the
    body, the backend and the history.  A result reports as many results as
    it lists URLs and is recorded in front of the history under the same
    query text and count, with nothing kept beyond 100 entries; a failure
    (status 500, or 400 for the missing SerpAPI key) leaves the history
    untouched. *)
Theorem search_handlers_keep_the_books :
  forall (extractProfiles : GoogleSearchResponse -> string -> list LinkedInProfile)
         (extractProfilesFromSerpApi : SerpApiResponse -> string -> list LinkedInProfile)
         (SERPAPI_KEY : string)
         (google : Backend GoogleSearchResponse) (serp : Backend SerpApiResponse)
         (fuel : nat) (clock : Api.Clock) (body : Completion Api.SearchRequest)
         (history : list Api.SearchRecord),
    (10 <= fuel)%nat ->
    (exists reply history',
        Api.search_profiles extractProfiles google fuel clock body history
        = Some (reply, history') /\
        bookkeeping reply history history') /\
    (exists reply history',
        Api.search_profiles_serpapi extractProfilesFromSerpApi SERPAPI_KEY serp fuel clock
          body history = Some (reply, history') /\
        bookkeeping reply history history').
Proof.
  intros extractProfiles extractSerp key google serp fuel clock body history Hfuel. split.
  - destruct (search_profiles_total extractProfiles google fuel clock body history Hfuel)
      as (reply & history' & E).
    exists reply, history'. split; [ exact E | ].
    exact (search_profiles_bookkeeping _ _ _ _ _ _ _ _ E).
  - destruct (search_profiles_serpapi_total extractSerp key serp fuel clock body history Hfuel)
      as (reply & history' & E).
    exists reply, history'. split; [ exact E | ].
    exact (search_profiles_serpapi_bookkeeping _ _ _ _ _ _ _ _ _ E).
Qed.

Lemma search_handlers_keep_the_books_witness :
  (exists reply history',
      Api.search_profiles Alternate.extractProfiles four_pages_google 10 noon
        (Returned empty_request) [] = Some (reply, history') /\
      bookkeeping reply [] history') /\
  (exists reply history',
      Api.search_profiles_serpapi Alternate.extractProfilesFromSerpApi "key" four_pages_serp
        10 noon (Returned empty_request) [] = Some (reply, history') /\
      bookkeeping reply [] history').
Proof.
  apply (search_handlers_keep_the_books Alternate.extractProfiles
           Alternate.extractProfilesFromSerpApi "key" four_pages_google four_pages_serp
           10 noon (Returned empty_request) []).
  lia.
Defined.

(** ** The history *)

Lemma firstn_100_length {A : Type} (l : list A) : (Datatypes.length (firstn 100 l) <= 100)%nat.
Proof. rewrite length_firstn. lia. Qed.

Lemma in_firstn {A : Type} (n : nat) (x : A) :
  forall l, In x (firstn n l) -> In x l.
Proof.
  induction n as [ | n IH ]; intros [ | y l ] H; simpl in H; try contradiction.
  destruct H as [ <- | H ]; [ now left | right; now apply IH ].
Qed.

Lemma bookkeeping_invariant (reply : Api.Reply) (before after : list Api.SearchRecord) :
  bookkeeping reply before after ->
  (Datatypes.length before <= 100)%nat /\
  Forall (fun r => Api.record_company r = None) before ->
  (Datatypes.length after <= 100)%nat /\
  Forall (fun r => Api.record_company r = None) after.
Proof.
  intros B [ Hlen Hall ]. destruct reply as [ response | searches | status error ];
    cbn [bookkeeping] in B.
  - destruct B as [ _ (searchRecord & -> & _ & _ & Hnull) ]. split.
    + apply firstn_100_length.
    + apply Forall_forall. intros r Hr. apply in_firstn in Hr.
      rewrite Forall_forall in Hall. destruct Hr as [ <- | Hr ]; auto.
  - destruct B.
  - destruct B as [ _ -> ]. now split.
Qed.

(** X13.  After any number of calls of the two search endpoints on a fresh
    server the history holds at most 100 entries, and the [company] of each
    of them is [null]. *)
Theorem history_is_bounded :
  forall (extractProfiles : GoogleSearchResponse -> string -> list LinkedInProfile)
         (extractProfilesFromSerpApi : SerpApiResponse -> string -> list LinkedInProfile)
         (SERPAPI_KEY : string) (history : list Api.SearchRecord),
    Api.reachable extractProfiles extractProfilesFromSerpApi SERPAPI_KEY history ->
    (Datatypes.length history <= 100)%nat /\
    Forall (fun r => Api.record_company r = None) history.
Proof.
  intros extractProfiles extractSerp key history R.
  induction R as [ | google fuel clock body history reply history' R IH E
                   | serp fuel clock body history reply history' R IH E ].
  - split; [ simpl; lia | constructor ].
  - exact (bookkeeping_invariant _ _ _ (search_profiles_bookkeeping _ _ _ _ _ _ _ _ E) IH).
  - exact (bookkeeping_invariant _ _ _
             (search_profiles_serpapi_bookkeeping _ _ _ _ _ _ _ _ _ E) IH).
Qed.

Lemma history_is_bounded_witness :
  exists reply history,
    Api.search_profiles_serpapi Alternate.extractProfilesFromSerpApi "key"
      (always no_more_results) 10 noon (Returned empty_request) [] = Some (reply, history) /\
    (Datatypes.length history <= 100)%nat /\
    Forall (fun r => Api.record_company r = None) history.
Proof.
  eexists. eexists. split.
  - reflexivity.
  - apply (history_is_bounded Alternate.extractProfiles Alternate.extractProfilesFromSerpApi
             "key").
    eapply (Api.reachable_serpapi _ _ _ (always no_more_results) 10%nat noon
              (Returned empty_request) []);
      [ apply Api.reachable_start | reflexivity ].
Defined.

(** ** Which failures reach the client *)



(** ** Request fields the search does not use *)

(** X15.  [company_size] never reaches the search: it changes the query
    text of the reply and of the record, not the URLs found.  A
    [num_results] of 0 is the same as none.  The SerpAPI handler uses
    [num_results] only to choose the mode, so any two values other than 0
    give the same answer; for the Google handler any two values of at least
    10 do. *)
Theorem request_fields_the_search_ignores :
  forall (extractProfiles : GoogleSearchResponse -> string -> list LinkedInProfile)
         (extractProfilesFromSerpApi : SerpApiResponse -> string -> list LinkedInProfile)
         (SERPAPI_KEY : string)
         (google : Backend GoogleSearchResponse) (serp : Backend SerpApiResponse)
         (fuel : nat) (clock : Api.Clock) (request : Api.SearchRequest)
         (history : list Api.SearchRecord),
    let answer request :=
      Api.search_profiles extractProfiles google fuel clock (Returned request) history in
    let answer_serpapi request :=
      Api.search_profiles_serpapi extractProfilesFromSerpApi SERPAPI_KEY serp fuel clock
        (Returned request) history in
    (forall size,
        answered_urls (answer (with_company_size size request)) =
        answered_urls (answer request) /\
        answered_urls (answer_serpapi (with_company_size size request)) =
        answered_urls (answer_serpapi request)) /\
    (answer (with_num_results (Some 0%Z) request) = answer (with_num_results None request) /\
     answer_serpapi (with_num_results (Some 0%Z) request) =
     answer_serpapi (with_num_results None request)) /\
    (forall n m : Z,
        n <> 0%Z -> m <> 0%Z ->
        answer_serpapi (with_num_results (Some n) request) =
        answer_serpapi (with_num_results (Some m) request)) /\
    (forall n m : Z,
        (10 <= n)%Z -> (10 <= m)%Z ->
        answer (with_num_results (Some n) request) =
        answer (with_num_results (Some m) request)).
Proof.
  intros extractProfiles extractSerp key google serp fuel clock request history
         answer answer_serpapi.
  subst answer answer_serpapi. cbv beta.
  unfold Api.search_profiles, Api.search_profiles_serpapi, with_company_size,
    with_num_results, Api.getAllPages, Api.numResults, Api.searchContext, Api.queryText.
  cbv zeta.
  cbn [Api.region Api.company_sector Api.company_type Api.company_size Api.num_results
       Api.get_all_pages JsNumber.truthy].
  split; [ | split; [ | split ] ].
  - intros size. split.
    + destruct (match Api.get_all_pages request with Some b => b | None => _ end);
        repeat match goal with
               | |- context [match ?x with Some _ => _ | None => _ end] => destruct x
               | |- context [let (_, _) := ?x in _] => destruct x
               | |- context [match ?x with Returned _ => _ | Thrown _ => _ end] => destruct x
               end; reflexivity.
    + destruct (negb (Js.truthy key)); [ reflexivity | ].
      repeat match goal with
             | |- context [match ?x with Some _ => _ | None => _ end] => destruct x
             | |- context [let (_, _) := ?x in _] => destruct x
             | |- context [match ?x with Returned _ => _ | Thrown _ => _ end] => destruct x
             end; reflexivity.
  - cbn [Z.eqb negb]. split; reflexivity.
  - intros n m Hn Hm.
    apply Z.eqb_neq in Hn. apply Z.eqb_neq in Hm. now rewrite Hn, Hm.
  - intros n m Hn Hm.
    assert (En : (n =? 0)%Z = false) by (apply Z.eqb_neq; lia).
    assert (Em : (m =? 0)%Z = false) by (apply Z.eqb_neq; lia).
    rewrite En, Em. cbn [negb].
    unfold Google.searchCtoProfilesLimited, Google.executeSearch. cbv zeta.
    now rewrite !Z.min_r by lia.
Qed.

(** ** What a reply lists *)

Lemma kept_links (extract_kept : GoogleSearchItem -> list LinkedInProfile)
      (its : list GoogleSearchItem) :
  (forall item, Forall matches_profile_pattern (extract_kept item)) ->
  Forall matches_profile_pattern (flat_map extract_kept its).
Proof.
  intros H. induction its as [ | item its IH ]; cbn [flat_map]; [ constructor | ].
  apply Forall_app. split; [ apply H | exact IH ].
Qed.

Lemma urls_of_profiles (profiles : list LinkedInProfile) :
  Forall matches_profile_pattern profiles ->
  Forall (fun url => Regex.test linkedinUrlPattern url = true) (map linkedin_url profiles).
Proof.
  induction 1 as [ | p profiles Hp _ IH ]; cbn [map]; constructor; assumption.
Qed.

Lemma primary_links (response : GoogleSearchResponse) (searchContext : string) :
  Forall matches_profile_pattern (Primary.extractProfiles response searchContext).
Proof.
  apply (primary_extracted matches_profile_pattern searchContext).
  intros item p Hp. pose proof (primary_parse_checks_link item searchContext) as H.
  rewrite Hp in H. destruct H as (Hurl & Hlink & _).
  unfold matches_profile_pattern. now rewrite Hlink.
Qed.

Lemma primary_serp_links (response : SerpApiResponse) (searchContext : string) :
  Forall matches_profile_pattern (Primary.extractProfilesFromSerpApi response searchContext).
Proof.
  apply (primary_extracted matches_profile_pattern searchContext).
  intros item p Hp. pose proof (primary_parse_checks_link item searchContext) as H.
  rewrite Hp in H. destruct H as (Hurl & Hlink & _).
  unfold matches_profile_pattern. now rewrite Hlink.
Qed.

Lemma alternate_links (response : GoogleSearchResponse) (searchContext : string) :
  Forall matches_profile_pattern (Alternate.extractProfiles response searchContext).
Proof.
  apply (alternate_extracted matches_profile_pattern searchContext).
  intros item p Hp. pose proof (alternate_parse_checks_link item searchContext) as H.
  rewrite Hp in H. destruct H as (Hurl & Hlink & _).
  unfold matches_profile_pattern. now rewrite Hlink.
Qed.

Lemma alternate_serp_links (response : SerpApiResponse) (searchContext : string) :
  Forall matches_profile_pattern (Alternate.extractProfilesFromSerpApi response searchContext).
Proof.
  apply (alternate_extracted matches_profile_pattern searchContext).
  intros item p Hp. pose proof (alternate_parse_checks_link item searchContext) as H.
  rewrite Hp in H. destruct H as (Hurl & Hlink & _).
  unfold matches_profile_pattern. now rewrite Hlink.
Qed.


Lemma primary_extractor_ok : google_extractor_ok Primary.extractProfiles.
Proof.
  intros [ [ its | ] ] searchContext; split; try apply primary_links; cbn [items].
  - rewrite primary_extractProfiles_kept. apply flat_map_le_length.
    intros item. apply primary_kept_length.
  - unfold Primary.extractProfiles. cbn. lia.
Qed.

Lemma alternate_extractor_ok : google_extractor_ok Alternate.extractProfiles.
Proof.
  intros [ [ its | ] ] searchContext; split; try apply alternate_links; cbn [items].
  - rewrite alternate_extractProfiles_kept. apply flat_map_le_length.
    intros item. apply alternate_kept_length.
  - unfold Alternate.extractProfiles. cbn. lia.
Qed.

Lemma primary_serp_extractor_ok : serp_extractor_ok Primary.extractProfilesFromSerpApi.
Proof.
  intros [ [ its | ] ] searchContext; split; try apply primary_serp_links;
    cbn [organic_results].
  - rewrite primary_extractSerp_kept. apply flat_map_le_length.
    intros item. apply primary_kept_length.
  - unfold Primary.extractProfilesFromSerpApi. cbn. lia.
Qed.

Lemma alternate_serp_extractor_ok : serp_extractor_ok Alternate.extractProfilesFromSerpApi.
Proof.
  intros [ [ its | ] ] searchContext; split; try apply alternate_serp_links;
    cbn [organic_results].
  - rewrite alternate_extractSerp_kept. apply flat_map_le_length.
    intros item. apply alternate_kept_length.
  - unfold Alternate.extractProfilesFromSerpApi. cbn. lia.
Qed.

Lemma google_answers_ceiling (google : Backend GoogleSearchResponse) (query : string) (n : nat) :
  google_capped google -> (n <= 10)%nat ->
  (Datatypes.length (google_answers google query 0 n) <= 100)%nat.
Proof.
  intros Hcap Hn. unfold google_answers.
  pose proof (flat_map_length_le
                (fun i => google_page (google i (google_request query i))) 10 (seq 0 n)
                (fun i => Hcap i _)) as Hlen.
  rewrite length_seq in Hlen. lia.
Qed.

Lemma serp_answers_ceiling (serp : Backend SerpApiResponse) (query : string) (n : nat) :
  serp_capped serp -> (n <= 10)%nat ->
  (Datatypes.length (serp_answers serp query 0 n) <= 100)%nat.
Proof.
  intros Hcap Hn. unfold serp_answers.
  pose proof (flat_map_length_le
                (fun i => serp_page (serp i (serp_request query i))) 10 (seq 0 n)
                (fun i => Hcap i _)) as Hlen.
  rewrite length_seq in Hlen. lia.
Qed.

Lemma search_profiles_lists_links extract google fuel clock request history :
  google_extractor_ok extract -> (10 <= fuel)%nat -> google_capped google ->
  exists reply history',
    Api.search_profiles extract google fuel clock (Returned request) history
    = Some (reply, history') /\
    lists_profile_links (if Api.getAllPages request then 100 else 10) reply.
Proof.
  intros Hok Hfuel Hcap. unfold Api.search_profiles. cbv zeta.
  unfold Google.searchCtoProfiles, Google.searchCtoProfilesLimited.
  destruct (buildQuery _ _ _ _) as [ q | e ].
  - destruct (Api.getAllPages request).
    + destruct (google_all_pages google q fuel Hfuel) as (n & Hn & ->).
      eexists. eexists. split; [ reflexivity | ].
      cbn [lists_profile_links Api.linkedin_urls Api.total_results].
      destruct (Hok {| items := Some (google_answers google q 0 n) |}
                    (Api.searchContext request)) as [ Hlinks Hlen ].
      split; [ now apply urls_of_profiles | ].
      cbn [items] in Hlen.
      pose proof (google_answers_ceiling google q n Hcap ltac:(lia)). lia.
    + unfold Google.executeSearch. cbv zeta.
      pose proof (Hcap 0%nat {| req_q := q; req_num := Z.min (Api.numResults request) 10;
                                req_start := None |}) as Hpage.
      destruct (google 0%nat _) as [ e | status text | e | data ];
        try (eexists; eexists; split; [ reflexivity | exact I ]).
      eexists. eexists. split; [ reflexivity | ].
      cbn [lists_profile_links Api.linkedin_urls Api.total_results].
      destruct (Hok data (Api.searchContext request)) as [ Hlinks Hlen ].
      split; [ now apply urls_of_profiles | ].
      destruct data as [ [ its | ] ]; cbn [items google_page] in *; simpl in Hlen; lia.
  - destruct (Api.getAllPages request);
      eexists; eexists; (split; [ reflexivity | exact I ]).
Qed.

Lemma search_profiles_serpapi_lists_links extract key serp fuel clock request history :
  serp_extractor_ok extract -> (10 <= fuel)%nat -> serp_capped serp ->
  exists reply history',
    Api.search_profiles_serpapi extract key serp fuel clock (Returned request) history
    = Some (reply, history') /\
    lists_profile_links (if Api.getAllPages request then 100 else 10) reply.
Proof.
  intros Hok Hfuel Hcap. unfold Api.search_profiles_serpapi. cbv zeta.
  destruct (negb (Js.truthy key));
    [ eexists; eexists; split; [ reflexivity | exact I ] | ].
  unfold Serp.searchCtoProfiles.
  destruct (buildQuery _ _ _ _) as [ q | e ];
    [ | eexists; eexists; split; [ reflexivity | exact I ] ].
  destruct (Api.getAllPages request).
  - destruct (serp_all_pages serp q fuel Hfuel) as (n & Hn & ->).
    eexists. eexists. split; [ reflexivity | ].
    cbn [lists_profile_links Api.linkedin_urls Api.total_results].
    destruct (Hok {| organic_results := Some (serp_answers serp q 0 n) |}
                  (Api.searchContext request)) as [ Hlinks Hlen ].
    split; [ now apply urls_of_profiles | ].
    cbn [organic_results] in Hlen.
    pose proof (serp_answers_ceiling serp q n Hcap ltac:(lia)). lia.
  - unfold Serp.executeSearch. cbv zeta.
    pose proof (Hcap 0%nat {| req_q := q; req_num := 10; req_start := None |}) as Hpage.
    pose proof (Hok {| organic_results := Some [] |} (Api.searchContext request))
      as [ Hlinks0 Hlen0 ].
    cbn [organic_results Datatypes.length] in Hlen0.
    destruct (serp 0%nat _) as [ e | status text | e | data ].
    4: { eexists. eexists. split; [ reflexivity | ].
         cbn [lists_profile_links Api.linkedin_urls Api.total_results].
         destruct (Hok data (Api.searchContext request)) as [ Hlinks Hlen ].
         split; [ now apply urls_of_profiles | ].
         destruct data as [ [ its | ] ]; cbn [organic_results serp_page] in *;
           simpl in Hlen; lia. }
    all: eexists; eexists; (split; [ reflexivity | ]);
      cbn [lists_profile_links Api.linkedin_urls Api.total_results];
      (split; [ now apply urls_of_profiles | lia ]).
Qed.

(** X16.  Against a backend that sends no more than the 10 results asked
    for, each search handler, with either version of the extractor, lists
    only links that match the profile pattern, at most 100 of them in
    exhaustive mode and at most 10 in bounded mode. *)
Theorem replies_list_profile_links :
  forall (SERPAPI_KEY : string)
         (google : Backend GoogleSearchResponse) (serp : Backend SerpApiResponse)
         (fuel : nat) (clock : Api.Clock) (request : Api.SearchRequest)
         (history : list Api.SearchRecord),
    (10 <= fuel)%nat -> google_capped google -> serp_capped serp ->
    let ceiling := if Api.getAllPages request then 100%nat else 10%nat in
    (exists reply history',
        Api.search_profiles Alternate.extractProfiles google fuel clock
          (Returned request) history = Some (reply, history') /\
        lists_profile_links ceiling reply) /\
    (exists reply history',
        Api.search_profiles Primary.extractProfiles google fuel clock
          (Returned request) history = Some (reply, history') /\
        lists_profile_links ceiling reply) /\
    (exists reply history',
        Api.search_profiles_serpapi Alternate.extractProfilesFromSerpApi SERPAPI_KEY serp
          fuel clock (Returned request) history = Some (reply, history') /\
        lists_profile_links ceiling reply) /\
    (exists reply history',
        Api.search_profiles_serpapi Primary.extractProfilesFromSerpApi SERPAPI_KEY serp
          fuel clock (Returned request) history = Some (reply, history') /\
        lists_profile_links ceiling reply).
Proof.
  intros key google serp fuel clock request history Hfuel Hgoogle Hserp ceiling.
  subst ceiling. repeat split.
  - apply search_profiles_lists_links; auto using alternate_extractor_ok.
  - apply search_profiles_lists_links; auto using primary_extractor_ok.
  - apply search_profiles_serpapi_lists_links; auto using alternate_serp_extractor_ok.
  - apply search_profiles_serpapi_lists_links; auto using primary_serp_extractor_ok.
Qed.

Lemma replies_list_profile_links_witness :
  exists reply history',
    Api.search_profiles Alternate.extractProfiles full_pages_google 10 noon
      (Returned empty_request) [] = Some (reply, history') /\
    lists_profile_links (if Api.getAllPages empty_request then 100%nat else 10%nat) reply.
Proof.
  refine (proj1 (replies_list_profile_links "key" full_pages_google full_pages_serp 10 noon
                   empty_request [] (le_n 10) _ _)).
  - intros i req. cbn. lia.
  - intros i req. cbn. lia.
Defined.

(** ** The history endpoint *)

Lemma slice0_prefix {A : Type} (finish : option Z) (array : list A) :
  exists k, JsArray.slice0 finish array = firstn k array.
Proof. unfold JsArray.slice0. cbv zeta. eauto. Qed.

Lemma firstn_min {A : Type} (n : nat) (l : list A) :
  firstn (Nat.min n (Datatypes.length l)) l = firstn n l.
Proof.
  destruct (Nat.le_ge_cases n (Datatypes.length l)) as [ H | H ].
  - now rewrite Nat.min_l.
  - rewrite Nat.min_r by assumption. rewrite !firstn_all2; auto.
Qed.

(** X17.  The history endpoint answers with a prefix of the history,
    newest first: the first 10 entries without a [limit], nothing when the
    limit is not a number, the first [min(limit, 50)] entries for a limit
    that is not negative, and, for a negative limit, all entries but the
    last [-limit] of them, which can be more than 50. *)
Theorem history_window :
  forall (limit : option string) (history : list Api.SearchRecord),
    (exists k, Api.search_history limit history = Api.Searches (firstn k history)) /\
    (limit = None \/ limit = Some "" ->
     Api.search_history limit history = Api.Searches (firstn 10 history)) /\
    (forall s, limit = Some s -> s <> "" ->
       match JsNumber.parseInt s with
       | None => Api.search_history limit history = Api.Searches []
       | Some n =>
           if (n <? 0)%Z
           then Api.search_history limit history =
                Api.Searches (firstn (Datatypes.length history - Z.to_nat (- n)) history)
           else Api.search_history limit history =
                Api.Searches (firstn (Nat.min (Z.to_nat n) 50) history)
       end).
Proof.
  intros limit history. split; [ | split ].
  - unfold Api.search_history. cbv zeta.
    destruct (slice0_prefix
                (JsNumber.min (JsNumber.parseInt match limit with
                                                 | Some s => if Js.truthy s then s else "10"
                                                 | None => "10"
                                                 end) 50) history) as (k & ->).
    now exists k.
  - intros [ -> | -> ]; unfold Api.search_history; cbv zeta; cbn [Js.truthy String.eqb negb];
      change (JsNumber.parseInt "10") with (Some 10%Z);
      cbn [JsNumber.min]; unfold JsArray.slice0; cbv zeta;
      change (Z.min 10 50) with 10%Z; change (10 <? 0)%Z with false; cbv iota;
      rewrite Z2Nat.inj_min, Nat2Z.id; change (Z.to_nat 10) with 10%nat;
      now rewrite firstn_min.
  - intros s -> Hs. unfold Api.search_history. cbv zeta.
    apply truthy_nonempty in Hs. rewrite Hs.
    destruct (JsNumber.parseInt s) as [ n | ]; cbn [JsNumber.min].
    + unfold JsArray.slice0. cbv zeta.
      destruct (n <? 0)%Z eqn:En.
      * apply Z.ltb_lt in En.
        replace (Z.min n 50 <? 0)%Z with true by (symmetry; apply Z.ltb_lt; lia).
        rewrite Z.min_l by lia. f_equal. f_equal. lia.
      * apply Z.ltb_ge in En.
        replace (Z.min n 50 <? 0)%Z with false by (symmetry; apply Z.ltb_ge; lia).
        rewrite Z2Nat.inj_min, Nat2Z.id, firstn_min, Z2Nat.inj_min.
        reflexivity.
    + unfold JsArray.slice0. cbv zeta. change (0 <? 0)%Z with false. cbv iota.
      now rewrite Z.min_l by lia.
Qed.

Lemma history_window_witness :
  Api.search_history None (sample_history 100) = Api.Searches (sample_history 10) /\
  Api.search_history (Some "-1") (sample_history 100) = Api.Searches (sample_history 99) /\
  Api.search_history (Some "500") (sample_history 100) = Api.Searches (sample_history 50).
Proof.
  destruct (history_window None (sample_history 100)) as (_ & Hdefault & _).
  split; [ rewrite Hdefault by (now left); reflexivity | ].
  split.
  - destruct (history_window (Some "-1") (sample_history 100)) as (_ & _ & H).
    etransitivity; [ exact (H "-1" eq_refl ltac:(discriminate)) | reflexivity ].
  - destruct (history_window (Some "500") (sample_history 100)) as (_ & _ & H).
    etransitivity; [ exact (H "500" eq_refl ltac:(discriminate)) | reflexivity ].
Defined.

(** * The Telegram bot *)

Lemma given_truthy (filter : option string) :
  given filter <-> exists s, filter = Some s /\ Js.truthy s = true.
Proof.
  split; intros (s & -> & H); exists s; (split; [ reflexivity | ]);
    now apply truthy_nonempty.
Qed.

(** X18.  The bot and the HTTP API give the extractor different search
    contexts for the same filters: the bot joins the three filters in a
    template, where a skipped filter reads [undefined], the API joins the
    filters that are given.  The two agree exactly when the three filters
    are given and not empty; the context of the bot is never empty. *)
Theorem bot_and_api_contexts :
  forall params : TelegramCTOBot.SearchParams,
    (TelegramCTOBot.searchContext params = Api.searchContext (api_request params) <->
     given (TelegramCTOBot.region params) /\
     given (TelegramCTOBot.company_sector params) /\
     given (TelegramCTOBot.company_type params)) /\
    Js.truthy (TelegramCTOBot.searchContext params) = true.
Proof.
  intros [ r s t z m ].
  unfold TelegramCTOBot.searchContext, Api.searchContext, api_request, JsString.template.
  cbn [TelegramCTOBot.region TelegramCTOBot.company_sector TelegramCTOBot.company_type
       Api.region Api.company_sector Api.company_type].
  split.
  - rewrite !given_truthy. unfold JsArray.filterBoolean. cbn [flat_map]. split.
    + intros Heq. apply (f_equal String.length) in Heq.
      destruct r as [ r | ]; [ destruct (Js.truthy r) eqn:Er | ];
        (destruct s as [ s | ]; [ destruct (Js.truthy s) eqn:Es | ]);
        (destruct t as [ t | ]; [ destruct (Js.truthy t) eqn:Et | ]);
        cbn [app Js.join String.concat] in Heq;
        rewrite ?string_app_length in Heq; cbn [String.length] in Heq;
        try lia; eauto 10.
    + intros ((r' & -> & Hr) & (s' & -> & Hs) & (t' & -> & Ht)).
      rewrite Hr, Hs, Ht. reflexivity.
  - destruct r as [ [ | a r ] | ]; reflexivity.
Qed.

(** ** Callbacks *)

(** X19.  A callback whose data starts with none of [region_], [sector_],
    [type_], [size_] and [method_] is only acknowledged: no session changes
    and no message is sent.  The two buttons the bot offers with the
    results, [download_csv] and [new_search], are such callbacks. *)
Theorem unhandled_callbacks_do_nothing :
  forall (google : Backend GoogleSearchResponse) (serp : Backend SerpApiResponse)
         (fuel : nat) (chat : Z) (data : string) (sessions : TelegramCTOBot.Sessions),
    unhandled data = true \/ In data TelegramCTOBot.resultsKeyboard ->
    TelegramCTOBot.handleCallbackQuery google serp fuel chat data sessions =
    acknowledged sessions chat.
Proof.
  intros google serp fuel chat data sessions H.
  assert (Hun : unhandled data = true).
  { destruct H as [ H | [ <- | [ <- | [] ] ] ]; [ exact H | reflexivity | reflexivity ]. }
  unfold unhandled in Hun. apply negb_true_iff in Hun.
  repeat (apply orb_false_iff in Hun; destruct Hun as [ Hun ? ]).
  unfold TelegramCTOBot.handleCallbackQuery, acknowledged. cbv zeta.
  destruct (sessions chat); [ | reflexivity ].
  repeat match goal with
         | H : String.prefix _ data = false |- _ => rewrite H; clear H
         end.
  reflexivity.
Qed.

Lemma unhandled_callbacks_do_nothing_witness :
  TelegramCTOBot.handleCallbackQuery (always service_unavailable) (always service_unavailable)
    10 7 "download_csv" sample_sessions =
  acknowledged sample_sessions 7.
Proof.
  apply unhandled_callbacks_do_nothing. right. left. reflexivity.
Defined.

(** ** The search of the bot *)

Lemma substring_all (s : string) : String.substring 0 (String.length s) s = s.
Proof. induction s as [ | c s IH ]; simpl; [ reflexivity | now rewrite IH ]. Qed.

Lemma substring_app (p s : string) :
  String.substring (String.length p) (String.length (p ++ s) - String.length p) (p ++ s) = s.
Proof.
  rewrite string_app_length.
  replace (String.length p + String.length s - String.length p)%nat
    with (String.length s) by lia.
  induction p as [ | c p IH ]; [ apply substring_all | exact IH ].
Qed.

(** Replacing a prefix. *)
Lemma replace_prefix (p r s : string) : JsString.replace p r (p ++ s) = r ++ s.
Proof.
  destruct (p ++ s) as [ | c rest ] eqn:E; cbn [JsString.replace];
    rewrite <- E, prefix_app, substring_app; reflexivity.
Qed.

Lemma method_selection_outcome :
  forall (google : Backend GoogleSearchResponse) (serp : Backend SerpApiResponse)
         (fuel : nat) (chat : Z) (method : string) (session : TelegramCTOBot.UserSession),
    (10 <= fuel)%nat ->
    let params := TelegramCTOBot.searchParams session in
    let built := buildQuery (TelegramCTOBot.region params)
                            (TelegramCTOBot.company_sector params)
                            (TelegramCTOBot.company_type params) None in
    exists session' calls,
      TelegramCTOBot.handleSearchMethodSelection google serp fuel chat
        ("method_" ++ method) session = Some (session', calls) /\
      match built with
      | Thrown _ =>
          TelegramCTOBot.step session' = TelegramCTOBot.step_searching /\
          TelegramCTOBot.results session' = TelegramCTOBot.results session /\
          says_error calls chat (TelegramCTOBot.searchParams session')
      | Returned q =>
          exists (n : nat) (profiles : list LinkedInProfile),
            (1 <= n <= 10)%nat /\
            profiles =
            (if String.eqb method "google"
             then Alternate.extractProfiles
                    {| items := Some (google_answers google q 0 n) |}
                    (TelegramCTOBot.searchContext params)
             else Alternate.extractProfilesFromSerpApi
                    {| organic_results := Some (serp_answers serp q 0 n) |}
                    (TelegramCTOBot.searchContext params)) /\
            session' = searched session method profiles /\
            Forall matches_profile_pattern profiles /\
            says_found calls chat (TelegramCTOBot.searchParams session') profiles
      end.
Proof.
  intros google serp fuel chat method session Hfuel params built.
  unfold TelegramCTOBot.handleSearchMethodSelection. cbv zeta.
  rewrite (replace_prefix "method_" "" method). cbn [append].
  unfold TelegramCTOBot.performSearch, TelegramCTOBot.search.
  cbn [TelegramCTOBot.searchParams TelegramCTOBot.search_method TelegramCTOBot.region
       TelegramCTOBot.company_sector TelegramCTOBot.company_type TelegramCTOBot.chatId
       TelegramCTOBot.results].
  fold params.
  assert (Hctx : TelegramCTOBot.searchContext
                   {| TelegramCTOBot.region := TelegramCTOBot.region params;
                      TelegramCTOBot.company_sector := TelegramCTOBot.company_sector params;
                      TelegramCTOBot.company_type := TelegramCTOBot.company_type params;
                      TelegramCTOBot.company_size := TelegramCTOBot.company_size params;
                      TelegramCTOBot.search_method := Some method |}
                 = TelegramCTOBot.searchContext params) by reflexivity.
  rewrite Hctx.
  unfold Google.searchCtoProfiles, Serp.searchCtoProfiles. fold built.
  destruct (String.eqb method "google") eqn:Em.
  - apply String.eqb_eq in Em. subst method.
    destruct built as [ q | e ].
    + destruct (google_all_pages google q fuel Hfuel) as (n & Hn & ->).
      pose proof (alternate_links {| items := Some (google_answers google q 0 n) |}
                    (TelegramCTOBot.searchContext params)) as Hlinks.
      remember (Alternate.extractProfiles {| items := Some (google_answers google q 0 n) |}
                  (TelegramCTOBot.searchContext params)) as profiles eqn:Ep.
      destruct profiles as [ | p profiles' ];
        (eexists; eexists; split; [ reflexivity | ]);
        exists n; eexists; (split; [ exact Hn | ]); (split; [ exact Ep | ]);
        (split; [ reflexivity | ]);
        (split; [ exact Hlinks | ]);
        reflexivity.
    + eexists. eexists. split; [ reflexivity | ].
      repeat split.
  - assert (Hdispatch :
              forall (A : Type) (a b : A),
                match method with
                | "google" => a
                | _ => b
                end = b).
    { intros A a b. apply String.eqb_neq in Em.
      repeat match goal with
             | |- context [match ?s with EmptyString => _ | String _ _ => _ end] =>
                 destruct s; try reflexivity
             | |- context [match ?c with Ascii _ _ _ _ _ _ _ _ => _ end] =>
                 destruct c
             | |- context [if ?b then _ else _] => destruct b; try reflexivity
             end.
      now elim Em. }
    rewrite Hdispatch.
    destruct built as [ q | e ].
    + destruct (serp_all_pages serp q fuel Hfuel) as (n & Hn & ->).
      pose proof (alternate_serp_links
                    {| organic_results := Some (serp_answers serp q 0 n) |}
                    (TelegramCTOBot.searchContext params)) as Hlinks.
      remember (Alternate.extractProfilesFromSerpApi
                  {| organic_results := Some (serp_answers serp q 0 n) |}
                  (TelegramCTOBot.searchContext params)) as profiles eqn:Ep.
      destruct profiles as [ | p profiles' ];
        (eexists; eexists; split; [ reflexivity | ]);
        exists n; eexists; (split; [ exact Hn | ]); (split; [ exact Ep | ]);
        (split; [ reflexivity | ]);
        (split; [ exact Hlinks | ]);
        reflexivity.
    + eexists. eexists. split; [ reflexivity | ].
      repeat split.
Qed.

(** X20.  A callback [method_...] starts the search whatever the step of
    the session.  Every method but [google] searches with SerpAPI.  The
    search is exhaustive, so a failing backend is never reported as an
    error: the error message is sent only when query construction throws,
    and otherwise the session ends in step [results] holding the profiles
    found, all of them profile links, with the message for no results when
    there are none. *)
Theorem bot_search_outcome :
  forall (google : Backend GoogleSearchResponse) (serp : Backend SerpApiResponse)
         (fuel : nat) (chat : Z) (method : string)
         (sessions : TelegramCTOBot.Sessions) (session : TelegramCTOBot.UserSession),
    (10 <= fuel)%nat ->
    sessions chat = Some session ->
    let params := TelegramCTOBot.searchParams session in
    let built := buildQuery (TelegramCTOBot.region params)
                            (TelegramCTOBot.company_sector params)
                            (TelegramCTOBot.company_type params) None in
    exists session' calls,
      TelegramCTOBot.handleCallbackQuery google serp fuel chat ("method_" ++ method) sessions
      = Some (TelegramCTOBot.set chat session' sessions,
              TelegramCTOBot.answerCallbackQuery None :: calls) /\
      match built with
      | Thrown _ =>
          TelegramCTOBot.step session' = TelegramCTOBot.step_searching /\
          TelegramCTOBot.results session' = TelegramCTOBot.results session /\
          says_error calls chat (TelegramCTOBot.searchParams session')
      | Returned q =>
          exists (n : nat) (profiles : list LinkedInProfile),
            (1 <= n <= 10)%nat /\
            profiles =
            (if String.eqb method "google"
             then Alternate.extractProfiles
                    {| items := Some (google_answers google q 0 n) |}
                    (TelegramCTOBot.searchContext params)
             else Alternate.extractProfilesFromSerpApi
                    {| organic_results := Some (serp_answers serp q 0 n) |}
                    (TelegramCTOBot.searchContext params)) /\
            session' = searched session method profiles /\
            Forall matches_profile_pattern profiles /\
            says_found calls chat (TelegramCTOBot.searchParams session') profiles
      end.
Proof.
  intros google serp fuel chat method sessions session Hfuel Hsession params built.
  destruct (method_selection_outcome google serp fuel chat method session Hfuel)
    as (session' & calls & E & Hout).
  exists session', calls. split; [ | exact Hout ].
  unfold TelegramCTOBot.handleCallbackQuery. rewrite Hsession.
  change (String.prefix "region_" ("method_" ++ method)) with false.
  change (String.prefix "sector_" ("method_" ++ method)) with false.
  change (String.prefix "type_" ("method_" ++ method)) with false.
  change (String.prefix "size_" ("method_" ++ method)) with false.
  rewrite (prefix_app "method_" method), E. reflexivity.
Qed.

Lemma bot_search_outcome_witness :
  exists session' calls,
    TelegramCTOBot.handleCallbackQuery four_pages_google four_pages_serp 10 7
      ("method_" ++ "google") sample_sessions
    = Some (TelegramCTOBot.set 7 session' sample_sessions,
            TelegramCTOBot.answerCallbackQuery None :: calls) /\
    TelegramCTOBot.step session' = TelegramCTOBot.step_results.
Proof.
  destruct (bot_search_outcome four_pages_google four_pages_serp 10 7 "google"
              sample_sessions sample_session (le_n 10) eq_refl)
    as (session' & calls & E & n & profiles & _ & _ & Hs & _).
  exists session', calls. split; [ exact E | ]. rewrite Hs. reflexivity.
Defined.

(** ** A whole dialogue *)

Lemma set_same (chat : Z) (session : TelegramCTOBot.UserSession)
      (sessions : TelegramCTOBot.Sessions) :
  TelegramCTOBot.set chat session sessions chat = Some session.
Proof. unfold TelegramCTOBot.set. now rewrite Z.eqb_refl. Qed.

Lemma set_other (chat other : Z) (session : TelegramCTOBot.UserSession)
      (sessions : TelegramCTOBot.Sessions) :
  other <> chat -> TelegramCTOBot.set chat session sessions other = sessions other.
Proof. intros H. unfold TelegramCTOBot.set. apply Z.eqb_neq in H. now rewrite H. Qed.

Lemma optionalClause_returns table filter :
  throws_on table filter = false -> exists clauses, optionalClause table filter = Returned clauses.
Proof.
  unfold throws_on, optionalClause, keywordClause.
  destruct filter as [ value | ]; [ | eauto ].
  destruct (Js.truthy value); [ | eauto ].
  destruct (keywordTerms table value); cbn; [ eauto | discriminate ].
Qed.

Lemma buildQuery_returns region sector type titles :
  throws_on sectorKeywords sector = false ->
  throws_on typeKeywords type = false ->
  exists q, buildQuery region sector type titles = Returned q.
Proof.
  intros Hs Ht.
  destruct (optionalClause_returns _ _ Hs) as (cs & Hcs).
  destruct (optionalClause_returns _ _ Ht) as (ct & Hct).
  rewrite (buildQuery_clause_order _ _ _ _ _ _ Hcs Hct). eauto.
Qed.

Section Dispatch.

Variable google : Backend GoogleSearchResponse.
Variable serp : Backend SerpApiResponse.
Variable fuel : nat.
Variable chat : Z.
Variable sessions : TelegramCTOBot.Sessions.
Variable session : TelegramCTOBot.UserSession.
Hypothesis Hsession : sessions chat = Some session.

Lemma callback_region (data : string) :
  String.prefix "region_" data = true ->
  callbacks google serp fuel chat [data] sessions =
  Some (TelegramCTOBot.set chat
          (fst (TelegramCTOBot.handleRegionSelection chat data session)) sessions).
Proof.
  intros H. cbn [callbacks]. unfold TelegramCTOBot.handleCallbackQuery.
  now rewrite Hsession, H.
Qed.

Lemma callback_sector (data : string) :
  String.prefix "region_" data = false -> String.prefix "sector_" data = true ->
  callbacks google serp fuel chat [data] sessions =
  Some (TelegramCTOBot.set chat
          (fst (TelegramCTOBot.handleSectorSelection chat data session)) sessions).
Proof.
  intros H1 H2. cbn [callbacks]. unfold TelegramCTOBot.handleCallbackQuery.
  now rewrite Hsession, H1, H2.
Qed.

Lemma callback_type (data : string) :
  String.prefix "region_" data = false -> String.prefix "sector_" data = false ->
  String.prefix "type_" data = true ->
  callbacks google serp fuel chat [data] sessions =
  Some (TelegramCTOBot.set chat
          (fst (TelegramCTOBot.handleCompanyTypeSelection chat data session)) sessions).
Proof.
  intros H1 H2 H3. cbn [callbacks]. unfold TelegramCTOBot.handleCallbackQuery.
  now rewrite Hsession, H1, H2, H3.
Qed.

Lemma callback_size (data : string) :
  String.prefix "region_" data = false -> String.prefix "sector_" data = false ->
  String.prefix "type_" data = false -> String.prefix "size_" data = true ->
  callbacks google serp fuel chat [data] sessions =
  Some (TelegramCTOBot.set chat
          (fst (TelegramCTOBot.handleCompanySizeSelection chat data session)) sessions).
Proof.
  intros H1 H2 H3 H4. cbn [callbacks]. unfold TelegramCTOBot.handleCallbackQuery.
  now rewrite Hsession, H1, H2, H3, H4.
Qed.

Lemma callback_method (data : string) :
  String.prefix "region_" data = false -> String.prefix "sector_" data = false ->
  String.prefix "type_" data = false -> String.prefix "size_" data = false ->
  String.prefix "method_" data = true ->
  callbacks google serp fuel chat [data] sessions =
  match TelegramCTOBot.handleSearchMethodSelection google serp fuel chat data session with
  | Some outcome => Some (TelegramCTOBot.set chat (fst outcome) sessions)
  | None => None
  end.
Proof.
  intros H1 H2 H3 H4 H5. cbn [callbacks]. unfold TelegramCTOBot.handleCallbackQuery.
  rewrite Hsession, H1, H2, H3, H4, H5.
  now destruct (TelegramCTOBot.handleSearchMethodSelection _ _ _ _ _ _).
Qed.

End Dispatch.

Lemma callbacks_app google serp fuel chat (first rest : list string) sessions :
  callbacks google serp fuel chat (first ++ rest)%list sessions =
  match callbacks google serp fuel chat first sessions with
  | Some sessions' => callbacks google serp fuel chat rest sessions'
  | None => None
  end.
Proof.
  revert sessions. induction first as [ | data first IH ]; intros sessions; cbn [callbacks app].
  - reflexivity.
  - destruct (TelegramCTOBot.handleCallbackQuery _ _ _ _ _ _) as [ [ sessions' calls ] | ];
      [ apply IH | reflexivity ].
Qed.



Lemma callbacks_cons google serp fuel chat (data : string) (rest : list string) sessions :
  callbacks google serp fuel chat (data :: rest) sessions =
  match callbacks google serp fuel chat [data] sessions with
  | Some sessions' => callbacks google serp fuel chat rest sessions'
  | None => None
  end.
Proof. exact (callbacks_app google serp fuel chat [data] rest sessions). Qed.

Lemma region_keeps_buildable (chat : Z) (data : string) (session : TelegramCTOBot.UserSession) :
  buildable session ->
  buildable (fst (TelegramCTOBot.handleRegionSelection chat data session)).
Proof.
  unfold buildable, TelegramCTOBot.handleRegionSelection. cbv zeta.
  cbn [fst TelegramCTOBot.searchParams].
  now destruct (negb (String.eqb (JsString.replace "region_" "" data) "skip")).
Qed.

Lemma size_keeps_buildable (chat : Z) (data : string) (session : TelegramCTOBot.UserSession) :
  buildable session ->
  buildable (fst (TelegramCTOBot.handleCompanySizeSelection chat data session)).
Proof.
  unfold buildable, TelegramCTOBot.handleCompanySizeSelection. cbv zeta.
  cbn [fst TelegramCTOBot.searchParams].
  now destruct (negb (String.eqb (JsString.replace "size_" "" data) "skip")).
Qed.

Lemma sector_keeps_buildable (chat : Z) (data : string) (session : TelegramCTOBot.UserSession) :
  In data TelegramCTOBot.sectorKeyboard -> buildable session ->
  buildable (fst (TelegramCTOBot.handleSectorSelection chat data session)).
Proof.
  intros Hin [ Hs Ht ].
  unfold buildable, TelegramCTOBot.handleSectorSelection. cbv zeta.
  cbn [fst TelegramCTOBot.searchParams].
  unfold TelegramCTOBot.sectorKeyboard in Hin. cbn [In] in Hin.
  repeat (destruct Hin as [ <- | Hin ];
          [ split; [ try reflexivity; exact Hs | exact Ht ] | ]).
  destruct Hin.
Qed.

Lemma type_keeps_buildable (chat : Z) (data : string) (session : TelegramCTOBot.UserSession) :
  In data TelegramCTOBot.typeKeyboard -> buildable session ->
  buildable (fst (TelegramCTOBot.handleCompanyTypeSelection chat data session)).
Proof.
  intros Hin [ Hs Ht ].
  unfold buildable, TelegramCTOBot.handleCompanyTypeSelection. cbv zeta.
  cbn [fst TelegramCTOBot.searchParams].
  unfold TelegramCTOBot.typeKeyboard in Hin. cbn [In] in Hin.
  repeat (destruct Hin as [ <- | Hin ];
          [ split; [ exact Hs | try reflexivity; exact Ht ] | ]).
  destruct Hin.
Qed.

(** X21.  A whole dialogue: after [/start], one button of each of the five
    keyboards in turn (region, sector, company type, company size, search
    method), whatever the buttons and whatever the backends answer, leaves
    the session of the chat in step [results] holding the profiles found,
    all of them profile links; no button of the bot makes query
    construction throw, and the sessions of other chats are untouched. *)
Theorem bot_dialogue_completes :
  forall (google : Backend GoogleSearchResponse) (serp : Backend SerpApiResponse)
         (fuel : nat) (chat : Z) (sessions : TelegramCTOBot.Sessions)
         (regionButton sectorButton typeButton sizeButton methodButton : string),
    (10 <= fuel)%nat ->
    In regionButton TelegramCTOBot.regionKeyboard ->
    In sectorButton TelegramCTOBot.sectorKeyboard ->
    In typeButton TelegramCTOBot.typeKeyboard ->
    In sizeButton TelegramCTOBot.sizeKeyboard ->
    In methodButton TelegramCTOBot.methodKeyboard ->
    exists (sessions' : TelegramCTOBot.Sessions) (session : TelegramCTOBot.UserSession)
           (profiles : list LinkedInProfile),
      callbacks google serp fuel chat
        [regionButton; sectorButton; typeButton; sizeButton; methodButton]
        (fst (TelegramCTOBot.handleStart chat sessions)) = Some sessions' /\
      sessions' chat = Some session /\
      TelegramCTOBot.step session = TelegramCTOBot.step_results /\
      TelegramCTOBot.results session = Some profiles /\
      Forall matches_profile_pattern profiles /\
      (forall other, other <> chat -> sessions' other = sessions other).
Proof.
  intros google serp fuel chat sessions rb sb tb zb mb Hfuel Hrb Hsb Htb Hzb Hmb.
  assert (Pr : String.prefix "region_" rb = true).
  { unfold TelegramCTOBot.regionKeyboard in Hrb. cbn [In] in Hrb.
    repeat (destruct Hrb as [ <- | Hrb ]; [ reflexivity | ]). destruct Hrb. }
  assert (Ps : String.prefix "region_" sb = false /\ String.prefix "sector_" sb = true).
  { unfold TelegramCTOBot.sectorKeyboard in Hsb. cbn [In] in Hsb.
    repeat (destruct Hsb as [ <- | Hsb ]; [ split; reflexivity | ]). destruct Hsb. }
  assert (Pt : String.prefix "region_" tb = false /\ String.prefix "sector_" tb = false /\
               String.prefix "type_" tb = true).
  { unfold TelegramCTOBot.typeKeyboard in Htb. cbn [In] in Htb.
    repeat (destruct Htb as [ <- | Htb ]; [ repeat split; reflexivity | ]). destruct Htb. }
  assert (Pz : String.prefix "region_" zb = false /\ String.prefix "sector_" zb = false /\
               String.prefix "type_" zb = false /\ String.prefix "size_" zb = true).
  { unfold TelegramCTOBot.sizeKeyboard in Hzb. cbn [In] in Hzb.
    repeat (destruct Hzb as [ <- | Hzb ]; [ repeat split; reflexivity | ]). destruct Hzb. }
  assert (Pm : String.prefix "region_" mb = false /\ String.prefix "sector_" mb = false /\
               String.prefix "type_" mb = false /\ String.prefix "size_" mb = false /\
               String.prefix "method_" mb = true /\
               exists method, mb = "method_" ++ method).
  { unfold TelegramCTOBot.methodKeyboard in Hmb. cbn [In] in Hmb.
    destruct Hmb as [ <- | [ <- | [] ] ]; repeat split;
      [ now exists "google" | now exists "serpapi" ]. }
  destruct Ps as [ Ps1 Ps2 ]. destruct Pt as (Pt1 & Pt2 & Pt3).
  destruct Pz as (Pz1 & Pz2 & Pz3 & Pz4).
  destruct Pm as (Pm1 & Pm2 & Pm3 & Pm4 & Pm5 & method & ->).
  unfold TelegramCTOBot.handleStart. cbv zeta. cbn [fst].
  set (session0 := {| TelegramCTOBot.chatId := chat;
                      TelegramCTOBot.step := TelegramCTOBot.step_start;
                      TelegramCTOBot.searchParams := _;
                      TelegramCTOBot.results := None |}).
  assert (B0 : buildable session0) by (split; reflexivity).
  set (sessions0 := TelegramCTOBot.set chat session0 sessions).
  rewrite callbacks_cons,
    (callback_region google serp fuel chat sessions0 session0 (set_same _ _ _) rb Pr).
  set (session1 := fst (TelegramCTOBot.handleRegionSelection chat rb session0)).
  assert (B1 : buildable session1) by now apply region_keeps_buildable.
  set (sessions1 := TelegramCTOBot.set chat session1 sessions0).
  rewrite callbacks_cons,
    (callback_sector google serp fuel chat sessions1 session1 (set_same _ _ _) sb Ps1 Ps2).
  set (session2 := fst (TelegramCTOBot.handleSectorSelection chat sb session1)).
  assert (B2 : buildable session2) by now apply sector_keeps_buildable.
  set (sessions2 := TelegramCTOBot.set chat session2 sessions1).
  rewrite callbacks_cons,
    (callback_type google serp fuel chat sessions2 session2 (set_same _ _ _) tb Pt1 Pt2 Pt3).
  set (session3 := fst (TelegramCTOBot.handleCompanyTypeSelection chat tb session2)).
  assert (B3 : buildable session3) by now apply type_keeps_buildable.
  set (sessions3 := TelegramCTOBot.set chat session3 sessions2).
  rewrite callbacks_cons,
    (callback_size google serp fuel chat sessions3 session3 (set_same _ _ _) zb
       Pz1 Pz2 Pz3 Pz4).
  set (session4 := fst (TelegramCTOBot.handleCompanySizeSelection chat zb session3)).
  assert (B4 : buildable session4) by now apply size_keeps_buildable.
  set (sessions4 := TelegramCTOBot.set chat session4 sessions3).
  rewrite (callback_method google serp fuel chat sessions4 session4 (set_same _ _ _)
             ("method_" ++ method) Pm1 Pm2 Pm3 Pm4 Pm5).
  destruct (method_selection_outcome google serp fuel chat method session4 Hfuel)
    as (session' & calls & -> & Hout).
  destruct B4 as [ Bs Bt ].
  destruct (buildQuery_returns
              (TelegramCTOBot.region (TelegramCTOBot.searchParams session4))
              _ _ None Bs Bt) as (q & Hq).
  cbv zeta in Hout. rewrite Hq in Hout.
  destruct Hout as (n & profiles & _ & _ & Hs' & Hlinks & _).
  cbn [fst].
  exists (TelegramCTOBot.set chat session' sessions4), session', profiles.
  split; [ reflexivity | ]. split; [ apply set_same | ].
  rewrite Hs'. cbn [searched TelegramCTOBot.step TelegramCTOBot.results].
  repeat split; try assumption.
  intros other Hother. unfold sessions4, sessions3, sessions2, sessions1, sessions0.
  now rewrite !set_other by assumption.
Qed.

Lemma bot_dialogue_completes_witness :
  exists (sessions' : TelegramCTOBot.Sessions) (session : TelegramCTOBot.UserSession)
         (profiles : list LinkedInProfile),
    callbacks four_pages_google four_pages_serp 10 7
      [ "region_united_states"; "sector_AI/ML"; "type_skip"; "size_11-50"; "method_google" ]
      (fst (TelegramCTOBot.handleStart 7 (fun _ => None))) = Some sessions' /\
    sessions' 7%Z = Some session /\
    TelegramCTOBot.step session = TelegramCTOBot.step_results /\
    TelegramCTOBot.results session = Some profiles /\
    Forall matches_profile_pattern profiles /\
    (forall other, other <> 7%Z -> sessions' other = None).
Proof.
  apply (bot_dialogue_completes four_pages_google four_pages_serp 10 7 (fun _ => None));
    cbn; auto 10.
Defined.

(** * Query construction, once more *)





(** * The two versions of the extractor *)

(** X23.  The two versions of [parseSearchItem] accept the same items and give
    the same name, job title, company, URL, snippet and sources; they can
    differ in the location and in the score only. *)
Theorem versions_parse_alike :
  forall (item : GoogleSearchItem) (searchContext : string),
    match Primary.parseSearchItem item searchContext,
          Alternate.parseSearchItem item searchContext with
    | Some p, Some a =>
        name p = name a /\ profile_title p = profile_title a /\ company p = company a /\
        linkedin_url p = linkedin_url a /\ profile_snippet p = profile_snippet a /\
        sources p = sources a /\
        location p = Primary.extractLocation (profile_snippet p) /\
        location a = Alternate.extractLocation (profile_snippet a)
    | None, None => Regex.test linkedinUrlPattern (Js.or_empty (link item)) = false
    | _, _ => False
    end.
Proof.
  intros item searchContext. unfold Primary.parseSearchItem, Alternate.parseSearchItem.
  rewrite extractTitleAndCompany_agree.
  destruct (Regex.test linkedinUrlPattern (Js.or_empty (link item))); cbn [negb];
    [ | reflexivity ].
  destruct (Alternate.extractTitleAndCompany _ _) as [ jobTitle employer ].
  cbn. repeat split.
Qed.
